(** * VBS cutflow analyses: a shallow embedding

    The analyses of this repository (VBSWH, VBSVVHJets) plug physics cuts
    into a decision tree (the [Cutflow]) that is walked once per event.  Cuts
    read the event ([nt]), share intermediate values through the cutflow's
    [globals] and write output leaves into the [Arbol]; the driver resets the
    two stores, runs the cutflow and fills the output tree when the event is
    accepted.

    C++ state is passed explicitly, exceptions are an error monad, [int] is
    [Z], [double] is the primitive binary64 [float]. *)

From Stdlib Require Import ZArith Floats String.
From stdpp Require Import gmap strings list.

Set Warnings "-inexact-float".
Local Open Scope Z_scope.

(** ** Exceptions *)

(** What a call can throw.  [runtime_error] and [out_of_range] are the two
    standard exceptions the sources rely on ([out_of_range] is a
    [logic_error], so a handler for [runtime_error] does not catch it); the
    others are the fatal errors of the cutflow and of the two stores. *)
Inductive exn : Type :=
  | runtime_error
  | out_of_range
  | NotFound
  | SlotOccupied
  | DuplicateName
  | RootExists
  | UnknownName (name : string)
  | TypeMismatch (name : string).

Inductive Exn (A : Type) : Type :=
  | Ok (a : A)
  | Throw (e : exn).
Arguments Ok {A} a.
Arguments Throw {A} e.

#[global] Instance Exn_ret : MRet Exn := @Ok.
#[global] Instance Exn_bind : MBind Exn := fun A B f m =>
  match m with
  | Ok a => f a
  | Throw e => Throw e
  end.

#[global] Instance Exn_fmap : FMap Exn := fun A B f m =>
  match m with
  | Ok a => Ok (f a)
  | Throw e => Throw e
  end.

(** [try { body } catch (const runtime_error&) { handler }] *)
Definition try_catch_runtime_error {A} (body : Exn A) (handler : A) : Exn A :=
  match body with
  | Throw runtime_error => Ok handler
  | other => other
  end.

(** [std::vector::at]: the index is converted to [size_t], so a negative
    [int] is out of range like any index past the end. *)
Definition at_ {A} (v : list A) (i : Z) : Exn A :=
  if i <? 0 then Throw out_of_range
  else match v !! Z.to_nat i with
       | Some x => Ok x
       | None => Throw out_of_range
       end.

(** 32-bit [int] arithmetic, wrap-around written out. *)
Definition wrap_int (z : Z) : Z := (z + 2 ^ 31) mod 2 ^ 32 - 2 ^ 31.
Definition abs_int (z : Z) : Z := wrap_int (Z.abs z).
Definition to_unsigned (z : Z) : Z := z mod 2 ^ 32.

(** Modelled from the spec: the [LorentzVector] typedef of NanoCORE is not
    among the sources; a four-vector of floating-point coordinates. *)
Record LorentzVector : Type := mkP4 { c1 : float; c2 : float; c3 : float; c4 : float }.

Definition Doubles := list float.
Definition Integers := list Z.
Definition LorentzVectors := list LorentzVector.

(** ** Arbol: the output row store *)

(** Modelled from the spec: RAPIDO's [Arbol] (arbol.h) is not among the
    sources.  The Output Row Store maps each declared field name to a typed
    value and a typed default; reading or writing an undeclared name, or
    with another type than the declared one, is fatal; a reset restores
    every default; a fill appends the current values as one row. *)
Module Arbol.

(** Modelled from the spec: the typed value of an output field ([int],
    [double] or [bool] in these sources). *)
Inductive Leaf : Type :=
  | LInt (z : Z)
  | LDouble (d : float)
  | LBool (b : bool).

(** The template argument of [newBranch<T>], [getLeaf<T>], [setLeaf<T>]. *)
Class LeafType (T : Type) := {
  to_leaf : T -> Leaf;
  of_leaf : Leaf -> option T
}.
#[global] Instance int_leaf : LeafType Z :=
  {| to_leaf := LInt; of_leaf l := match l with LInt z => Some z | _ => None end |}.
#[global] Instance double_leaf : LeafType float :=
  {| to_leaf := LDouble; of_leaf l := match l with LDouble d => Some d | _ => None end |}.
#[global] Instance bool_leaf : LeafType bool :=
  {| to_leaf := LBool; of_leaf l := match l with LBool b => Some b | _ => None end |}.

(** Modelled from the spec: a field of the Output Row Store, its typed
    value and its typed default. *)
Record Branch : Type := mkBranch { value : Leaf; reset_value : Leaf }.

(** Modelled from the spec: the Output Row Store, and the output table as
    the rows filled so far (oldest first). *)
Record t : Type := mk {
  branches : gmap string Branch;
  rows : list (gmap string Leaf)
}.

Definition empty : t := {| branches := ∅; rows := [] |}.

(** Modelled from the spec: [newBranch<T>(name, default)] declares a field
    that holds its default. *)
Definition newBranch {T} `{LeafType T} (name : string) (dflt : T) (a : t) : t :=
  {| branches := <[name := mkBranch (to_leaf dflt) (to_leaf dflt)]> (branches a);
     rows := rows a |}.

(** Modelled from the spec: [getLeaf<T>(name)]; an undeclared name and a
    type other than the declared one are fatal. *)
Definition getLeaf (T : Type) `{LeafType T} (name : string) (a : t) : Exn T :=
  match branches a !! name with
  | None => Throw (UnknownName name)
  | Some b =>
      match of_leaf (value b) with
      | Some v => Ok v
      | None => Throw (TypeMismatch name)
      end
  end.

(** Modelled from the spec: [setLeaf<T>(name, value)] overwrites the
    current value and keeps the default; an undeclared name and a type other
    than the declared one are fatal. *)
Definition setLeaf {T} `{LeafType T} (name : string) (v : T) (a : t) : Exn t :=
  match branches a !! name with
  | None => Throw (UnknownName name)
  | Some b =>
      match of_leaf (T := T) (value b) with
      | Some _ =>
          Ok {| branches := <[name := mkBranch (to_leaf v) (reset_value b)]> (branches a);
                rows := rows a |}
      | None => Throw (TypeMismatch name)
      end
  end.

(** Modelled from the spec: [resetBranches()] restores the default of
    every field. *)
Definition resetBranches (a : t) : t :=
  {| branches := (fun b => mkBranch (reset_value b) (reset_value b)) <$> branches a;
     rows := rows a |}.

(** The row a [fill] would write: the current value of every branch. *)
Definition current_row (a : t) : gmap string Leaf := value <$> branches a.

(** Modelled from the spec: [fill()] appends the current values as one row
    to the output table. *)
Definition fill (a : t) : t :=
  {| branches := branches a; rows := rows a ++ [current_row a] |}.

End Arbol.

(** ** Utilities::Variables: the cutflow's globals *)

(** Modelled from the spec: RAPIDO's [Utilities::Variables] (utilities.h) is
    not among the sources.  The Named Variable Store maps each declared name
    to a typed slot; reading an undeclared name, or reading or writing with
    another type than the declared one, is fatal; a reset puts every slot
    back to the empty value of its type. *)
Module Variables.

(** Modelled from the spec: the typed value of a variable (the types these
    sources store). *)
Inductive Val : Type :=
  | VDoubles (v : Doubles)
  | VIntegers (v : Integers)
  | VLorentzVector (v : LorentzVector)
  | VLorentzVectors (v : LorentzVectors).

Class VarType (T : Type) := {
  to_val : T -> Val;
  of_val : Val -> option T;
  unset : T
}.
#[global] Instance doubles_var : VarType Doubles :=
  {| to_val := VDoubles;
     of_val v := match v with VDoubles x => Some x | _ => None end;
     unset := [] |}.
#[global] Instance integers_var : VarType Integers :=
  {| to_val := VIntegers;
     of_val v := match v with VIntegers x => Some x | _ => None end;
     unset := [] |}.
#[global] Instance p4_var : VarType LorentzVector :=
  {| to_val := VLorentzVector;
     of_val v := match v with VLorentzVector x => Some x | _ => None end;
     unset := mkP4 0 0 0 0 |}.
#[global] Instance p4s_var : VarType LorentzVectors :=
  {| to_val := VLorentzVectors;
     of_val v := match v with VLorentzVectors x => Some x | _ => None end;
     unset := [] |}.

(** Modelled from the spec: a slot of the Named Variable Store, its value
    and the empty value of its declared type. *)
Record Slot : Type := mkSlot { value : Val; reset_value : Val }.

Abbreviation t := (gmap string Slot).

(** Modelled from the spec: [newVar<T>(name)] declares an empty slot of
    type [T]. *)
Definition newVar (T : Type) `{VarType T} (name : string) (g : t) : t :=
  <[name := mkSlot (to_val (unset (T := T))) (to_val (unset (T := T)))]> g.

(** Modelled from the spec: [getVal<T>(name)]; an undeclared name and a
    type other than the declared one are fatal. *)
Definition getVal (T : Type) `{VarType T} (name : string) (g : t) : Exn T :=
  match g !! name with
  | None => Throw (UnknownName name)
  | Some s =>
      match of_val (value s) with
      | Some v => Ok v
      | None => Throw (TypeMismatch name)
      end
  end.

(** Modelled from the spec: [setVal<T>(name, value)] overwrites the slot;
    an undeclared name and a type other than the declared one are fatal. *)
Definition setVal {T} `{VarType T} (name : string) (v : T) (g : t) : Exn t :=
  match g !! name with
  | None => Throw (UnknownName name)
  | Some s =>
      match of_val (T := T) (value s) with
      | Some _ => Ok (<[name := mkSlot (to_val v) (reset_value s)]> g)
      | None => Throw (TypeMismatch name)
      end
  end.

(** Modelled from the spec: [resetVars()] empties every slot. *)
Definition resetVars (g : t) : t :=
  (fun s => mkSlot (reset_value s) (reset_value s)) <$> g.

End Variables.

(** ** The event and the command line *)

(** Modelled from the spec: NanoCORE's [Nano] is not among the sources.
    The record source exposes per-record typed fields; these are the fields
    the cuts read.  An optional field (here a trigger branch) that the file
    does not have is [None]. *)
Record Nano : Type := mkNano {
  year : Z;
  isData : bool;
  Flag_goodVertices : bool;
  Flag_HBHENoiseFilter : bool;
  Flag_HBHENoiseIsoFilter : bool;
  Flag_EcalDeadCellTriggerPrimitiveFilter : bool;
  Flag_BadPFMuonFilter : bool;
  Flag_globalSuperTightHalo2016Filter : bool;
  b_HLT_IsoMu24 : option bool;
  b_HLT_IsoTkMu24 : option bool;
  b_HLT_IsoMu27 : option bool;
  b_HLT_Ele27_WPTight_Gsf : option bool;
  b_HLT_Ele32_WPTight_Gsf_L1DoubleEG : option bool;
  b_HLT_Ele32_WPTight_Gsf : option bool;
  nGenPart : Z;
  GenPart_pdgId : Integers;
  GenPart_status : Integers;
  GenPart_genPartIdxMother : Integers;
  GenPart_p4 : LorentzVectors
}.

(** Modelled from the spec: the accessor of an optional field throws
    [std::runtime_error] when the field is absent. *)
Definition optional_branch (b : option bool) : Exn bool :=
  match b with
  | Some v => Ok v
  | None => Throw runtime_error
  end.

Definition HLT_IsoMu24 (nt : Nano) := optional_branch (b_HLT_IsoMu24 nt).
Definition HLT_IsoTkMu24 (nt : Nano) := optional_branch (b_HLT_IsoTkMu24 nt).
Definition HLT_IsoMu27 (nt : Nano) := optional_branch (b_HLT_IsoMu27 nt).
Definition HLT_Ele27_WPTight_Gsf (nt : Nano) := optional_branch (b_HLT_Ele27_WPTight_Gsf nt).
Definition HLT_Ele32_WPTight_Gsf_L1DoubleEG (nt : Nano) :=
  optional_branch (b_HLT_Ele32_WPTight_Gsf_L1DoubleEG nt).
Definition HLT_Ele32_WPTight_Gsf (nt : Nano) := optional_branch (b_HLT_Ele32_WPTight_Gsf nt).

(** Modelled from the spec: RAPIDO's [HEPCLI] is not among the sources;
    the options these sources read, [file_name] standing for
    [input_tchain->GetCurrentFile()->GetName()]. *)
Record HEPCLI : Type := mkCLI {
  debug : bool;
  is_data : bool;
  file_name : string
}.

(** [TString::Contains] *)
Definition Contains (s sub : string) : bool :=
  match String.index 0 sub s with
  | Some _ => true
  | None => false
  end.

(** Everything a cut can read or write. *)
Record World : Type := mkWorld {
  nt : Nano;
  cli : HEPCLI;
  globals : Variables.t;
  arbol : Arbol.t
}.

Definition with_arbol (a : Arbol.t) (w : World) : World :=
  {| nt := nt w; cli := cli w; globals := globals w; arbol := a |}.
Definition with_globals (g : Variables.t) (w : World) : World :=
  {| nt := nt w; cli := cli w; globals := g; arbol := arbol w |}.
Definition with_nt (n : Nano) (w : World) : World :=
  {| nt := n; cli := cli w; globals := globals w; arbol := arbol w |}.

(** ** Cuts and the cutflow *)

(** Modelled from the spec: RAPIDO's [Cut] (cutflow.h) is not among the
    sources.  A Decision Node has a unique name, a predicate that may read
    and write both stores, and a weight contribution (default 1.0). *)
Record Cut : Type := mkCut {
  name : string;
  evaluate : World -> Exn (bool * World);
  weight : World -> Exn float
}.

(** Modelled from the spec: RAPIDO's [LambdaCut] is not among the sources; a
    cut from a predicate that only reads, with the default weight. *)
Definition LambdaCut (n : string) (f : World -> Exn bool) : Cut :=
  {| name := n;
     evaluate w := b ← f w; Ok (b, w);
     weight _ := Ok 1%float |}.

(** Modelled from the spec: RAPIDO's [Cutflow] (cutflow.h) is not among the
    sources.  The Decision Graph owns its nodes as a tree: every node has at
    most a successor taken on fail ([left]) and one taken on pass ([right]),
    [Null] is the absent successor.  The name index is the tree itself,
    searched by name; the pass, fail and weighted-pass counters are kept per
    name. *)
Module Cutflow.

(** Modelled from the spec: the branch of an insertion, [Right] for the
    successor on pass and [Left] for the successor on fail. *)
Inductive Direction : Type := Left | Right.

(** Modelled from the spec: a node with its two successor references;
    [Null] is the null pointer. *)
Inductive CutTree : Type :=
  | Null
  | Node (cut : Cut) (left right : CutTree).

(** Modelled from the spec: the pass, fail and weighted-pass counters of a
    node. *)
Record Counter : Type := mkCounter {
  n_pass : nat;
  n_fail : nat;
  n_pass_weighted : float
}.

(** Modelled from the spec: the Decision Graph, its root and the counters
    of its nodes by name. *)
Record t : Type := mk {
  root : CutTree;
  counters : gmap string Counter
}.

Definition empty : t := {| root := Null; counters := ∅ |}.

(** The names registered in a tree, the node before its fail subtree
    before its pass subtree. *)
Fixpoint names (tr : CutTree) : list string :=
  match tr with
  | Null => []
  | Node c l r => name c :: names l ++ names r
  end.

(** The node registered under a name, with all it owns. *)
Fixpoint find (n : string) (tr : CutTree) : option CutTree :=
  match tr with
  | Null => None
  | Node c l r =>
      if String.eqb (name c) n then Some tr
      else match find n l with
           | Some s => Some s
           | None => find n r
           end
  end.

Definition child (d : Direction) (tr : CutTree) : CutTree :=
  match tr with
  | Null => Null
  | Node _ l r => match d with Left => l | Right => r end
  end.

(** Hang [new_cut] under the node named [target]. *)
Fixpoint graft (target : string) (new_cut : Cut) (d : Direction) (tr : CutTree) : CutTree :=
  match tr with
  | Null => Null
  | Node c l r =>
      if String.eqb (name c) target then
        match d with
        | Left => Node c (Node new_cut Null Null) r
        | Right => Node c l (Node new_cut Null Null)
        end
      else Node c (graft target new_cut d l) (graft target new_cut d r)
  end.

(** Modelled from the spec: [setRoot] designates the entry point and fails
    if a root already exists. *)
Definition setRoot (new_root : Cut) (cf : t) : Exn t :=
  match root cf with
  | Null => Ok {| root := Node new_root Null Null; counters := counters cf |}
  | Node _ _ _ => Throw RootExists
  end.

(** Modelled from the spec: [insert] locates the node named [target]
    (NotFound if absent), refuses an occupied pass or fail slot
    (SlotOccupied) and a name already registered (DuplicateName), and
    otherwise attaches the new node. *)
Definition insert (target : string) (new_cut : Cut) (d : Direction) (cf : t) : Exn t :=
  match find target (root cf) with
  | None => Throw NotFound
  | Some anchor =>
      match child d anchor with
      | Node _ _ _ => Throw SlotOccupied
      | Null =>
          if bool_decide (name new_cut ∈ names (root cf)) then Throw DuplicateName
          else Ok {| root := graft target new_cut d (root cf); counters := counters cf |}
      end
  end.

Definition zero : Counter := {| n_pass := 0; n_fail := 0; n_pass_weighted := 0 |}.

Definition counter (n : string) (cs : gmap string Counter) : Counter :=
  default zero (cs !! n).

Definition count_pass (n : string) (wgt : float) (cs : gmap string Counter) :=
  <[n := {| n_pass := S (n_pass (counter n cs));
            n_fail := n_fail (counter n cs);
            n_pass_weighted := (n_pass_weighted (counter n cs) + wgt)%float |}]> cs.

Definition count_fail (n : string) (cs : gmap string Counter) :=
  <[n := {| n_pass := n_pass (counter n cs);
            n_fail := S (n_fail (counter n cs));
            n_pass_weighted := n_pass_weighted (counter n cs) |}]> cs.

(** What one traversal yields: the verdict, the cumulative weight, the
    terminal node, the counters and the stores as the cuts left them. *)
Record Outcome : Type := mkOutcome {
  accepted : bool;
  final_weight : float;
  terminal : string;
  counts : gmap string Counter;
  world : World
}.

(** Modelled from the spec: the traversal loop of [run].  Evaluate the
    current node; on true count a pass, multiply the weight by the node's
    contribution, add it to the weighted-pass counter and go to the pass
    successor, or ACCEPT if there is none; on false count a fail and go to
    the fail successor, or REJECT if there is none.  A cut that throws
    aborts the run. *)
Fixpoint walk (tr : CutTree) (w : World) (wgt : float) (cs : gmap string Counter)
  : Exn Outcome :=
  match tr with
  | Null => Throw NotFound
  | Node c l r =>
      '(passed, w1) ← evaluate c w;
      if passed : bool then
        k ← weight c w1;
        let wgt' := (wgt * k)%float in
        let cs' := count_pass (name c) wgt' cs in
        match r with
        | Node _ _ _ => walk r w1 wgt' cs'
        | Null => Ok {| accepted := true; final_weight := wgt'; terminal := name c;
                        counts := cs'; world := w1 |}
        end
      else
        let cs' := count_fail (name c) cs in
        match l with
        | Node _ _ _ => walk l w1 wgt cs'
        | Null => Ok {| accepted := false; final_weight := wgt; terminal := name c;
                        counts := cs'; world := w1 |}
        end
  end.

(** Modelled from the spec: [run(start)] begins the walk at the node named
    [start] with weight 1.0; an unknown start name is fatal. *)
Definition run (start : string) (cf : t) (w : World) : Exn Outcome :=
  match find start (root cf) with
  | None => Throw NotFound
  | Some tr => walk tr w 1%float (counters cf)
  end.

(** The cutflow after a traversal: same tree, updated counters. *)
Definition after (cf : t) (o : Outcome) : t :=
  {| root := root cf; counters := counts o |}.

(** *** The visited path *)

(** One visit: the node, what its predicate returned and, when it passed,
    its weight contribution. *)
Inductive Visit : Type :=
  | Passed (n : string) (k : float)
  | Failed (n : string).

Definition visited (v : Visit) : string :=
  match v with Passed n _ => n | Failed n => n end.

(** The nodes a traversal from [tr] visits, in order, and the stores as
    the last of them leaves them. *)
Fixpoint path (tr : CutTree) (w : World) : Exn (list Visit * World) :=
  match tr with
  | Null => Ok ([], w)
  | Node c l r =>
      '(passed, w1) ← evaluate c w;
      if passed : bool then
        k ← weight c w1;
        '(vs, w2) ← path r w1;
        Ok (Passed (name c) k :: vs, w2)
      else
        '(vs, w2) ← path l w1;
        Ok (Failed (name c) :: vs, w2)
  end.

Definition run_path (start : string) (cf : t) (w : World) : Exn (list Visit * World) :=
  match find start (root cf) with
  | None => Throw NotFound
  | Some tr => path tr w
  end.

(** The weight contributions of the visits that passed, in path order. *)
Definition contributions (vs : list Visit) : list float :=
  omap (fun v => match v with Passed _ k => Some k | Failed _ => None end) vs.

(** The counters after the visits [vs], entered with weight [wgt]. *)
Fixpoint tally (vs : list Visit) (wgt : float) (cs : gmap string Counter)
  : gmap string Counter :=
  match vs with
  | [] => cs
  | Passed n k :: vs' => tally vs' (wgt * k)%float (count_pass n (wgt * k)%float cs)
  | Failed n :: vs' => tally vs' wgt (count_fail n cs)
  end.

(** The outcome of a traversal that visited [vs] and left the stores [w]:
    ACCEPT when the last visit passed, the weight multiplied by the
    contributions in path order. *)
Definition outcome_of (vs : list Visit) (w : World) (wgt : float)
    (cs : gmap string Counter) : Outcome :=
  {| accepted := match last vs with Some (Passed _ _) => true | _ => false end;
     final_weight := fold_left PrimFloat.mul (contributions vs) wgt;
     terminal := match last vs with Some v => visited v | None => "" end;
     counts := tally vs wgt cs;
     world := w |}.

(** How often a path visits the node [n], and with which result. *)
Definition is_visit (n : string) (v : Visit) : bool := String.eqb (visited v) n.
Definition is_pass (n : string) (v : Visit) : bool :=
  match v with Passed m _ => String.eqb m n | Failed _ => false end.
Definition is_fail (n : string) (v : Visit) : bool :=
  match v with Passed _ _ => false | Failed m => String.eqb m n end.

Definition n_visits (n : string) (vs : list Visit) : nat :=
  length (List.filter (is_visit n) vs).
Definition n_passes (n : string) (vs : list Visit) : nat :=
  length (List.filter (is_pass n) vs).
Definition n_fails (n : string) (vs : list Visit) : nat :=
  length (List.filter (is_fail n) vs).

(** How many traversals reached the node [n] so far. *)
Definition entries (n : string) (cs : gmap string Counter) : nat :=
  (n_pass (counter n cs) + n_fail (counter n cs))%nat.

(** [s] is a node of [tr], with all it owns. *)
Inductive subtree (s : CutTree) : CutTree -> Prop :=
  | subtree_here : subtree s s
  | subtree_left c l r : subtree s l -> subtree s (Node c l r)
  | subtree_right c l r : subtree s r -> subtree s (Node c l r).

(** Two trees of the same shape whose cuts behave alike. *)
Inductive same_cuts : CutTree -> CutTree -> Prop :=
  | same_Null : same_cuts Null Null
  | same_Node c1 c2 l1 l2 r1 r2 :
      name c1 = name c2 ->
      (∀ w, evaluate c1 w = evaluate c2 w) ->
      (∀ w, weight c1 w = weight c2 w) ->
      same_cuts l1 l2 -> same_cuts r1 r2 ->
      same_cuts (Node c1 l1 r1) (Node c2 l2 r2).

(** What a caller sees of an outcome, the counters left out. *)
Definition view (o : Outcome) : bool * float * string * World :=
  (accepted o, final_weight o, terminal o, world o).

(** The records [ws] (the stores at the start of each traversal) run one
    after the other from [start], the counters carried along. *)
Fixpoint process (start : string) (cf : t) (ws : list World) : Exn t :=
  match ws with
  | [] => Ok cf
  | w :: ws' => o ← run start cf w; process start (after cf o) ws'
  end.

End Cutflow.

(** Modelled from the spec: [Core::DressedCut] (core.h) is not among the
    sources; a cut class that overrides [evaluate] and keeps the default
    weight 1.0 unless it overrides [weight] too. *)
Definition DressedCut (n : string) (ev : World -> Exn (bool * World)) : Cut :=
  {| name := n; evaluate := ev; weight _ := Ok 1%float |}.

(** The short-circuit [passed || rhs]: [rhs] is not called when [passed]. *)
Definition or_else (passed : bool) (rhs : Exn bool) : Exn bool :=
  if passed then Ok true else rhs.

(** [std::distance(v.begin(), std::max_element(v.begin(), v.end()))]: the
    index of the first largest element under [<], and of [v.end()] (which is
    [v.begin()], distance 0) for an empty vector. *)
Fixpoint max_element_from (v : Doubles) (i largest_i : Z) (largest : float) : Z :=
  match v with
  | [] => largest_i
  | x :: v' =>
      if (largest <? x)%float then max_element_from v' (i + 1) i x
      else max_element_from v' (i + 1) largest_i largest
  end.

Definition distance_max_element (v : Doubles) : Z :=
  match v with
  | [] => 0
  | x :: v' => max_element_from v' 1 0 x
  end.

(** ** analysis/studies/vbswh.h *)

Module VBSWH.

(** [PassesEventFilters::evaluate] *)
Definition PassesEventFilters_evaluate (w : World) : Exn (bool * World) :=
  let passed :=
    Flag_goodVertices (nt w)
    && Flag_HBHENoiseFilter (nt w)
    && Flag_HBHENoiseIsoFilter (nt w)
    && Flag_EcalDeadCellTriggerPrimitiveFilter (nt w)
    && Flag_BadPFMuonFilter (nt w) in
  let passed :=
    if isData (nt w) then passed && Flag_globalSuperTightHalo2016Filter (nt w)
    else passed in
  Ok (passed, w).

Definition PassesEventFilters (n : string) : Cut :=
  DressedCut n PassesEventFilters_evaluate.

(** [Passes1LepTriggers::passesMuonTriggers] *)
Definition passesMuonTriggers (nt : Nano) : Exn bool :=
  let passed := false in
  if year nt =? 2016 then
    passed ← try_catch_runtime_error (or_else passed (HLT_IsoMu24 nt)) passed;
    passed ← try_catch_runtime_error (or_else passed (HLT_IsoTkMu24 nt)) passed;
    Ok passed
  else if year nt =? 2017 then
    passed ← try_catch_runtime_error (or_else passed (HLT_IsoMu27 nt)) passed;
    Ok passed
  else if year nt =? 2018 then
    passed ← try_catch_runtime_error (or_else passed (HLT_IsoMu24 nt)) passed;
    Ok passed
  else Ok passed.

(** [Passes1LepTriggers::passesElecTriggers] *)
Definition passesElecTriggers (nt : Nano) : Exn bool :=
  let passed := false in
  if year nt =? 2016 then
    passed ← try_catch_runtime_error (or_else passed (HLT_Ele27_WPTight_Gsf nt)) passed;
    passed ← or_else passed (passesMuonTriggers nt);
    Ok passed
  else if year nt =? 2017 then
    passed ← try_catch_runtime_error
               (or_else passed (HLT_Ele32_WPTight_Gsf_L1DoubleEG nt)) passed;
    Ok passed
  else if year nt =? 2018 then
    passed ← try_catch_runtime_error (or_else passed (HLT_Ele32_WPTight_Gsf nt)) passed;
    Ok passed
  else Ok passed.

(** [Passes1LepTriggers::passesLepTriggers] *)
Definition passesLepTriggers (abs_lep_pdg_id : Z) (w : World) : Exn bool :=
  if negb (isData (nt w)) then
    if abs_lep_pdg_id =? 11 then passesElecTriggers (nt w)
    else if abs_lep_pdg_id =? 13 then passesMuonTriggers (nt w)
    else Ok true
  else
    let file_name := file_name (cli w) in
    if Contains file_name "SingleMuon" then passesMuonTriggers (nt w)
    else if Contains file_name "SingleElectron" || Contains file_name "EGamma" then
      passesElecTriggers (nt w)
    else
      mu ← passesMuonTriggers (nt w);
      or_else mu (passesElecTriggers (nt w)).

(** [Passes1LepTriggers::evaluate] *)
Definition Passes1LepTriggers_evaluate (w : World) : Exn (bool * World) :=
  lep_pdgID ← Arbol.getLeaf Z "lep_pdgID" (arbol w);
  passed ← passesLepTriggers (to_unsigned (abs_int lep_pdgID)) w;
  Ok (passed, w).

Definition Passes1LepTriggers (n : string) : Cut :=
  DressedCut n Passes1LepTriggers_evaluate.

(** [Has1Lep::weight] *)
Definition Has1Lep_weight (w : World) : Exn float :=
  Arbol.getLeaf float "lep_sf" (arbol w).

(** The loop of [SaveBJetVeto::evaluate] over the b-tag scores of the good
    jets: the first score above the working point clears the flag and ends
    the loop. *)
Fixpoint bveto_loop (WP_DeepFlav_medium : float) (btags : Doubles) (passes_bveto : bool)
  : bool :=
  match btags with
  | [] => passes_bveto
  | btag :: rest =>
      if (WP_DeepFlav_medium <? btag)%float then false
      else bveto_loop WP_DeepFlav_medium rest passes_bveto
  end.

(** [SaveBJetVeto::evaluate]; [WP_DeepFlav_medium] is [gconf]'s working
    point, set outside these sources. *)
Definition SaveBJetVeto_evaluate (WP_DeepFlav_medium : float) (w : World)
  : Exn (bool * World) :=
  btags ← Variables.getVal Doubles "good_jet_btags" (globals w);
  let passes_bveto := bveto_loop WP_DeepFlav_medium btags true in
  a ← Arbol.setLeaf "passes_bveto" passes_bveto (arbol w);
  Ok (true, with_arbol a w).

Section SelectHbbFatJet.

(** ROOT's vector mathematics, outside these sources. *)
Variables pt eta phi : LorentzVector -> float.
Variable DeltaR : LorentzVector -> LorentzVector -> float.

(** The loop over the generator particles of [SelectHbbFatJet::evaluate]:
    [n_gen] iterations are left, [gen_i] is the loop index. *)
Fixpoint count_genbquarks (nt : Nano) (best_hbbjet_p4 : LorentzVector)
    (n_gen : nat) (gen_i : Z) (n_hbbjet_genbquarks : Z) : Exn Z :=
  match n_gen with
  | O => Ok n_hbbjet_genbquarks
  | S n_gen' =>
      let continue :=
        count_genbquarks nt best_hbbjet_p4 n_gen' (gen_i + 1) n_hbbjet_genbquarks in
      pdgId ← at_ (GenPart_pdgId nt) gen_i;
      if negb (abs_int pdgId =? 5) then continue else
      status ← at_ (GenPart_status nt) gen_i;
      if negb (status =? 23) then continue else
      mother ← at_ (GenPart_genPartIdxMother nt) gen_i;
      mother_pdgId ← at_ (GenPart_pdgId nt) mother;
      if abs_int mother_pdgId =? 5 then continue else
      genpart_p4 ← at_ (GenPart_p4 nt) gen_i;
      if (DeltaR best_hbbjet_p4 genpart_p4 <? 0.8)%float then
        count_genbquarks nt best_hbbjet_p4 n_gen' (gen_i + 1)
          (wrap_int (n_hbbjet_genbquarks + 1))
      else continue
  end.

(** [SelectHbbFatJet::evaluate] *)
Definition SelectHbbFatJet_evaluate (use_md : bool) (w : World) : Exn (bool * World) :=
  '(best_hbbjet_i, best_hbbjet_score) ←
    (if use_md then
       xbbtags ← Variables.getVal Doubles "good_fatjet_xbbtags" (globals w);
       let best_hbbjet_i := wrap_int (distance_max_element xbbtags) in
       best_hbbjet_score ← at_ xbbtags best_hbbjet_i;
       Ok (best_hbbjet_i, best_hbbjet_score)
     else
       hbbtags ← Variables.getVal Doubles "good_fatjet_hbbtags" (globals w);
       let best_hbbjet_i := wrap_int (distance_max_element hbbtags) in
       best_hbbjet_score ← at_ hbbtags best_hbbjet_i;
       Ok (best_hbbjet_i, best_hbbjet_score));
  if best_hbbjet_i <? 0 then Ok (false, w) else
  good_fatjet_p4s ← Variables.getVal LorentzVectors "good_fatjet_p4s" (globals w);
  best_hbbjet_p4 ← at_ good_fatjet_p4s best_hbbjet_i;
  n_hbbjet_genbquarks ←
    (if negb (isData (nt w)) then
       count_genbquarks (nt w) best_hbbjet_p4 (Z.to_nat (nGenPart (nt w))) 0 0
     else Ok 0);
  g ← Variables.setVal "hbbjet_p4" best_hbbjet_p4 (globals w);
  a ← Arbol.setLeaf "n_hbbjet_genbquarks" n_hbbjet_genbquarks (arbol w);
  a ← Arbol.setLeaf "hbbjet_score" best_hbbjet_score a;
  a ← Arbol.setLeaf "hbbjet_pt" (pt best_hbbjet_p4) a;
  a ← Arbol.setLeaf "hbbjet_eta" (eta best_hbbjet_p4) a;
  a ← Arbol.setLeaf "hbbjet_phi" (phi best_hbbjet_p4) a;
  good_fatjet_masses ← Variables.getVal Doubles "good_fatjet_masses" g;
  mass ← at_ good_fatjet_masses best_hbbjet_i;
  a ← Arbol.setLeaf "hbbjet_mass" mass a;
  good_fatjet_msoftdrops ← Variables.getVal Doubles "good_fatjet_msoftdrops" g;
  msoftdrop ← at_ good_fatjet_msoftdrops best_hbbjet_i;
  a ← Arbol.setLeaf "hbbjet_msoftdrop" msoftdrop a;
  LT ← Arbol.getLeaf float "LT" a;
  a ← Arbol.setLeaf "ST" (LT + pt best_hbbjet_p4)%float a;
  Ok (true, with_arbol a (with_globals g w)).

Definition SelectHbbFatJet (n : string) (md : bool) : Cut :=
  DressedCut n (SelectHbbFatJet_evaluate md).

End SelectHbbFatJet.

(** The variables the [Analysis] constructor declares, after those of
    [Core::Analysis]. *)
Definition Analysis_globals (g : Variables.t) : Variables.t :=
  Variables.newVar LorentzVector "hbbjet_p4" (Variables.newVar LorentzVector "lep_p4" g).

(** [Analysis::initBranches]; [core] is the arbol as
    [Core::Analysis::initBranches] (core.h, outside these sources) leaves
    it. *)
Definition initBranches (core : Arbol.t) : Arbol.t :=
  let a := core in
  (* Lepton branches *)
  let a := Arbol.newBranch "lep_sf" (-999)%float a in
  let a := Arbol.newBranch "lep_sf_up" (-999)%float a in
  let a := Arbol.newBranch "lep_sf_dn" (-999)%float a in
  let a := Arbol.newBranch "lep_pdgID" (-999)%Z a in
  let a := Arbol.newBranch "lep_pt" (-999)%float a in
  let a := Arbol.newBranch "lep_eta" (-999)%float a in
  let a := Arbol.newBranch "lep_phi" (-999)%float a in
  let a := Arbol.newBranch "LT" (-999)%float a in
  (* Hbb jet branches *)
  let a := Arbol.newBranch "n_hbbjet_genbquarks" (-999)%Z a in
  let a := Arbol.newBranch "hbbjet_score" (-999)%float a in
  let a := Arbol.newBranch "hbbjet_pt" (-999)%float a in
  let a := Arbol.newBranch "hbbjet_eta" (-999)%float a in
  let a := Arbol.newBranch "hbbjet_phi" (-999)%float a in
  let a := Arbol.newBranch "hbbjet_mass" (-999)%float a in
  let a := Arbol.newBranch "hbbjet_msoftdrop" (-999)%float a in
  (* Other branches *)
  let a := Arbol.newBranch "ST" (-999)%float a in
  let a := Arbol.newBranch "passes_bveto" false a in
  a.

(** The branches [initBranches] declares, with their defaults. *)
Definition declared : list (string * Arbol.Leaf) :=
  [("lep_sf", Arbol.LDouble (-999)); ("lep_sf_up", Arbol.LDouble (-999));
   ("lep_sf_dn", Arbol.LDouble (-999)); ("lep_pdgID", Arbol.LInt (-999));
   ("lep_pt", Arbol.LDouble (-999)); ("lep_eta", Arbol.LDouble (-999));
   ("lep_phi", Arbol.LDouble (-999)); ("LT", Arbol.LDouble (-999));
   ("n_hbbjet_genbquarks", Arbol.LInt (-999)); ("hbbjet_score", Arbol.LDouble (-999));
   ("hbbjet_pt", Arbol.LDouble (-999)); ("hbbjet_eta", Arbol.LDouble (-999));
   ("hbbjet_phi", Arbol.LDouble (-999)); ("hbbjet_mass", Arbol.LDouble (-999));
   ("hbbjet_msoftdrop", Arbol.LDouble (-999)); ("ST", Arbol.LDouble (-999));
   ("passes_bveto", Arbol.LBool false)].

End VBSWH.

(** ** analysis/include/vbsvvhjets/collections.h *)

Module VBSVVHJets.

Inductive Channel : Type := AllMerged | SemiMerged.

(** The behaviour of a cut class defined outside these sources. *)
Record Body : Type := mkBody {
  body_evaluate : World -> Exn (bool * World);
  body_weight : World -> Exn float
}.

Definition external (n : string) (b : Body) : Cut :=
  {| name := n; evaluate := body_evaluate b; weight := body_weight b |}.

(** The variables the [Analysis] constructor declares, after those of
    [Core::Analysis]. *)
Definition Analysis_globals (g : Variables.t) : Variables.t :=
  let g := Variables.newVar LorentzVector "ld_vqqfatjet_p4" g in
  let g := Variables.newVar LorentzVector "tr_vqqfatjet_p4" g in
  let g := Variables.newVar LorentzVector "ld_vqqjet_p4" g in
  let g := Variables.newVar LorentzVector "tr_vqqjet_p4" g in
  let g := Variables.newVar LorentzVector "hbbfatjet_p4" g in
  g.

(** [Analysis::initBranches]; [core] is the arbol as
    [Core::Analysis::initBranches] leaves it. *)
Definition initBranches (core : Arbol.t) : Arbol.t :=
  let a := core in
  let a := Arbol.newBranch "ld_vqqfatjet_score" (-999)%float a in
  let a := Arbol.newBranch "ld_vqqfatjet_pt" (-999)%float a in
  let a := Arbol.newBranch "ld_vqqfatjet_eta" (-999)%float a in
  let a := Arbol.newBranch "ld_vqqfatjet_phi" (-999)%float a in
  let a := Arbol.newBranch "ld_vqqfatjet_mass" (-999)%float a in
  let a := Arbol.newBranch "ld_vqqfatjet_msoftdrop" (-999)%float a in
  let a := Arbol.newBranch "tr_vqqfatjet_score" (-999)%float a in
  let a := Arbol.newBranch "tr_vqqfatjet_pt" (-999)%float a in
  let a := Arbol.newBranch "tr_vqqfatjet_eta" (-999)%float a in
  let a := Arbol.newBranch "tr_vqqfatjet_phi" (-999)%float a in
  let a := Arbol.newBranch "tr_vqqfatjet_mass" (-999)%float a in
  let a := Arbol.newBranch "tr_vqqfatjet_msoftdrop" (-999)%float a in
  let a := Arbol.newBranch "ld_vqqjet_score" (-999)%float a in
  let a := Arbol.newBranch "ld_vqqjet_pt" (-999)%float a in
  let a := Arbol.newBranch "ld_vqqjet_eta" (-999)%float a in
  let a := Arbol.newBranch "ld_vqqjet_phi" (-999)%float a in
  let a := Arbol.newBranch "ld_vqqjet_mass" (-999)%float a in
  let a := Arbol.newBranch "ld_vqqjet_msoftdrop" (-999)%float a in
  let a := Arbol.newBranch "tr_vqqjet_score" (-999)%float a in
  let a := Arbol.newBranch "tr_vqqjet_pt" (-999)%float a in
  let a := Arbol.newBranch "tr_vqqjet_eta" (-999)%float a in
  let a := Arbol.newBranch "tr_vqqjet_phi" (-999)%float a in
  let a := Arbol.newBranch "tr_vqqjet_mass" (-999)%float a in
  let a := Arbol.newBranch "tr_vqqjet_msoftdrop" (-999)%float a in
  let a := Arbol.newBranch "hbbfatjet_score" (-999)%float a in
  let a := Arbol.newBranch "hbbfatjet_pt" (-999)%float a in
  let a := Arbol.newBranch "hbbfatjet_eta" (-999)%float a in
  let a := Arbol.newBranch "hbbfatjet_phi" (-999)%float a in
  let a := Arbol.newBranch "hbbfatjet_mass" (-999)%float a in
  let a := Arbol.newBranch "hbbfatjet_msoftdrop" (-999)%float a in
  let a := Arbol.newBranch "ST" (-999)%float a in
  let a := Arbol.newBranch "passes_bveto" false a in
  a.

(** The predicates of the [LambdaCut]s of [Analysis::initCutflow]. *)

Definition NoLeptons (w : World) : Exn bool :=
  veto_lep_p4s ← Variables.getVal LorentzVectors "veto_lep_p4s" (globals w);
  Ok (Z.of_nat (length veto_lep_p4s) =? 0).

Definition Exactly3FatJets (w : World) : Exn bool :=
  n_fatjets ← Arbol.getLeaf Z "n_fatjets" (arbol w);
  Ok (n_fatjets =? 3).

Definition Exactly2FatJets (w : World) : Exn bool :=
  n_fatjets ← Arbol.getLeaf Z "n_fatjets" (arbol w);
  Ok (n_fatjets =? 2).

Definition ApplyAk4GlobalBVeto (w : World) : Exn bool :=
  Arbol.getLeaf bool "passes_bveto" (arbol w).

Definition STGt (threshold : float) (w : World) : Exn bool :=
  ST ← Arbol.getLeaf float "ST" (arbol w);
  Ok (threshold <? ST)%float.

Definition MjjGt500 (w : World) : Exn bool :=
  M_jj ← Arbol.getLeaf float "M_jj" (arbol w);
  Ok (500 <? M_jj)%float.

Definition detajjGt3 (w : World) : Exn bool :=
  deta_jj ← Arbol.getLeaf float "deta_jj" (arbol w);
  Ok (3 <? PrimFloat.abs deta_jj)%float.

(** [a && b] evaluates [b] only when [a] holds. *)
Definition and_then (a : bool) (b : Exn bool) : Exn bool :=
  if a then b else Ok false.

Definition MjjGt600_detajjGt4 (w : World) : Exn bool :=
  M_jj ← Arbol.getLeaf float "M_jj" (arbol w);
  and_then (600 <? M_jj)%float
    (deta_jj ← Arbol.getLeaf float "deta_jj" (arbol w);
     Ok (4 <? PrimFloat.abs deta_jj)%float).

Definition XbbGt0p9 (w : World) : Exn bool :=
  hbbfatjet_score ← Arbol.getLeaf float "hbbfatjet_score" (arbol w);
  Ok (0.9 <? hbbfatjet_score)%float.

(** The predicate of [AllMerged_XWqqGt0p7]: both operands of the [&&] read
    [ld_vqqfatjet_score]. *)
Definition XWqqGt0p7 (w : World) : Exn bool :=
  ld_vqqfatjet_score ← Arbol.getLeaf float "ld_vqqfatjet_score" (arbol w);
  and_then (0.7 <? ld_vqqfatjet_score)%float
    (ld_vqqfatjet_score ← Arbol.getLeaf float "ld_vqqfatjet_score" (arbol w);
     Ok (0.7 <? ld_vqqfatjet_score)%float).

Definition Geq4Jets (w : World) : Exn bool :=
  n_jets ← Arbol.getLeaf Z "n_jets" (arbol w);
  Ok (4 <=? n_jets).

(** The cut classes of core/cuts.h and vbsvvhjets/cuts.h, outside these
    sources. *)
Record CutClasses : Type := mkCutClasses {
  Bookkeeping : Body;
  SaveSystWeights : Body;
  PassesTriggers : Body;
  SelectLeptonsPKU : Body;
  SelectFatJets : Body;
  SelectVBSJetsMaxE : Body;
  SelectVJets : Body;
  SelectVVHFatJets : Channel -> Body;
  SelectJetsNoFatJetOverlap : Channel -> Body;
  SaveVariables : Channel -> Body
}.

Section initCutflow.

Variable cuts : CutClasses.

(** [Analysis::initCutflow] *)
Definition initCutflow (cutflow : Cutflow.t) : Exn Cutflow.t :=
  (* Bookkeeping *)
  let bookkeeping := external "Bookkeeping" (Bookkeeping cuts) in
  cutflow ← Cutflow.setRoot bookkeeping cutflow;
  let save_lhe := external "SaveSystWeights" (SaveSystWeights cuts) in
  cutflow ← Cutflow.insert (name bookkeeping) save_lhe Cutflow.Right cutflow;
  let event_filters := VBSWH.PassesEventFilters "PassesEventFilters" in
  cutflow ← Cutflow.insert (name save_lhe) event_filters Cutflow.Right cutflow;
  let ht_triggers := external "PassesTriggers" (PassesTriggers cuts) in
  cutflow ← Cutflow.insert (name event_filters) ht_triggers Cutflow.Right cutflow;
  let select_leps := external "SelectLeptons" (SelectLeptonsPKU cuts) in
  cutflow ← Cutflow.insert (name ht_triggers) select_leps Cutflow.Right cutflow;
  let no_leps := LambdaCut "NoLeptons" NoLeptons in
  cutflow ← Cutflow.insert (name select_leps) no_leps Cutflow.Right cutflow;
  let select_fatjets := external "SelectFatJets" (SelectFatJets cuts) in
  cutflow ← Cutflow.insert (name no_leps) select_fatjets Cutflow.Right cutflow;
  (* 3 fatjet channel *)
  let exactly3_fatjets := LambdaCut "Exactly3FatJets" Exactly3FatJets in
  cutflow ← Cutflow.insert (name select_fatjets) exactly3_fatjets Cutflow.Right cutflow;
  let allmerged_select_vvh :=
    external "AllMerged_SelectVVHFatJets" (SelectVVHFatJets cuts AllMerged) in
  cutflow ← Cutflow.insert (name exactly3_fatjets) allmerged_select_vvh Cutflow.Right cutflow;
  let allmerged_select_jets :=
    external "AllMerged_SelectJets" (SelectJetsNoFatJetOverlap cuts AllMerged) in
  cutflow ← Cutflow.insert (name allmerged_select_vvh) allmerged_select_jets
              Cutflow.Right cutflow;
  let allmerged_select_vbsjets_maxE :=
    external "AllMerged_SelectVBSJetsMaxE" (SelectVBSJetsMaxE cuts) in
  cutflow ← Cutflow.insert (name allmerged_select_jets) allmerged_select_vbsjets_maxE
              Cutflow.Right cutflow;
  let allmerged_save_vars := external "AllMerged_SaveVariables" (SaveVariables cuts AllMerged) in
  cutflow ← Cutflow.insert (name allmerged_select_vbsjets_maxE) allmerged_save_vars
              Cutflow.Right cutflow;
  let allmerged_apply_ak4bveto :=
    LambdaCut "AllMerged_ApplyAk4GlobalBVeto" ApplyAk4GlobalBVeto in
  cutflow ← Cutflow.insert (name allmerged_save_vars) allmerged_apply_ak4bveto
              Cutflow.Right cutflow;
  let allmerged_STgt1200 := LambdaCut "AllMerged_STGt1200" (STGt 1200) in
  cutflow ← Cutflow.insert (name allmerged_apply_ak4bveto) allmerged_STgt1200
              Cutflow.Right cutflow;
  let allmerged_Mjjgt500 := LambdaCut "AllMerged_MjjGt500" MjjGt500 in
  cutflow ← Cutflow.insert (name allmerged_STgt1200) allmerged_Mjjgt500
              Cutflow.Right cutflow;
  let allmerged_detajjgt3 := LambdaCut "AllMerged_detajjGt3" detajjGt3 in
  cutflow ← Cutflow.insert (name allmerged_Mjjgt500) allmerged_detajjgt3
              Cutflow.Right cutflow;
  let prelim_cut0 := LambdaCut "AllMerged_MjjGt600_detajjGt4" MjjGt600_detajjGt4 in
  cutflow ← Cutflow.insert (name allmerged_detajjgt3) prelim_cut0 Cutflow.Right cutflow;
  let prelim_cut1 := LambdaCut "AllMerged_XbbGt0p9" XbbGt0p9 in
  cutflow ← Cutflow.insert (name prelim_cut0) prelim_cut1 Cutflow.Right cutflow;
  let prelim_cut2 := LambdaCut "AllMerged_XWqqGt0p7" XWqqGt0p7 in
  cutflow ← Cutflow.insert (name prelim_cut1) prelim_cut2 Cutflow.Right cutflow;
  let prelim_cut3 := LambdaCut "AllMerged_STGt1500" (STGt 1500) in
  cutflow ← Cutflow.insert (name prelim_cut2) prelim_cut3 Cutflow.Right cutflow;
  (* 2 fatjet channel *)
  let exactly2_fatjets := LambdaCut "Exactly2FatJets" Exactly2FatJets in
  cutflow ← Cutflow.insert (name exactly3_fatjets) exactly2_fatjets Cutflow.Left cutflow;
  let semimerged_select_vvh :=
    external "SemiMerged_SelectVVHFatJets" (SelectVVHFatJets cuts SemiMerged) in
  cutflow ← Cutflow.insert (name exactly2_fatjets) semimerged_select_vvh
              Cutflow.Right cutflow;
  let semimerged_select_jets :=
    external "SemiMerged_SelectJets" (SelectJetsNoFatJetOverlap cuts SemiMerged) in
  cutflow ← Cutflow.insert (name semimerged_select_vvh) semimerged_select_jets
              Cutflow.Right cutflow;
  let semimerged_geq4_jets := LambdaCut "SemiMerged_Geq4Jets" Geq4Jets in
  cutflow ← Cutflow.insert (name semimerged_select_jets) semimerged_geq4_jets
              Cutflow.Right cutflow;
  let semimerged_select_vbsjets_maxE :=
    external "SemiMerged_SelectVBSJetsMaxE" (SelectVBSJetsMaxE cuts) in
  cutflow ← Cutflow.insert (name semimerged_geq4_jets) semimerged_select_vbsjets_maxE
              Cutflow.Right cutflow;
  let semimerged_select_vjets := external "SemiMerged_SelectVJets" (SelectVJets cuts) in
  cutflow ← Cutflow.insert (name semimerged_select_vbsjets_maxE) semimerged_select_vjets
              Cutflow.Right cutflow;
  let semimerged_save_vars :=
    external "SemiMerged_SaveVariables" (SaveVariables cuts SemiMerged) in
  cutflow ← Cutflow.insert (name semimerged_select_vjets) semimerged_save_vars
              Cutflow.Right cutflow;
  let semimerged_Mjjgt500 := LambdaCut "SemiMerged_MjjGt500" MjjGt500 in
  cutflow ← Cutflow.insert (name semimerged_save_vars) semimerged_Mjjgt500
              Cutflow.Right cutflow;
  Ok cutflow.

End initCutflow.

End VBSVVHJets.

(** ** analysis/studies/vbswh/main.cc *)

Module Main.

(** Modelled from the spec: RAPIDO's [Looper] (looper.h) is not among the
    sources; the counter of processed events and the flag [stop] raises. *)
Record Looper : Type := mkLooper {
  n_events_processed : Z;
  n_events_total : Z;
  stopped : bool
}.

(** Modelled from the spec: [Looper::stop] ends the driver loop. *)
Definition stop (l : Looper) : Looper :=
  {| n_events_processed := n_events_processed l;
     n_events_total := n_events_total l;
     stopped := true |}.

(** What the event callback captures by reference. *)
Record State : Type := mkState {
  looper : Looper;
  cutflow : Cutflow.t;
  world : World
}.

Section event.

(** [nt.GetEntry(entry)]: the event source, outside these sources. *)
Variable GetEntry : Z -> Nano -> Nano.

(** The stores as the callback hands them to [cutflow.run]: branches
    reset, globals reset, entry loaded. *)
Definition prepare (entry : Z) (w : World) : World :=
  let w := with_arbol (Arbol.resetBranches (arbol w)) w in
  let w := with_globals (Variables.resetVars (globals w)) w in
  with_nt (GetEntry entry (nt w)) w.

(** The event callback handed to [looper.run]; the progress bar has no
    part in the state. *)
Definition event (entry : Z) (s : State) : Exn State :=
  if debug (cli (world s)) && (n_events_processed (looper s) =? 10000) then
    Ok {| looper := stop (looper s); cutflow := cutflow s; world := world s |}
  else
    let w := prepare entry (world s) in
    o ← Cutflow.run "SelectVBSJetsMaxE" (cutflow s) w;
    let passed := Cutflow.accepted o in
    let w := Cutflow.world o in
    let w := if passed then with_arbol (Arbol.fill (arbol w)) w else w in
    Ok {| looper := looper s; cutflow := Cutflow.after (cutflow s) o; world := w |}.

(** Modelled from the spec: the looper counts a record once the callback
    returned. *)
Definition processed (s : State) : State :=
  {| looper := {| n_events_processed := n_events_processed (looper s) + 1;
                  n_events_total := n_events_total (looper s);
                  stopped := stopped (looper s) |};
     cutflow := cutflow s; world := world s |}.

(** Modelled from the spec: [Looper::run] is not among the sources.  The
    Driver hands the records to the callback one at a time, in order,
    and counts them; once [stop] was called no further record is handed
    over. *)
Fixpoint run (entries : list Z) (s : State) : Exn State :=
  match entries with
  | [] => Ok s
  | entry :: rest =>
      if stopped (looper s) then Ok s
      else s ← event entry s; run rest (processed s)
  end.

End event.

End Main.

(** ** analysis/studies/vbswh.h: the lepton cuts *)

Module Leptons.

(** Modelled from the spec: the lepton branches of NanoCORE's [Nano], which
    is not among the sources; per-record typed fields, one entry per
    electron or muon. *)
Record Branches : Type := mkBranches {
  Electron_pt : Doubles;
  Electron_cutBased : Integers;
  Electron_eta : Doubles;
  Electron_deltaEtaSC : Doubles;
  Electron_dz : Doubles;
  Electron_dxy : Doubles;
  Muon_tightId : list bool;
  Muon_pfRelIso04_all : Doubles;
  Muon_pt : Doubles;
  Muon_eta : Doubles
}.

(** The virtual identification functions of [Has1Lep]. *)
Record ID : Type := mkID {
  passesVetoElecID : Nano -> Z -> Exn bool;
  passesTightElecID : Nano -> Z -> Exn bool;
  passesVetoMuonID : Nano -> Z -> Exn bool;
  passesTightMuonID : Nano -> Z -> Exn bool
}.

Section Has1LepPKU.

(** The lepton branches of the event, and the sum of two of them in the
    branches' own precision, both outside these sources. *)
Variable leptons : Nano -> Branches.
Variable add_branches : float -> float -> float.

(** [Has1LepPKU::passesVetoElecID] *)
Definition PKU_passesVetoElecID (nt : Nano) (elec_i : Z) : Exn bool :=
  pt ← at_ (Electron_pt (leptons nt)) elec_i;
  if (pt <=? 10)%float then Ok false else
  cutBased ← at_ (Electron_cutBased (leptons nt)) elec_i;
  if cutBased <? 1 then Ok false else
  Ok true.

(** [Has1LepPKU::passesTightElecID] *)
Definition PKU_passesTightElecID (nt : Nano) (elec_i : Z) : Exn bool :=
  pt ← at_ (Electron_pt (leptons nt)) elec_i;
  if (pt <=? 35)%float then Ok false else
  cutBased ← at_ (Electron_cutBased (leptons nt)) elec_i;
  if cutBased <? 3 then Ok false else
  eta ← at_ (Electron_eta (leptons nt)) elec_i;
  deltaEtaSC ← at_ (Electron_deltaEtaSC (leptons nt)) elec_i;
  if (2.5 <=? add_branches eta deltaEtaSC)%float then Ok false else
  eta ← at_ (Electron_eta (leptons nt)) elec_i;
  deltaEtaSC ← at_ (Electron_deltaEtaSC (leptons nt)) elec_i;
  if (1.479 <=? add_branches eta deltaEtaSC)%float then
    dz ← at_ (Electron_dz (leptons nt)) elec_i;
    if (0.2 <=? PrimFloat.abs dz)%float then Ok false else
    dxy ← at_ (Electron_dxy (leptons nt)) elec_i;
    if (0.1 <=? PrimFloat.abs dxy)%float then Ok false else
    Ok true
  else
    dz ← at_ (Electron_dz (leptons nt)) elec_i;
    if (0.1 <=? PrimFloat.abs dz)%float then Ok false else
    dxy ← at_ (Electron_dxy (leptons nt)) elec_i;
    if (0.05 <=? PrimFloat.abs dxy)%float then Ok false else
    Ok true.

(** [Has1LepPKU::passesVetoMuonID] *)
Definition PKU_passesVetoMuonID (nt : Nano) (muon_i : Z) : Exn bool :=
  tightId ← at_ (Muon_tightId (leptons nt)) muon_i;
  if negb tightId then Ok false else
  iso ← at_ (Muon_pfRelIso04_all (leptons nt)) muon_i;
  if (0.4 <=? iso)%float then Ok false else
  pt ← at_ (Muon_pt (leptons nt)) muon_i;
  if (pt <=? 10)%float then Ok false else
  Ok true.

(** [Has1LepPKU::passesTightMuonID] *)
Definition PKU_passesTightMuonID (nt : Nano) (muon_i : Z) : Exn bool :=
  tightId ← at_ (Muon_tightId (leptons nt)) muon_i;
  if negb tightId then Ok false else
  iso ← at_ (Muon_pfRelIso04_all (leptons nt)) muon_i;
  if (0.15 <=? iso)%float then Ok false else
  pt ← at_ (Muon_pt (leptons nt)) muon_i;
  if (pt <=? 26)%float then Ok false else
  eta ← at_ (Muon_eta (leptons nt)) muon_i;
  if (2.4 <=? PrimFloat.abs eta)%float then Ok false else
  Ok true.

(** The overrides of [Has1LepPKU]. *)
Definition PKU : ID :=
  {| passesVetoElecID := PKU_passesVetoElecID;
     passesTightElecID := PKU_passesTightElecID;
     passesVetoMuonID := PKU_passesVetoMuonID;
     passesTightMuonID := PKU_passesTightMuonID |}.

End Has1LepPKU.

Section Has1Lep.

Variable id : ID.

(** ROOT's vector mathematics, outside these sources. *)
Variables pt eta phi : LorentzVector -> float.

(** One turn of the loop of [Has1Lep::evaluate] over the good leptons: the
    counts of veto and tight leptons and the index of the last tight one,
    after the lepton [good_lep_i]. *)
Definition count_lepton (nt : Nano) (good_lep_pdgIDs good_lep_idxs : Integers)
    (good_lep_i : Z) (counts : Z * Z * Z) : Exn (Z * Z * Z) :=
  let '(n_veto_leps, n_tight_leps, tight_lep_idx) := counts in
  lep_i ← at_ good_lep_idxs good_lep_i;
  let lep_i := to_unsigned lep_i in
  lep_pdgID ← at_ good_lep_pdgIDs good_lep_i;
  if abs_int lep_pdgID =? 11 then
    veto ← passesVetoElecID id nt (wrap_int lep_i);
    let n_veto_leps := if veto : bool then wrap_int (n_veto_leps + 1) else n_veto_leps in
    tight ← passesTightElecID id nt (wrap_int lep_i);
    if tight : bool then Ok (n_veto_leps, wrap_int (n_tight_leps + 1), wrap_int good_lep_i)
    else Ok (n_veto_leps, n_tight_leps, tight_lep_idx)
  else if abs_int lep_pdgID =? 13 then
    veto ← passesVetoMuonID id nt (wrap_int lep_i);
    let n_veto_leps := if veto : bool then wrap_int (n_veto_leps + 1) else n_veto_leps in
    tight ← passesTightMuonID id nt (wrap_int lep_i);
    if tight : bool then Ok (n_veto_leps, wrap_int (n_tight_leps + 1), wrap_int good_lep_i)
    else Ok (n_veto_leps, n_tight_leps, tight_lep_idx)
  else Ok (n_veto_leps, n_tight_leps, tight_lep_idx).

(** The loop: [n_left] leptons are left, [good_lep_i] is the loop index. *)
Fixpoint count_leptons (nt : Nano) (good_lep_pdgIDs good_lep_idxs : Integers)
    (n_left : nat) (good_lep_i : Z) (counts : Z * Z * Z) : Exn (Z * Z * Z) :=
  match n_left with
  | O => Ok counts
  | S n_left' =>
      counts ← count_lepton nt good_lep_pdgIDs good_lep_idxs good_lep_i counts;
      count_leptons nt good_lep_pdgIDs good_lep_idxs n_left' (good_lep_i + 1) counts
  end.

(** [Has1Lep::evaluate] *)
Definition Has1Lep_evaluate (w : World) : Exn (bool * World) :=
  good_lep_p4s ← Variables.getVal LorentzVectors "good_lep_p4s" (globals w);
  good_lep_pdgIDs ← Variables.getVal Integers "good_lep_pdgIDs" (globals w);
  good_lep_idxs ← Variables.getVal Integers "good_lep_idxs" (globals w);
  '(n_veto_leps, n_tight_leps, tight_lep_idx) ←
    count_leptons (nt w) good_lep_pdgIDs good_lep_idxs (length good_lep_p4s) 0 (0, 0, -999);
  if negb (n_tight_leps =? 1) || negb (n_veto_leps =? 1) then Ok (false, w) else
  lep_p4 ← at_ good_lep_p4s tight_lep_idx;
  g ← Variables.setVal "lep_p4" lep_p4 (globals w);
  lep_pdgID ← at_ good_lep_pdgIDs tight_lep_idx;
  a ← Arbol.setLeaf "lep_pdgID" lep_pdgID (arbol w);
  a ← Arbol.setLeaf "lep_pt" (pt lep_p4) a;
  a ← Arbol.setLeaf "lep_eta" (eta lep_p4) a;
  a ← Arbol.setLeaf "lep_phi" (phi lep_p4) a;
  MET ← Arbol.getLeaf float "MET" a;
  a ← Arbol.setLeaf "LT" (pt lep_p4 + MET)%float a;
  Ok (true, with_arbol a (with_globals g w)).

(** The cut: [Has1Lep] overrides [evaluate] and [weight]. *)
Definition Has1Lep (n : string) : Cut :=
  {| name := n; evaluate := Has1Lep_evaluate; weight := VBSWH.Has1Lep_weight |}.

End Has1Lep.

End Leptons.

(** ** analysis/studies/vbswh.h: the jet selection without the Hbb jet *)

Module SelectJetsNoHbbOverlap.

(** The members [loadOverlapVars] fills: two of [Core::SelectJets] and
    [hbbjet_p4]. *)
Record Members : Type := mkMembers {
  good_lep_p4s : LorentzVectors;
  good_lep_jet_idxs : Integers;
  hbbjet_p4 : LorentzVector
}.

(** [SelectJetsNoHbbOverlap::loadOverlapVars] *)
Definition loadOverlapVars (g : Variables.t) : Exn Members :=
  good_lep_p4s ← Variables.getVal LorentzVectors "good_lep_p4s" g;
  good_lep_jet_idxs ← Variables.getVal Integers "good_lep_jet_idxs" g;
  hbbjet_p4 ← Variables.getVal LorentzVector "hbbjet_p4" g;
  Ok {| good_lep_p4s := good_lep_p4s; good_lep_jet_idxs := good_lep_jet_idxs;
        hbbjet_p4 := hbbjet_p4 |}.

Section isOverlap.

Variable DeltaR : LorentzVector -> LorentzVector -> float.

(** [Core::SelectJets::overlapsLepton], outside these sources. *)
Variable overlapsLepton : Members -> Z -> LorentzVector -> Exn bool.

(** [SelectJetsNoHbbOverlap::overlapsHbbJet] *)
Definition overlapsHbbJet (m : Members) (jet_p4 : LorentzVector) : bool :=
  (DeltaR (hbbjet_p4 m) jet_p4 <? 0.8)%float.

(** [SelectJetsNoHbbOverlap::isOverlap] *)
Definition isOverlap (m : Members) (jet_i : Z) (jet_p4 : LorentzVector) : Exn bool :=
  lepton ← overlapsLepton m jet_i jet_p4;
  or_else lepton (Ok (overlapsHbbJet m jet_p4)).

End isOverlap.

End SelectJetsNoHbbOverlap.

(** ** analysis/studies/vbswh.h: [Analysis::initCutflow] *)

Module VBSWHCutflow.

(** The predicates of the [LambdaCut]s of [VBSWH::Analysis::initCutflow]. *)

Definition LepPtGt40 (w : World) : Exn bool :=
  lep_pt ← Arbol.getLeaf float "lep_pt" (arbol w);
  Ok (40 <=? lep_pt)%float.

Definition Geq1FatJet (w : World) : Exn bool :=
  n_fatjets ← Arbol.getLeaf Z "n_fatjets" (arbol w);
  Ok (1 <=? n_fatjets).

Definition MjjGt500_detajjGt3 (w : World) : Exn bool :=
  M_jj ← Arbol.getLeaf float "M_jj" (arbol w);
  VBSVVHJets.and_then (500 <? M_jj)%float
    (deta_jj ← Arbol.getLeaf float "deta_jj" (arbol w);
     Ok (3 <? PrimFloat.abs deta_jj)%float).

Definition XbbGt0p3 (w : World) : Exn bool :=
  hbbjet_score ← Arbol.getLeaf float "hbbjet_score" (arbol w);
  Ok (0.3 <? hbbjet_score)%float.

Definition ApplyAk4GlobalBVeto (w : World) : Exn bool :=
  Arbol.getLeaf bool "passes_bveto" (arbol w).

Definition MjjGt600_detajjGt4 (w : World) : Exn bool :=
  M_jj ← Arbol.getLeaf float "M_jj" (arbol w);
  VBSVVHJets.and_then (600 <? M_jj)%float
    (deta_jj ← Arbol.getLeaf float "deta_jj" (arbol w);
     Ok (4 <? PrimFloat.abs deta_jj)%float).

Definition STGt900 (w : World) : Exn bool :=
  ST ← Arbol.getLeaf float "ST" (arbol w);
  Ok (900 <? ST)%float.

Definition XbbGt0p9_MSDLt150 (w : World) : Exn bool :=
  hbbjet_score ← Arbol.getLeaf float "hbbjet_score" (arbol w);
  VBSVVHJets.and_then (0.9 <? hbbjet_score)%float
    (hbbjet_msoftdrop ← Arbol.getLeaf float "hbbjet_msoftdrop" (arbol w);
     Ok (hbbjet_msoftdrop <? 150)%float).

Definition STGt1500 (w : World) : Exn bool :=
  ST ← Arbol.getLeaf float "ST" (arbol w);
  Ok (1500 <? ST)%float.

(** The cut classes of core.h, outside these sources; [SelectJets] is the
    [evaluate] that [SelectJetsNoHbbOverlap] inherits from
    [Core::SelectJets]. *)
Record CutClasses : Type := mkCutClasses {
  Bookkeeping : VBSVVHJets.Body;
  SelectLeptonsPKU : VBSVVHJets.Body;
  SelectFatJets : VBSVVHJets.Body;
  SelectJets : VBSVVHJets.Body;
  SelectVBSJetsMaxE : VBSVVHJets.Body
}.

Section initCutflow.

Variable cuts : CutClasses.

(** What the cuts of vbswh.h need from outside these sources: the lepton
    branches and their sum, ROOT's vector mathematics and the b-tag working
    point. *)
Variable leptons : Nano -> Leptons.Branches.
Variable add_branches : float -> float -> float.
Variables pt eta phi : LorentzVector -> float.
Variable DeltaR : LorentzVector -> LorentzVector -> float.
Variable WP_DeepFlav_medium : float.

(** [Analysis::initCutflow], the cutflow it builds; the scale factors it
    creates first are in [VBSWHCorrections.initCutflow] below. *)
Definition initCutflow (cutflow : Cutflow.t) : Exn Cutflow.t :=
  (* Bookkeeping *)
  let bookkeeping := VBSVVHJets.external "Bookkeeping" (Bookkeeping cuts) in
  cutflow ← Cutflow.setRoot bookkeeping cutflow;
  (* Event filters *)
  let event_filters := VBSWH.PassesEventFilters "PassesEventFilters" in
  cutflow ← Cutflow.insert (name bookkeeping) event_filters Cutflow.Right cutflow;
  (* Lepton selection *)
  let select_leps := VBSVVHJets.external "SelectLeptons" (SelectLeptonsPKU cuts) in
  cutflow ← Cutflow.insert (name event_filters) select_leps Cutflow.Right cutflow;
  (* == 1 lepton selection *)
  let has_1lep :=
    Leptons.Has1Lep (Leptons.PKU leptons add_branches) pt eta phi "Has1TightLep" in
  cutflow ← Cutflow.insert (name select_leps) has_1lep Cutflow.Right cutflow;
  (* Lepton has pT > 40 *)
  let lep_pt_gt40 := LambdaCut "LepPtGt40" LepPtGt40 in
  cutflow ← Cutflow.insert (name has_1lep) lep_pt_gt40 Cutflow.Right cutflow;
  (* Single-lepton triggers *)
  let lep_triggers := VBSWH.Passes1LepTriggers "Passes1LepTriggers" in
  cutflow ← Cutflow.insert (name lep_pt_gt40) lep_triggers Cutflow.Right cutflow;
  (* Fat jet selection *)
  let select_fatjets := VBSVVHJets.external "SelectFatJets" (SelectFatJets cuts) in
  cutflow ← Cutflow.insert (name lep_triggers) select_fatjets Cutflow.Right cutflow;
  (* Geq1FatJet *)
  let geq1fatjet := LambdaCut "Geq1FatJet" Geq1FatJet in
  cutflow ← Cutflow.insert (name select_fatjets) geq1fatjet Cutflow.Right cutflow;
  (* Hbb selection *)
  let select_hbbjet := VBSWH.SelectHbbFatJet pt eta phi DeltaR "SelectHbbFatJet" true in
  cutflow ← Cutflow.insert (name geq1fatjet) select_hbbjet Cutflow.Right cutflow;
  (* Jet selection *)
  let select_jets := VBSVVHJets.external "SelectJetsNoHbbOverlap" (SelectJets cuts) in
  cutflow ← Cutflow.insert (name select_hbbjet) select_jets Cutflow.Right cutflow;
  (* Global AK4 b-veto *)
  let save_ak4bveto :=
    DressedCut "SaveAk4GlobalBVeto" (VBSWH.SaveBJetVeto_evaluate WP_DeepFlav_medium) in
  cutflow ← Cutflow.insert (name select_jets) save_ak4bveto Cutflow.Right cutflow;
  (* VBS jet selection *)
  let select_vbsjets_maxE :=
    VBSVVHJets.external "SelectVBSJetsMaxE" (SelectVBSJetsMaxE cuts) in
  cutflow ← Cutflow.insert (name save_ak4bveto) select_vbsjets_maxE Cutflow.Right cutflow;
  (* Basic VBS jet requirements *)
  let vbsjets_presel := LambdaCut "MjjGt500_detajjGt3" MjjGt500_detajjGt3 in
  cutflow ← Cutflow.insert (name select_vbsjets_maxE) vbsjets_presel Cutflow.Right cutflow;
  let xbb_presel := LambdaCut "XbbGt0p3" XbbGt0p3 in
  cutflow ← Cutflow.insert (name vbsjets_presel) xbb_presel Cutflow.Right cutflow;
  let apply_ak4bveto := LambdaCut "ApplyAk4GlobalBVeto" ApplyAk4GlobalBVeto in
  cutflow ← Cutflow.insert (name xbb_presel) apply_ak4bveto Cutflow.Right cutflow;
  let SR1_vbs_cuts := LambdaCut "MjjGt600_detajjGt4" MjjGt600_detajjGt4 in
  cutflow ← Cutflow.insert (name apply_ak4bveto) SR1_vbs_cuts Cutflow.Right cutflow;
  let SR1_ST_cut := LambdaCut "STGt900" STGt900 in
  cutflow ← Cutflow.insert (name SR1_vbs_cuts) SR1_ST_cut Cutflow.Right cutflow;
  let SR1_hbb_cut := LambdaCut "XbbGt0p9_MSDLt150" XbbGt0p9_MSDLt150 in
  cutflow ← Cutflow.insert (name SR1_ST_cut) SR1_hbb_cut Cutflow.Right cutflow;
  let SR2 := LambdaCut "STGt1500" STGt1500 in
  cutflow ← Cutflow.insert (name SR1_hbb_cut) SR2 Cutflow.Right cutflow;
  Ok cutflow.

End initCutflow.

End VBSWHCutflow.

(** ** analysis/studies/vbswh.h: the scale factors of [Analysis] *)

Module VBSWHCorrections.

Section Corrections.

(** The scale-factor classes of sfs.h and jes.h, outside these sources,
    with their constructors and [init] methods. *)
Context {JetEnergySFs LeptonSFsPKU : Type}.
Variable new_JetEnergySFs : string -> JetEnergySFs.
Variable new_LeptonSFsPKU : LeptonSFsPKU.
Variable JetEnergySFs_init : string -> JetEnergySFs -> JetEnergySFs.
Variable LeptonSFsPKU_init : string -> LeptonSFsPKU -> LeptonSFsPKU.

(** The scale-factor members of [VBSWH::Analysis]; a pointer is [None]
    when it points to no object. *)
Record Members : Type := mkMembers {
  jet_sfs : option JetEnergySFs;
  lep_sfs : option LeptonSFsPKU
}.

(** The constructor [Analysis::Analysis] assigns neither pointer. *)
Definition Analysis : Members := {| jet_sfs := None; lep_sfs := None |}.

(** The first two statements of [Analysis::initCutflow]; [variation] is
    [cli.variation]. *)
Definition initCutflow (variation : string) (m : Members) : Members :=
  {| jet_sfs := Some (new_JetEnergySFs variation); lep_sfs := Some new_LeptonSFsPKU |}.

(** [Analysis::init] after [Core::Analysis::init], on these members; the
    result is [None] when a pointer to no object is dereferenced. *)
Definition init (file_name : string) (m : Members) : option Members :=
  j ← jet_sfs m;
  let j := JetEnergySFs_init file_name j in
  l ← lep_sfs m;
  let l := LeptonSFsPKU_init file_name l in
  Some {| jet_sfs := Some j; lep_sfs := Some l |}.

End Corrections.

End VBSWHCorrections.

(** ** analysis/studies/vbswh/main.cc: the set-up before the loop *)

Module MainSetup.

Section FixEWKSamples.

(** [nt.LHEPart_pdgId()], a branch the [Nano] record above leaves out. *)
Variable LHEPart_pdgId : Nano -> Integers.

(** The predicate of the [FixEWKSamples] cut. *)
Definition FixEWKSamples (w : World) : Exn bool :=
  let file_name := file_name (cli w) in
  if Contains file_name "EWKW" || Contains file_name "EWKZ" then
    parton1_pdgID ← at_ (LHEPart_pdgId (nt w)) 0;
    parton2_pdgID ← at_ (LHEPart_pdgId (nt w)) 1;
    if (abs_int parton1_pdgID =? 5) || (abs_int parton2_pdgID =? 5) then Ok false
    else Ok true
  else Ok true.

Definition fix_ewk_samples : Cut := LambdaCut "FixEWKSamples" FixEWKSamples.

(** The cutflow as [main] builds it before the loop: [analysis.initCutflow()]
    on the empty cutflow, then the insertion of [fix_ewk_samples] on the pass
    side of [Bookkeeping]. *)
Definition cutflow (init : Cutflow.t -> Exn Cutflow.t) : Exn Cutflow.t :=
  cf ← init Cutflow.empty;
  Cutflow.insert "Bookkeeping" fix_ewk_samples Cutflow.Right cf.

End FixEWKSamples.

End MainSetup.

(** ** analysis/include/vbsvvhjets/collections.h: the corrections *)

Module VVHCorrections.

Section Corrections.

(** The correction classes of corrections/all.h, outside these sources,
    with the constructors and the [init] methods that [Analysis] calls. *)
Context {JetEnergyScales LeptonSFsPKU HLT1LepSFs BTagSFs PileUpSFs : Type}.
Variable new_JetEnergyScales : string -> JetEnergyScales.
Variable new_PileUpSFs : PileUpSFs.
Variable JetEnergyScales_init : JetEnergyScales -> JetEnergyScales.
Variable PileUpSFs_init : string -> PileUpSFs -> PileUpSFs.

(** The correction members of [VBSVVHJets::Analysis]; a pointer is [None]
    when it is null, and holds the object it points to otherwise. *)
Record Members : Type := mkMembers {
  jes : option JetEnergyScales;
  lep_sfs : option LeptonSFsPKU;
  hlt_sfs : option HLT1LepSFs;
  btag_sfs : option BTagSFs;
  pu_sfs : option PileUpSFs;
  all_corrections : bool
}.

(** The constructor [Analysis::Analysis], on these members. *)
Definition Analysis : Members :=
  {| jes := None; lep_sfs := None; hlt_sfs := None; btag_sfs := None; pu_sfs := None;
     all_corrections := false |}.

(** [Analysis::initCorrections]; [variation] is [cli.variation]. *)
Definition initCorrections (variation : string) (m : Members) : Members :=
  {| jes := Some (new_JetEnergyScales variation);
     lep_sfs := lep_sfs m; hlt_sfs := hlt_sfs m; btag_sfs := btag_sfs m;
     pu_sfs := Some new_PileUpSFs;
     all_corrections := true |}.

(** [Analysis::init] after [Core::Analysis::init], on these members; the
    result is [None] when a null pointer is dereferenced. *)
Definition init (file_name : string) (m : Members) : option Members :=
  if all_corrections m then
    j ← jes m;
    let j := JetEnergyScales_init j in
    p ← pu_sfs m;
    let p := PileUpSFs_init file_name p in
    Some {| jes := Some j; lep_sfs := lep_sfs m; hlt_sfs := hlt_sfs m;
            btag_sfs := btag_sfs m; pu_sfs := Some p;
            all_corrections := all_corrections m |}
  else Some m.

(** The members after the constructor and any calls of [initCorrections]
    and [init]. *)
Inductive reachable : Members -> Prop :=
  | reach_Analysis : reachable Analysis
  | reach_initCorrections variation m :
      reachable m -> reachable (initCorrections variation m)
  | reach_init file_name m m' :
      reachable m -> init file_name m = Some m' -> reachable m'.

End Corrections.

End VVHCorrections.

(** * Reference definitions for the properties *)

(** The trigger decision with an absent bit read as false. *)
Definition bit (b : option bool) : bool := default false b.

Definition muon_triggers_spec (nt : Nano) : bool :=
  if year nt =? 2016 then bit (b_HLT_IsoMu24 nt) || bit (b_HLT_IsoTkMu24 nt)
  else if year nt =? 2017 then bit (b_HLT_IsoMu27 nt)
  else if year nt =? 2018 then bit (b_HLT_IsoMu24 nt)
  else false.

Definition elec_triggers_spec (nt : Nano) : bool :=
  if year nt =? 2016 then bit (b_HLT_Ele27_WPTight_Gsf nt) || muon_triggers_spec nt
  else if year nt =? 2017 then bit (b_HLT_Ele32_WPTight_Gsf_L1DoubleEG nt)
  else if year nt =? 2018 then bit (b_HLT_Ele32_WPTight_Gsf nt)
  else false.


(** The world with one branch of the arbol overwritten, declared or not. *)
Definition with_branch (n : string) (b : Arbol.Branch) (w : World) : World :=
  with_arbol {| Arbol.branches := <[n := b]> (Arbol.branches (arbol w));
                Arbol.rows := Arbol.rows (arbol w) |} w.

(** What a store declares: for each name the value a reset restores. *)
Definition declarations (a : Arbol.t) : gmap string Arbol.Leaf :=
  Arbol.reset_value <$> Arbol.branches a.
Definition var_declarations (g : Variables.t) : gmap string Variables.Val :=
  Variables.reset_value <$> g.

(** The stop condition of the event callback. *)
Definition stop_condition (s : Main.State) : bool :=
  debug (cli (Main.world s)) && (Main.n_events_processed (Main.looper s) =? 10000).

(** The state the event callback leaves after a traversal with outcome
    [o]: the row is filled when the outcome is ACCEPT. *)
Definition committed (s : Main.State) (o : Cutflow.Outcome) : Main.State :=
  {| Main.looper := Main.looper s;
     Main.cutflow := Cutflow.after (Main.cutflow s) o;
     Main.world :=
       if Cutflow.accepted o
       then with_arbol (Arbol.fill (arbol (Cutflow.world o))) (Cutflow.world o)
       else Cutflow.world o |}.

(** The state the event callback leaves when it stops the looper. *)
Definition halted (s : Main.State) : Main.State :=
  {| Main.looper := Main.stop (Main.looper s);
     Main.cutflow := Main.cutflow s;
     Main.world := Main.world s |}.

(** ** Sample events *)

Module Sample.

(** A simulated 2018 event without trigger branches and without generator
    particles. *)
Definition nano : Nano :=
  {| year := 2018; isData := false;
     Flag_goodVertices := true; Flag_HBHENoiseFilter := true;
     Flag_HBHENoiseIsoFilter := true;
     Flag_EcalDeadCellTriggerPrimitiveFilter := true;
     Flag_BadPFMuonFilter := true; Flag_globalSuperTightHalo2016Filter := true;
     b_HLT_IsoMu24 := None; b_HLT_IsoTkMu24 := None; b_HLT_IsoMu27 := None;
     b_HLT_Ele27_WPTight_Gsf := None; b_HLT_Ele32_WPTight_Gsf_L1DoubleEG := None;
     b_HLT_Ele32_WPTight_Gsf := None;
     nGenPart := 0; GenPart_pdgId := []; GenPart_status := [];
     GenPart_genPartIdxMother := []; GenPart_p4 := [] |}.

Definition options (dbg : bool) : HEPCLI :=
  {| debug := dbg; is_data := false; file_name := "VBSWH_MC.root" |}.

(** The same event with a tau as the selected lepton. *)
Definition tau_event : World :=
  {| nt := nano; cli := options false; globals := ∅;
     arbol := Arbol.newBranch "lep_pdgID" (-15) Arbol.empty |}.

(** A three-node cutflow: the middle node writes [ST], the last tests it. *)
Definition SelectVBSJetsMaxE (ST : float) : Cut :=
  DressedCut "SelectVBSJetsMaxE"
    (fun w => a ← Arbol.setLeaf "ST" ST (arbol w); Ok (true, with_arbol a w)).

Definition chain (ST : float) : Cutflow.t :=
  {| Cutflow.root :=
       Cutflow.Node (LambdaCut "Bookkeeping" (fun _ => Ok true)) Cutflow.Null
         (Cutflow.Node (SelectVBSJetsMaxE ST) Cutflow.Null
            (Cutflow.Node (LambdaCut "STGt900" (VBSVVHJets.STGt 900))
               Cutflow.Null Cutflow.Null));
     Cutflow.counters := ∅ |}.

Definition GetEntry (entry : Z) (n : Nano) : Nano := n.

(** The same cutflow after earlier records: other counters. *)
Definition used_chain (ST : float) : Cutflow.t :=
  {| Cutflow.root := Cutflow.root (chain ST);
     Cutflow.counters :=
       <["STGt900" := {| Cutflow.n_pass := 3; Cutflow.n_fail := 4;
                         Cutflow.n_pass_weighted := 2.5 |}]> ∅ |}.

(** A lepton event with scale factor 0.5, and a cutflow whose nodes have
    weights: bookkeeping contributes 2, the lepton cut its scale factor,
    the last cut fails. *)
Definition lepton_event : World :=
  {| nt := nano; cli := options false; globals := ∅;
     arbol := Arbol.newBranch "lep_pt" 30%float
                (Arbol.newBranch "lep_sf" 0.5%float Arbol.empty) |}.

Definition weighted : Cutflow.t :=
  {| Cutflow.root :=
       Cutflow.Node {| name := "Bookkeeping"; evaluate w := Ok (true, w);
                       weight _ := Ok 2%float |} Cutflow.Null
         (Cutflow.Node {| name := "Has1TightLep"; evaluate w := Ok (true, w);
                          weight := VBSWH.Has1Lep_weight |} Cutflow.Null
            (Cutflow.Node {| name := "LepPtGt40";
                             evaluate w :=
                               lep_pt ← Arbol.getLeaf float "lep_pt" (arbol w);
                               Ok (40 <=? lep_pt, w)%float;
                             weight _ := Ok 3%float |}
               Cutflow.Null Cutflow.Null));
     Cutflow.counters := ∅ |}.

(** The outcome of a run, a rejection at no node if the run throws. *)
Definition outcome_or_none (r : Exn Cutflow.Outcome) (w : World) : Cutflow.Outcome :=
  match r with
  | Ok o => o
  | Throw _ => Cutflow.outcome_of [] w 1 ∅
  end.

Definition weighted_outcome : Cutflow.Outcome :=
  outcome_or_none (Cutflow.run "Bookkeeping" weighted lepton_event) lepton_event.

(** The driver's state before an event: [ST] still holds the value of the
    previous event. *)
Definition state (dbg : bool) (n_processed : Z) (ST : float) : Main.State :=
  {| Main.looper := {| Main.n_events_processed := n_processed;
                       Main.n_events_total := 20000;
                       Main.stopped := false |};
     Main.cutflow := chain ST;
     Main.world :=
       {| nt := nano; cli := options dbg;
          globals := <["hbbjet_p4" := Variables.mkSlot
                         (Variables.VLorentzVector (mkP4 1 2 3 4))
                         (Variables.VLorentzVector (mkP4 0 0 0 0))]> ∅;
          arbol := {| Arbol.branches :=
                        <["ST" := Arbol.mkBranch (Arbol.LDouble 1234) (Arbol.LDouble (-999))]> ∅;
                      Arbol.rows := [] |} |} |}.

(** The state after the callback, [s] if the callback throws. *)
Definition after_event (s : Main.State) : Main.State :=
  match Main.event GetEntry 0 s with
  | Ok s' => s'
  | Throw _ => s
  end.

End Sample.

(** ** The VBSVVHJets cutflow, as a tree *)

(** A chain of cuts, each the pass successor of the one before. *)
Definition chain_of (cs : list Cut) (last : Cutflow.CutTree) : Cutflow.CutTree :=
  foldr (fun c tr => Cutflow.Node c Cutflow.Null tr) last cs.

Section VBSVVHJets_tree.

Variable cuts : VBSVVHJets.CutClasses.

Definition allmerged_chain : Cutflow.CutTree :=
  chain_of
    [VBSVVHJets.external "AllMerged_SelectVVHFatJets"
       (VBSVVHJets.SelectVVHFatJets cuts VBSVVHJets.AllMerged);
     VBSVVHJets.external "AllMerged_SelectJets"
       (VBSVVHJets.SelectJetsNoFatJetOverlap cuts VBSVVHJets.AllMerged);
     VBSVVHJets.external "AllMerged_SelectVBSJetsMaxE" (VBSVVHJets.SelectVBSJetsMaxE cuts);
     VBSVVHJets.external "AllMerged_SaveVariables"
       (VBSVVHJets.SaveVariables cuts VBSVVHJets.AllMerged);
     LambdaCut "AllMerged_ApplyAk4GlobalBVeto" VBSVVHJets.ApplyAk4GlobalBVeto;
     LambdaCut "AllMerged_STGt1200" (VBSVVHJets.STGt 1200);
     LambdaCut "AllMerged_MjjGt500" VBSVVHJets.MjjGt500;
     LambdaCut "AllMerged_detajjGt3" VBSVVHJets.detajjGt3;
     LambdaCut "AllMerged_MjjGt600_detajjGt4" VBSVVHJets.MjjGt600_detajjGt4;
     LambdaCut "AllMerged_XbbGt0p9" VBSVVHJets.XbbGt0p9;
     LambdaCut "AllMerged_XWqqGt0p7" VBSVVHJets.XWqqGt0p7;
     LambdaCut "AllMerged_STGt1500" (VBSVVHJets.STGt 1500)]
    Cutflow.Null.

Definition semimerged_chain : Cutflow.CutTree :=
  chain_of
    [LambdaCut "Exactly2FatJets" VBSVVHJets.Exactly2FatJets;
     VBSVVHJets.external "SemiMerged_SelectVVHFatJets"
       (VBSVVHJets.SelectVVHFatJets cuts VBSVVHJets.SemiMerged);
     VBSVVHJets.external "SemiMerged_SelectJets"
       (VBSVVHJets.SelectJetsNoFatJetOverlap cuts VBSVVHJets.SemiMerged);
     LambdaCut "SemiMerged_Geq4Jets" VBSVVHJets.Geq4Jets;
     VBSVVHJets.external "SemiMerged_SelectVBSJetsMaxE" (VBSVVHJets.SelectVBSJetsMaxE cuts);
     VBSVVHJets.external "SemiMerged_SelectVJets" (VBSVVHJets.SelectVJets cuts);
     VBSVVHJets.external "SemiMerged_SaveVariables"
       (VBSVVHJets.SaveVariables cuts VBSVVHJets.SemiMerged);
     LambdaCut "SemiMerged_MjjGt500" VBSVVHJets.MjjGt500]
    Cutflow.Null.

(** The node that splits the two channels. *)
Definition exactly3_node : Cutflow.CutTree :=
  Cutflow.Node (LambdaCut "Exactly3FatJets" VBSVVHJets.Exactly3FatJets)
    semimerged_chain allmerged_chain.

Definition vvh_tree : Cutflow.CutTree :=
  chain_of
    [VBSVVHJets.external "Bookkeeping" (VBSVVHJets.Bookkeeping cuts);
     VBSVVHJets.external "SaveSystWeights" (VBSVVHJets.SaveSystWeights cuts);
     VBSWH.PassesEventFilters "PassesEventFilters";
     VBSVVHJets.external "PassesTriggers" (VBSVVHJets.PassesTriggers cuts);
     VBSVVHJets.external "SelectLeptons" (VBSVVHJets.SelectLeptonsPKU cuts);
     LambdaCut "NoLeptons" VBSVVHJets.NoLeptons;
     VBSVVHJets.external "SelectFatJets" (VBSVVHJets.SelectFatJets cuts)]
    exactly3_node.

Definition vvh_cutflow : Cutflow.t :=
  {| Cutflow.root := vvh_tree; Cutflow.counters := ∅ |}.

End VBSVVHJets_tree.

(** The cut registered under a name, and the name of its successor on
    pass ([Cutflow.Right]) or on fail ([Cutflow.Left]). *)
Definition root_cut (tr : Cutflow.CutTree) : option Cut :=
  match tr with
  | Cutflow.Null => None
  | Cutflow.Node c _ _ => Some c
  end.

Definition cut_at (n : string) (tr : Cutflow.CutTree) : option Cut :=
  Cutflow.find n tr ≫= root_cut.

Definition successor (d : Cutflow.Direction) (n : string) (tr : Cutflow.CutTree)
  : option string :=
  Cutflow.find n tr ≫= fun s => name <$> root_cut (Cutflow.child d s).

(** How many of the records [ws] satisfy the predicate [p]. *)
Definition n_records_with (p : World -> Exn bool) (ws : list World) : nat :=
  length (List.filter (fun w => match p w with Ok true => true | _ => false end) ws).

(** ** Sample records for the VBSVVHJets cutflow *)

Module SampleVVH.

(** External cuts that pass every event and leave the stores alone. *)
Definition pass : VBSVVHJets.Body :=
  {| VBSVVHJets.body_evaluate w := Ok (true, w);
     VBSVVHJets.body_weight _ := Ok 1%float |}.

Definition pass_all : VBSVVHJets.CutClasses :=
  {| VBSVVHJets.Bookkeeping := pass; VBSVVHJets.SaveSystWeights := pass;
     VBSVVHJets.PassesTriggers := pass; VBSVVHJets.SelectLeptonsPKU := pass;
     VBSVVHJets.SelectFatJets := pass; VBSVVHJets.SelectVBSJetsMaxE := pass;
     VBSVVHJets.SelectVJets := pass;
     VBSVVHJets.SelectVVHFatJets _ := pass;
     VBSVVHJets.SelectJetsNoFatJetOverlap _ := pass;
     VBSVVHJets.SaveVariables _ := pass |}.

(** An event without leptons and with [n] fat jets. *)
Definition fatjets (n : Z) : World :=
  {| nt := Sample.nano; cli := Sample.options false;
     globals := <["veto_lep_p4s" := Variables.mkSlot (Variables.VLorentzVectors [])
                                      (Variables.VLorentzVectors [])]> ∅;
     arbol :=
       Arbol.newBranch "n_fatjets" n
         (Arbol.newBranch "n_jets" 4
            (Arbol.newBranch "passes_bveto" true
               (Arbol.newBranch "ST" 2000%float
                  (Arbol.newBranch "M_jj" 700%float
                     (Arbol.newBranch "deta_jj" (-5)%float
                        (Arbol.newBranch "hbbfatjet_score" 0.95%float
                           (Arbol.newBranch "ld_vqqfatjet_score" 0.8%float
                              Arbol.empty))))))) |}.

(** The path of one such event from the root, empty if the run throws. *)
Definition fatjets_path (n : Z) : list Cutflow.Visit :=
  match Cutflow.run_path "Bookkeeping" (vvh_cutflow pass_all) (fatjets n) with
  | Ok (vs, _) => vs
  | Throw _ => []
  end.

End SampleVVH.

(** The tagger scores [SelectHbbFatJet] ranks the fat jets by. *)
Definition tags_name (use_md : bool) : string :=
  if use_md then "good_fatjet_xbbtags" else "good_fatjet_hbbtags".

(** ** Sample events for [SelectHbbFatJet] *)

Module SampleHbb.

Definition pt (p : LorentzVector) : float := c1 p.
Definition eta (p : LorentzVector) : float := c2 p.
Definition phi (p : LorentzVector) : float := c3 p.
Definition DeltaR (p q : LorentzVector) : float :=
  (PrimFloat.abs (c2 p - c2 q) + PrimFloat.abs (c3 p - c3 q))%float.

(** A simulated event with a b quark from a Higgs boson. *)
Definition nano : Nano :=
  {| year := 2018; isData := false;
     Flag_goodVertices := true; Flag_HBHENoiseFilter := true;
     Flag_HBHENoiseIsoFilter := true;
     Flag_EcalDeadCellTriggerPrimitiveFilter := true;
     Flag_BadPFMuonFilter := true; Flag_globalSuperTightHalo2016Filter := true;
     b_HLT_IsoMu24 := Some true; b_HLT_IsoTkMu24 := None; b_HLT_IsoMu27 := None;
     b_HLT_Ele27_WPTight_Gsf := None; b_HLT_Ele32_WPTight_Gsf_L1DoubleEG := None;
     b_HLT_Ele32_WPTight_Gsf := None;
     nGenPart := 2; GenPart_pdgId := [-5; 25]; GenPart_status := [23; 22];
     GenPart_genPartIdxMother := [1; -1];
     GenPart_p4 := [mkP4 60 0.5 1 65; mkP4 300 0.25 1 330] |}.

Definition declare (T : Type) `{Variables.VarType T} (n : string) (v : T)
    (g : Variables.t) : Variables.t :=
  <[n := Variables.mkSlot (Variables.to_val v) (Variables.to_val (Variables.unset (T := T)))]> g.

(** The event after the fat-jet selection found the jets [p4s] with the
    scores [tags]. *)
Definition event (tags : Doubles) (p4s : LorentzVectors) : World :=
  {| nt := nano; cli := Sample.options false;
     globals :=
       declare Doubles "good_fatjet_xbbtags" tags
         (declare Doubles "good_fatjet_hbbtags" tags
            (declare LorentzVectors "good_fatjet_p4s" p4s
               (declare Doubles "good_fatjet_masses" (c4 <$> p4s)
                  (declare Doubles "good_fatjet_msoftdrops" (c4 <$> p4s)
                     (VBSWH.Analysis_globals ∅)))));
     arbol := VBSWH.initBranches Arbol.empty |}.

Definition three_fatjets : World :=
  event [0.25; 0.75; 0.5]%float
    [mkP4 250 0.5 0.5 90; mkP4 400 0.25 1 125; mkP4 300 (-1) 2 80].

Definition no_fatjets : World := event [] [].

End SampleHbb.

(** The generator record is consistent: the four arrays cover the
    [nGenPart] particles, and the mother index of every outgoing b quark
    (status 23) points into the arrays. *)
Definition gen_consistent (nt : Nano) : Prop :=
  ∀ i, 0 ≤ i < nGenPart nt ->
    ∃ pdgId status mother p4,
      GenPart_pdgId nt !! Z.to_nat i = Some pdgId
      ∧ GenPart_status nt !! Z.to_nat i = Some status
      ∧ GenPart_genPartIdxMother nt !! Z.to_nat i = Some mother
      ∧ GenPart_p4 nt !! Z.to_nat i = Some p4
      ∧ (abs_int pdgId = 5 -> status = 23 ->
         0 ≤ mother < Z.of_nat (length (GenPart_pdgId nt))).

(** The stores as [SelectHbbFatJet] expects them after the fat-jet selection
    kept at least one jet: the score list is not empty, the other fat-jet
    lists are as long, and every variable and branch the cut touches is
    declared with its type. *)
Definition SelectHbbFatJet_ready (use_md : bool) (w : World) : Prop :=
  ∃ (tags : Doubles) (p4s : LorentzVectors) (masses msoftdrops : Doubles)
    (p4 : LorentzVector) (n : Z) (score pt eta phi mass msoftdrop LT ST : float),
    Variables.getVal Doubles (tags_name use_md) (globals w) = Ok tags
    ∧ tags ≠ [] ∧ Z.of_nat (length tags) ≤ 2 ^ 31
    ∧ Variables.getVal LorentzVectors "good_fatjet_p4s" (globals w) = Ok p4s
    ∧ Variables.getVal Doubles "good_fatjet_masses" (globals w) = Ok masses
    ∧ Variables.getVal Doubles "good_fatjet_msoftdrops" (globals w) = Ok msoftdrops
    ∧ (length tags ≤ length p4s)%nat ∧ (length tags ≤ length masses)%nat
    ∧ (length tags ≤ length msoftdrops)%nat
    ∧ Variables.getVal LorentzVector "hbbjet_p4" (globals w) = Ok p4
    ∧ Arbol.getLeaf Z "n_hbbjet_genbquarks" (arbol w) = Ok n
    ∧ Arbol.getLeaf float "hbbjet_score" (arbol w) = Ok score
    ∧ Arbol.getLeaf float "hbbjet_pt" (arbol w) = Ok pt
    ∧ Arbol.getLeaf float "hbbjet_eta" (arbol w) = Ok eta
    ∧ Arbol.getLeaf float "hbbjet_phi" (arbol w) = Ok phi
    ∧ Arbol.getLeaf float "hbbjet_mass" (arbol w) = Ok mass
    ∧ Arbol.getLeaf float "hbbjet_msoftdrop" (arbol w) = Ok msoftdrop
    ∧ Arbol.getLeaf float "LT" (arbol w) = Ok LT
    ∧ Arbol.getLeaf float "ST" (arbol w) = Ok ST
    ∧ (isData (nt w) = true ∨ gen_consistent (nt w)).

(** * Reference definitions for the further properties *)

(** The loop indices [k], [k + 1], ... of [n] turns. *)
Fixpoint indices (k : Z) (n : nat) : list Z :=
  match n with
  | O => []
  | S n' => k :: indices (k + 1) n'
  end.

(** ** Leptons *)

(** Whether the good lepton [i] counts as a veto lepton, and as a tight
    lepton, in the loop of [Has1Lep::evaluate]: it is an electron or a muon
    and the identification of its flavour returns true. *)
Definition veto_flag (id : Leptons.ID) (nt : Nano) (good_lep_pdgIDs good_lep_idxs : Integers)
    (i : Z) : bool :=
  match at_ good_lep_idxs i, at_ good_lep_pdgIDs i with
  | Ok lep_i, Ok lep_pdgID =>
      if abs_int lep_pdgID =? 11 then
        match Leptons.passesVetoElecID id nt (wrap_int (to_unsigned lep_i)) with
        | Ok b => b
        | Throw _ => false
        end
      else if abs_int lep_pdgID =? 13 then
        match Leptons.passesVetoMuonID id nt (wrap_int (to_unsigned lep_i)) with
        | Ok b => b
        | Throw _ => false
        end
      else false
  | _, _ => false
  end.

Definition tight_flag (id : Leptons.ID) (nt : Nano) (good_lep_pdgIDs good_lep_idxs : Integers)
    (i : Z) : bool :=
  match at_ good_lep_idxs i, at_ good_lep_pdgIDs i with
  | Ok lep_i, Ok lep_pdgID =>
      if abs_int lep_pdgID =? 11 then
        match Leptons.passesTightElecID id nt (wrap_int (to_unsigned lep_i)) with
        | Ok b => b
        | Throw _ => false
        end
      else if abs_int lep_pdgID =? 13 then
        match Leptons.passesTightMuonID id nt (wrap_int (to_unsigned lep_i)) with
        | Ok b => b
        | Throw _ => false
        end
      else false
  | _, _ => false
  end.

(** The last index of [l] with the flag [f], [d] if there is none. *)
Definition last_with (f : Z -> bool) (l : list Z) (d : Z) : Z :=
  fold_left (fun acc i => if f i then i else acc) l d.

Definition b2z (b : bool) : Z := if b then 1 else 0.

(** Every tight lepton of an identification is a veto lepton of it. *)
Definition tight_is_veto (id : Leptons.ID) : Prop :=
  ∀ nt i,
    (Leptons.passesTightElecID id nt i = Ok true -> Leptons.passesVetoElecID id nt i = Ok true)
    ∧ (Leptons.passesTightMuonID id nt i = Ok true -> Leptons.passesVetoMuonID id nt i = Ok true).

(** The trigger decision of a simulated event for the lepton [lep_pdgID]
    that [Has1Lep] selected, absent trigger bits read as false. *)
Definition lepton_triggers_spec (lep_pdgID : Z) (nt : Nano) : bool :=
  if abs_int lep_pdgID =? 11 then elec_triggers_spec nt else muon_triggers_spec nt.

(** ** Sample leptons *)

Module SampleLeptons.

(** An electron that passes the tight identification and a soft muon. *)
Definition branches (nt : Nano) : Leptons.Branches :=
  {| Leptons.Electron_pt := [50]%float; Leptons.Electron_cutBased := [4];
     Leptons.Electron_eta := [0.5]%float; Leptons.Electron_deltaEtaSC := [0.01]%float;
     Leptons.Electron_dz := [0.01]%float; Leptons.Electron_dxy := [0.01]%float;
     Leptons.Muon_tightId := [true]; Leptons.Muon_pfRelIso04_all := [0.1]%float;
     Leptons.Muon_pt := [5]%float; Leptons.Muon_eta := [1]%float |}.

Definition PKU : Leptons.ID := Leptons.PKU branches PrimFloat.add.

(** The event after the lepton selection kept both as good leptons. *)
Definition event : World :=
  {| nt := Sample.nano; cli := Sample.options false;
     globals :=
       SampleHbb.declare LorentzVectors "good_lep_p4s" [mkP4 50 0.5 1 50; mkP4 5 1 2 5]
         (SampleHbb.declare Integers "good_lep_pdgIDs" [11; -13]
            (SampleHbb.declare Integers "good_lep_idxs" [0; 0]
               (VBSWH.Analysis_globals ∅)));
     arbol := VBSWH.initBranches (Arbol.newBranch "MET" 30%float Arbol.empty) |}.

(** An event with two good leptons that are both tight electrons. *)
Definition two_electrons : World :=
  with_globals
    (SampleHbb.declare Integers "good_lep_pdgIDs" [11; -11] (globals event)) event.

(** The event after [Has1LepPKU], the event itself if the cut throws. *)
Definition after_Has1Lep : World :=
  match Leptons.Has1Lep_evaluate PKU SampleHbb.pt SampleHbb.eta SampleHbb.phi event with
  | Ok (_, w') => w'
  | Throw _ => event
  end.

(** A 2016 simulated event that fired the isolated-muon trigger only. *)
Definition muon_2016 : World :=
  {| nt := {| year := 2016; isData := false;
              Flag_goodVertices := true; Flag_HBHENoiseFilter := true;
              Flag_HBHENoiseIsoFilter := true;
              Flag_EcalDeadCellTriggerPrimitiveFilter := true;
              Flag_BadPFMuonFilter := true; Flag_globalSuperTightHalo2016Filter := true;
              b_HLT_IsoMu24 := Some true; b_HLT_IsoTkMu24 := Some false;
              b_HLT_IsoMu27 := None;
              b_HLT_Ele27_WPTight_Gsf := Some false;
              b_HLT_Ele32_WPTight_Gsf_L1DoubleEG := None;
              b_HLT_Ele32_WPTight_Gsf := None;
              nGenPart := 0; GenPart_pdgId := []; GenPart_status := [];
              GenPart_genPartIdxMother := []; GenPart_p4 := [] |};
     cli := Sample.options false; globals := ∅; arbol := Arbol.empty |}.

End SampleLeptons.

(** ** Sample events after a cut *)

Module SampleSelected.

(** [SampleHbb.three_fatjets] after [SelectHbbFatJet] with the
    mass-decorrelated score, the event itself if the cut throws. *)
Definition hbb : World :=
  match VBSWH.SelectHbbFatJet_evaluate SampleHbb.pt SampleHbb.eta SampleHbb.phi
          SampleHbb.DeltaR true SampleHbb.three_fatjets with
  | Ok (_, w') => w'
  | Throw _ => SampleHbb.three_fatjets
  end.

(** The same event with the lepton variables of [Core::SelectJets]
    declared, before and after the cut. *)
Definition with_leptons : World :=
  with_globals
    (SampleHbb.declare LorentzVectors "good_lep_p4s" [mkP4 50 0.5 1 50]
       (SampleHbb.declare Integers "good_lep_jet_idxs" [-1]
          (globals SampleHbb.three_fatjets)))
    SampleHbb.three_fatjets.

Definition hbb_with_leptons : World :=
  match VBSWH.SelectHbbFatJet_evaluate SampleHbb.pt SampleHbb.eta SampleHbb.phi
          SampleHbb.DeltaR true with_leptons with
  | Ok (_, w') => w'
  | Throw _ => with_leptons
  end.

(** The overlap variables loaded from it, empty ones if the load throws. *)
Definition members : SelectJetsNoHbbOverlap.Members :=
  match SelectJetsNoHbbOverlap.loadOverlapVars (globals hbb_with_leptons) with
  | Ok m => m
  | Throw _ =>
      {| SelectJetsNoHbbOverlap.good_lep_p4s := [];
         SelectJetsNoHbbOverlap.good_lep_jet_idxs := [];
         SelectJetsNoHbbOverlap.hbbjet_p4 := mkP4 0 0 0 0 |}
  end.

(** A jet overlaps the lepton whose jet index it has. *)
Definition overlapsLepton (m : SelectJetsNoHbbOverlap.Members) (jet_i : Z)
    (jet_p4 : LorentzVector) : Exn bool :=
  Ok (bool_decide (jet_i ∈ SelectJetsNoHbbOverlap.good_lep_jet_idxs m)).

End SampleSelected.

(** ** The VBSWH cutflow, as a tree *)

(** Every cut of [cs] passes in turn, from the stores [w] to [w']. *)
Fixpoint passes_all (cs : list Cut) (w w' : World) : Prop :=
  match cs with
  | [] => w' = w
  | c :: cs' => ∃ w1, evaluate c w = Ok (true, w1) ∧ passes_all cs' w1 w'
  end.

Section VBSWH_tree.

Variable cuts : VBSWHCutflow.CutClasses.
Variable leptons : Nano -> Leptons.Branches.
Variable add_branches : float -> float -> float.
Variables pt eta phi : LorentzVector -> float.
Variable DeltaR : LorentzVector -> LorentzVector -> float.
Variable WP_DeepFlav_medium : float.

(** The object selection, down to the VBS jets. *)
Definition wh_selection : list Cut :=
  [VBSVVHJets.external "Bookkeeping" (VBSWHCutflow.Bookkeeping cuts);
   VBSWH.PassesEventFilters "PassesEventFilters";
   VBSVVHJets.external "SelectLeptons" (VBSWHCutflow.SelectLeptonsPKU cuts);
   Leptons.Has1Lep (Leptons.PKU leptons add_branches) pt eta phi "Has1TightLep";
   LambdaCut "LepPtGt40" VBSWHCutflow.LepPtGt40;
   VBSWH.Passes1LepTriggers "Passes1LepTriggers";
   VBSVVHJets.external "SelectFatJets" (VBSWHCutflow.SelectFatJets cuts);
   LambdaCut "Geq1FatJet" VBSWHCutflow.Geq1FatJet;
   VBSWH.SelectHbbFatJet pt eta phi DeltaR "SelectHbbFatJet" true;
   VBSVVHJets.external "SelectJetsNoHbbOverlap" (VBSWHCutflow.SelectJets cuts);
   DressedCut "SaveAk4GlobalBVeto" (VBSWH.SaveBJetVeto_evaluate WP_DeepFlav_medium)].

Definition wh_vbsjets : Cut :=
  VBSVVHJets.external "SelectVBSJetsMaxE" (VBSWHCutflow.SelectVBSJetsMaxE cuts).

(** The preselection and the two signal regions: predicates that only
    read. *)
Definition wh_signal_region : list Cut :=
  [LambdaCut "MjjGt500_detajjGt3" VBSWHCutflow.MjjGt500_detajjGt3;
   LambdaCut "XbbGt0p3" VBSWHCutflow.XbbGt0p3;
   LambdaCut "ApplyAk4GlobalBVeto" VBSWHCutflow.ApplyAk4GlobalBVeto;
   LambdaCut "MjjGt600_detajjGt4" VBSWHCutflow.MjjGt600_detajjGt4;
   LambdaCut "STGt900" VBSWHCutflow.STGt900;
   LambdaCut "XbbGt0p9_MSDLt150" VBSWHCutflow.XbbGt0p9_MSDLt150;
   LambdaCut "STGt1500" VBSWHCutflow.STGt1500].

(** The part of the chain a run from [SelectVBSJetsMaxE] walks. *)
Definition wh_tail : Cutflow.CutTree :=
  chain_of (wh_vbsjets :: wh_signal_region) Cutflow.Null.

Definition wh_tree : Cutflow.CutTree := chain_of wh_selection wh_tail.

Definition wh_cutflow : Cutflow.t :=
  {| Cutflow.root := wh_tree; Cutflow.counters := ∅ |}.

End VBSWH_tree.

(** The thresholds of the second signal region, on the leaves [leaf] gives
    by name. *)
Definition in_signal_region (leaf : string -> option Arbol.Leaf) : Prop :=
  ∃ M_jj deta_jj hbbjet_score hbbjet_msoftdrop ST : float,
    leaf "M_jj" = Some (Arbol.LDouble M_jj)
    ∧ leaf "deta_jj" = Some (Arbol.LDouble deta_jj)
    ∧ leaf "hbbjet_score" = Some (Arbol.LDouble hbbjet_score)
    ∧ leaf "hbbjet_msoftdrop" = Some (Arbol.LDouble hbbjet_msoftdrop)
    ∧ leaf "ST" = Some (Arbol.LDouble ST)
    ∧ leaf "passes_bveto" = Some (Arbol.LBool true)
    ∧ (600 <? M_jj)%float = true
    ∧ (4 <? PrimFloat.abs deta_jj)%float = true
    ∧ (0.9 <? hbbjet_score)%float = true
    ∧ (hbbjet_msoftdrop <? 150)%float = true
    ∧ (1500 <? ST)%float = true.

(** ** The VBSVVHJets channels *)

(** The cuts before the split at [Exactly3FatJets]. *)
Definition vvh_preselection (cuts : VBSVVHJets.CutClasses) : list Cut :=
  [VBSVVHJets.external "Bookkeeping" (VBSVVHJets.Bookkeeping cuts);
   VBSVVHJets.external "SaveSystWeights" (VBSVVHJets.SaveSystWeights cuts);
   VBSWH.PassesEventFilters "PassesEventFilters";
   VBSVVHJets.external "PassesTriggers" (VBSVVHJets.PassesTriggers cuts);
   VBSVVHJets.external "SelectLeptons" (VBSVVHJets.SelectLeptonsPKU cuts);
   LambdaCut "NoLeptons" VBSVVHJets.NoLeptons;
   VBSVVHJets.external "SelectFatJets" (VBSVVHJets.SelectFatJets cuts)].

(** The thresholds at the end of the all-merged chain, on the leaves
    [leaf] gives by name. *)
Definition in_allmerged_region (leaf : string -> option Arbol.Leaf) : Prop :=
  ∃ M_jj deta_jj hbbfatjet_score ld_vqqfatjet_score ST : float,
    leaf "M_jj" = Some (Arbol.LDouble M_jj)
    ∧ leaf "deta_jj" = Some (Arbol.LDouble deta_jj)
    ∧ leaf "hbbfatjet_score" = Some (Arbol.LDouble hbbfatjet_score)
    ∧ leaf "ld_vqqfatjet_score" = Some (Arbol.LDouble ld_vqqfatjet_score)
    ∧ leaf "ST" = Some (Arbol.LDouble ST)
    ∧ leaf "passes_bveto" = Some (Arbol.LBool true)
    ∧ (600 <? M_jj)%float = true
    ∧ (4 <? PrimFloat.abs deta_jj)%float = true
    ∧ (0.9 <? hbbfatjet_score)%float = true
    ∧ (0.7 <? ld_vqqfatjet_score)%float = true
    ∧ (1500 <? ST)%float = true.

(** The threshold at the end of the semi-merged chain. *)
Definition in_semimerged_region (leaf : string -> option Arbol.Leaf) : Prop :=
  ∃ M_jj : float, leaf "M_jj" = Some (Arbol.LDouble M_jj) ∧ (500 <? M_jj)%float = true.

(** The outcome of the sample event with [n] fat jets. *)
Definition vvh_outcome (n : Z) : Cutflow.Outcome :=
  Sample.outcome_or_none
    (Cutflow.run "Bookkeeping" (vvh_cutflow SampleVVH.pass_all) (SampleVVH.fatjets n))
    (SampleVVH.fatjets n).

(** ** Sample events for the VBSWH cutflow *)

Module SampleWH.

Definition pass_all : VBSWHCutflow.CutClasses :=
  {| VBSWHCutflow.Bookkeeping := SampleVVH.pass;
     VBSWHCutflow.SelectLeptonsPKU := SampleVVH.pass;
     VBSWHCutflow.SelectFatJets := SampleVVH.pass;
     VBSWHCutflow.SelectJets := SampleVVH.pass;
     VBSWHCutflow.SelectVBSJetsMaxE := SampleVVH.pass |}.

Definition cutflow : Cutflow.t :=
  wh_cutflow pass_all SampleLeptons.branches PrimFloat.add SampleHbb.pt SampleHbb.eta
    SampleHbb.phi SampleHbb.DeltaR 0.3%float.

(** Branches as the selection leaves them for an event of the second
    signal region, set as their own defaults so that the reset keeps
    them. *)
Definition signal_arbol : Arbol.t :=
  Arbol.newBranch "M_jj" 700%float
    (Arbol.newBranch "deta_jj" (-5)%float
       (Arbol.newBranch "hbbjet_score" 0.95%float
          (Arbol.newBranch "hbbjet_msoftdrop" 120%float
             (Arbol.newBranch "ST" 2000%float
                (Arbol.newBranch "passes_bveto" true Arbol.empty))))).

Definition signal : World :=
  {| nt := Sample.nano; cli := Sample.options false; globals := ∅; arbol := signal_arbol |}.

Definition state : Main.State :=
  {| Main.looper := {| Main.n_events_processed := 0; Main.n_events_total := 10;
                       Main.stopped := false |};
     Main.cutflow := cutflow;
     Main.world := signal |}.

Definition outcome : Cutflow.Outcome :=
  Sample.outcome_or_none (Cutflow.run "SelectVBSJetsMaxE" cutflow signal) signal.

(** An event with two jets below the b-tag working point 0.3. *)
Definition jets (btags : Doubles) : World :=
  {| nt := Sample.nano; cli := Sample.options false;
     globals := SampleHbb.declare Doubles "good_jet_btags" btags ∅;
     arbol := VBSWH.initBranches Arbol.empty |}.

Definition after_SaveBJetVeto (btags : Doubles) : World :=
  match VBSWH.SaveBJetVeto_evaluate 0.3%float (jets btags) with
  | Ok (_, w') => w'
  | Throw _ => jets btags
  end.

(** The partons of the hard process, one of them a b quark. *)
Definition LHEPart_pdgId (b_quark : bool) (nt : Nano) : Integers :=
  if b_quark then [2; -5; 1] else [2; -1; 1].

Definition ewk_file : World :=
  {| nt := Sample.nano;
     cli := {| debug := false; is_data := false; file_name := "EWKWMinus2Jets.root" |};
     globals := ∅; arbol := Arbol.empty |}.

End SampleWH.

(** * Properties *)

(** ** The traversal and its path *)

Lemma path_nonempty c l r w vs w' :
  Cutflow.path (Cutflow.Node c l r) w = Ok (vs, w') -> vs ≠ [].
Proof.
  simpl. destruct (evaluate c w) as [[[] w1]|e]; simpl; [| |discriminate].
  - destruct (weight c w1) as [k|e]; simpl; [|discriminate].
    destruct (Cutflow.path r w1) as [[vs' w2]|e]; simpl; [|discriminate].
    intros [= <- _]. discriminate.
  - destruct (Cutflow.path l w1) as [[vs' w2]|e]; simpl; [|discriminate].
    intros [= <- _]. discriminate.
Qed.

Lemma outcome_of_cons_passed n k vs w wgt cs :
  vs ≠ [] ->
  Cutflow.outcome_of (Cutflow.Passed n k :: vs) w wgt cs
  = Cutflow.outcome_of vs w (wgt * k)%float (Cutflow.count_pass n (wgt * k)%float cs).
Proof. destruct vs; [contradiction|reflexivity]. Qed.

Lemma outcome_of_cons_failed n vs w wgt cs :
  vs ≠ [] ->
  Cutflow.outcome_of (Cutflow.Failed n :: vs) w wgt cs
  = Cutflow.outcome_of vs w wgt (Cutflow.count_fail n cs).
Proof. destruct vs; [contradiction|reflexivity]. Qed.

(** The traversal loop yields the outcome of the path it visits, and throws
    what the path throws. *)
Lemma walk_path tr :
  tr ≠ Cutflow.Null ->
  ∀ w wgt cs,
    Cutflow.walk tr w wgt cs
    = '(vs, w') ← Cutflow.path tr w; Ok (Cutflow.outcome_of vs w' wgt cs).
Proof.
  induction tr as [|c l IHl r IHr]; [contradiction|]. intros _ w wgt cs.
  cbn [Cutflow.walk Cutflow.path].
  destruct (evaluate c w) as [[[] w1]|e]; simpl; [| |reflexivity].
  - destruct (weight c w1) as [k|e]; simpl; [|reflexivity].
    destruct r as [|cr rl rr]; [reflexivity|].
    rewrite IHr by discriminate.
    destruct (Cutflow.path (Cutflow.Node cr rl rr) w1) as [[vs w2]|e] eqn:Hp;
      simpl; [|reflexivity].
    rewrite outcome_of_cons_passed by (eapply path_nonempty; exact Hp). reflexivity.
  - destruct l as [|cl ll lr]; [reflexivity|].
    rewrite IHl by discriminate.
    destruct (Cutflow.path (Cutflow.Node cl ll lr) w1) as [[vs w2]|e] eqn:Hp;
      simpl; [|reflexivity].
    rewrite outcome_of_cons_failed by (eapply path_nonempty; exact Hp). reflexivity.
Qed.

Lemma find_Node n tr s : Cutflow.find n tr = Some s -> s ≠ Cutflow.Null.
Proof.
  induction tr as [|c l IHl r IHr]; simpl; [discriminate|].
  destruct (String.eqb (name c) n); [intros [= <-]; discriminate|].
  destruct (Cutflow.find n l); [intros [= <-]; auto|auto].
Qed.

(** [run] is the outcome of [run_path]. *)
Lemma run_run_path start cf w :
  Cutflow.run start cf w
  = '(vs, w') ← Cutflow.run_path start cf w;
    Ok (Cutflow.outcome_of vs w' 1 (Cutflow.counters cf)).
Proof.
  unfold Cutflow.run, Cutflow.run_path.
  destruct (Cutflow.find start (Cutflow.root cf)) as [tr|] eqn:Hfind; [|reflexivity].
  apply walk_path. eapply find_Node; exact Hfind.
Qed.

(** C7: the cumulative weight of a traversal is 1.0 multiplied, in path
    order, by the contributions of exactly the visits that passed; when the
    first visit is a bookkeeping node that passes with contribution [seed],
    it is [1.0 * seed] multiplied by the contributions of the later visits
    that passed. *)
Theorem cumulative_weight_is_product (start : string) (cf : Cutflow.t) (w : World)
    (o : Cutflow.Outcome) :
  Cutflow.run start cf w = Ok o ->
  ∃ vs w',
    Cutflow.run_path start cf w = Ok (vs, w')
    ∧ Cutflow.final_weight o = fold_left PrimFloat.mul (Cutflow.contributions vs) 1%float
    ∧ (∀ n seed rest, vs = Cutflow.Passed n seed :: rest ->
         Cutflow.final_weight o
         = fold_left PrimFloat.mul (Cutflow.contributions rest) (1 * seed)%float)
    ∧ (∀ n rest, vs = Cutflow.Failed n :: rest ->
         Cutflow.final_weight o
         = fold_left PrimFloat.mul (Cutflow.contributions rest) 1%float).
Proof.
  rewrite run_run_path.
  destruct (Cutflow.run_path start cf w) as [[vs w']|e]; simpl; [|discriminate].
  intros [= <-]. exists vs, w'. split; [reflexivity|]. split; [reflexivity|].
  split; intros; subst vs; reflexivity.
Qed.

Lemma cumulative_weight_is_product_witness :
  ∃ vs w',
    Cutflow.run_path "Bookkeeping" Sample.weighted Sample.lepton_event = Ok (vs, w')
    ∧ Cutflow.final_weight Sample.weighted_outcome
      = fold_left PrimFloat.mul (Cutflow.contributions vs) 1%float
    ∧ (∀ n seed rest, vs = Cutflow.Passed n seed :: rest ->
         Cutflow.final_weight Sample.weighted_outcome
         = fold_left PrimFloat.mul (Cutflow.contributions rest) (1 * seed)%float)
    ∧ (∀ n rest, vs = Cutflow.Failed n :: rest ->
         Cutflow.final_weight Sample.weighted_outcome
         = fold_left PrimFloat.mul (Cutflow.contributions rest) 1%float).
Proof.
  apply (cumulative_weight_is_product "Bookkeeping" Sample.weighted Sample.lepton_event).
  vm_compute. reflexivity.
Defined.

Example weighted_outcome_weight :
  Cutflow.final_weight Sample.weighted_outcome = 1%float
  ∧ Cutflow.accepted Sample.weighted_outcome = false
  ∧ Cutflow.terminal Sample.weighted_outcome = "LepPtGt40".
Proof. vm_compute. auto. Qed.

(** ** Determinism *)

Lemma same_cuts_find t1 t2 n :
  Cutflow.same_cuts t1 t2 ->
  match Cutflow.find n t1, Cutflow.find n t2 with
  | Some s1, Some s2 => Cutflow.same_cuts s1 s2
  | None, None => True
  | _, _ => False
  end.
Proof.
  induction 1 as [|c1 c2 l1 l2 r1 r2 Hn He Hw Hl IHl Hr IHr]; simpl; [exact I|].
  rewrite <- Hn. destruct (String.eqb (name c1) n).
  - constructor; assumption.
  - destruct (Cutflow.find n l1), (Cutflow.find n l2); try contradiction; assumption.
Qed.

Lemma same_cuts_path t1 t2 :
  Cutflow.same_cuts t1 t2 -> ∀ w, Cutflow.path t1 w = Cutflow.path t2 w.
Proof.
  induction 1 as [|c1 c2 l1 l2 r1 r2 Hn He Hw Hl IHl Hr IHr]; intros w; [reflexivity|].
  simpl. rewrite <- He, <- Hn.
  destruct (evaluate c1 w) as [[[] w1]|e]; simpl; [| |reflexivity].
  - rewrite <- Hw. destruct (weight c1 w1); simpl; [|reflexivity].
    rewrite IHr. reflexivity.
  - rewrite IHl. reflexivity.
Qed.

(** C6: two cutflows of the same shape whose cuts behave alike, whatever
    their counters, started at the same node on the same stores, visit the
    same path, end in the same verdict, weight and terminal node and leave
    the same stores, or throw the same exception. *)
Theorem traversal_deterministic (cf1 cf2 : Cutflow.t) (start : string) (w : World) :
  Cutflow.same_cuts (Cutflow.root cf1) (Cutflow.root cf2) ->
  Cutflow.run_path start cf1 w = Cutflow.run_path start cf2 w
  ∧ Cutflow.view <$> Cutflow.run start cf1 w = Cutflow.view <$> Cutflow.run start cf2 w.
Proof.
  intros Hsame.
  assert (Hpath : Cutflow.run_path start cf1 w = Cutflow.run_path start cf2 w).
  { unfold Cutflow.run_path. pose proof (same_cuts_find _ _ start Hsame) as Hfind.
    destruct (Cutflow.find start (Cutflow.root cf1)),
             (Cutflow.find start (Cutflow.root cf2)); try contradiction; [|reflexivity].
    apply same_cuts_path. exact Hfind. }
  split; [exact Hpath|].
  rewrite !run_run_path, Hpath.
  destruct (Cutflow.run_path start cf2 w) as [[vs w']|e]; reflexivity.
Qed.

Lemma traversal_deterministic_witness :
  Cutflow.run_path "SelectVBSJetsMaxE" (Sample.chain 1000) (Main.world (Sample.state false 7 1000))
  = Cutflow.run_path "SelectVBSJetsMaxE" (Sample.used_chain 1000) (Main.world (Sample.state false 7 1000))
  ∧ Cutflow.view <$> Cutflow.run "SelectVBSJetsMaxE" (Sample.chain 1000) (Main.world (Sample.state false 7 1000))
    = Cutflow.view <$> Cutflow.run "SelectVBSJetsMaxE" (Sample.used_chain 1000)
                         (Main.world (Sample.state false 7 1000)).
Proof.
  apply (traversal_deterministic (Sample.chain 1000) (Sample.used_chain 1000)).
  repeat constructor.
Defined.

(** ** Branching nodes *)

Lemma path_Node_inv c l r w vs w' :
  Cutflow.path (Cutflow.Node c l r) w = Ok (vs, w') ->
  ∃ w1 vs',
    (∃ k, evaluate c w = Ok (true, w1) ∧ weight c w1 = Ok k
          ∧ Cutflow.path r w1 = Ok (vs', w') ∧ vs = Cutflow.Passed (name c) k :: vs')
    ∨ (evaluate c w = Ok (false, w1)
       ∧ Cutflow.path l w1 = Ok (vs', w') ∧ vs = Cutflow.Failed (name c) :: vs').
Proof.
  simpl. destruct (evaluate c w) as [[[] w1]|e]; simpl; [| |discriminate].
  - destruct (weight c w1) as [k|e] eqn:Hk; simpl; [|discriminate].
    destruct (Cutflow.path r w1) as [[vs' w2]|e] eqn:Hp; simpl; [|discriminate].
    intros [= <- <-]. exists w1, vs'. left. exists k. auto.
  - destruct (Cutflow.path l w1) as [[vs' w2]|e] eqn:Hp; simpl; [|discriminate].
    intros [= <- <-]. exists w1, vs'. right. auto.
Qed.

Lemma n_visits_Passed n m k vs :
  Cutflow.n_visits n (Cutflow.Passed m k :: vs)
  = ((if String.eqb m n then 1 else 0) + Cutflow.n_visits n vs)%nat
  ∧ Cutflow.n_passes n (Cutflow.Passed m k :: vs)
    = ((if String.eqb m n then 1 else 0) + Cutflow.n_passes n vs)%nat
  ∧ Cutflow.n_fails n (Cutflow.Passed m k :: vs) = Cutflow.n_fails n vs.
Proof.
  unfold Cutflow.n_visits, Cutflow.n_passes, Cutflow.n_fails, Cutflow.is_visit.
  simpl. destruct (String.eqb m n); auto.
Qed.

Lemma n_visits_Failed n m vs :
  Cutflow.n_visits n (Cutflow.Failed m :: vs)
  = ((if String.eqb m n then 1 else 0) + Cutflow.n_visits n vs)%nat
  ∧ Cutflow.n_passes n (Cutflow.Failed m :: vs) = Cutflow.n_passes n vs
  ∧ Cutflow.n_fails n (Cutflow.Failed m :: vs)
    = ((if String.eqb m n then 1 else 0) + Cutflow.n_fails n vs)%nat.
Proof.
  unfold Cutflow.n_visits, Cutflow.n_passes, Cutflow.n_fails, Cutflow.is_visit.
  simpl. destruct (String.eqb m n); auto.
Qed.

Lemma n_visits_split n vs :
  Cutflow.n_visits n vs = (Cutflow.n_passes n vs + Cutflow.n_fails n vs)%nat.
Proof.
  induction vs as [|[m k|m] vs IH]; [reflexivity| |].
  - destruct (n_visits_Passed n m k vs) as (-> & -> & ->). lia.
  - destruct (n_visits_Failed n m vs) as (-> & -> & ->). lia.
Qed.

(** A path only visits nodes of the tree it starts in. *)
Lemma path_within tr :
  ∀ w vs w' n,
    Cutflow.path tr w = Ok (vs, w') -> n ∉ Cutflow.names tr -> Cutflow.n_visits n vs = 0%nat.
Proof.
  induction tr as [|c l IHl r IHr]; intros w vs w' n Hp Hn.
  - injection Hp as <- _. reflexivity.
  - apply path_Node_inv in Hp as (w1 & vs' & [(k & _ & _ & Hp & ->)|(_ & Hp & ->)]);
      simpl in Hn; rewrite not_elem_of_cons, not_elem_of_app in Hn;
      destruct Hn as (Hc & Hl & Hr);
      assert (Hc' : String.eqb (name c) n = false) by (apply String.eqb_neq; congruence).
    + destruct (n_visits_Passed n (name c) k vs') as (-> & _). rewrite Hc'.
      rewrite (IHr _ _ _ _ Hp Hr). reflexivity.
    + destruct (n_visits_Failed n (name c) vs') as (-> & _). rewrite Hc'.
      rewrite (IHl _ _ _ _ Hp Hl). reflexivity.
Qed.

Lemma path_without tr w vs w' n :
  Cutflow.path tr w = Ok (vs, w') -> n ∉ Cutflow.names tr ->
  Cutflow.n_visits n vs = 0%nat ∧ Cutflow.n_passes n vs = 0%nat
  ∧ Cutflow.n_fails n vs = 0%nat.
Proof.
  intros Hp Hn. pose proof (path_within _ _ _ _ _ Hp Hn) as H0.
  pose proof (n_visits_split n vs). lia.
Qed.

Lemma NoDup_names_inv c l r :
  NoDup (Cutflow.names (Cutflow.Node c l r)) ->
  (name c ∉ Cutflow.names l) ∧ (name c ∉ Cutflow.names r)
  ∧ NoDup (Cutflow.names l) ∧ NoDup (Cutflow.names r)
  ∧ (∀ n, n ∈ Cutflow.names l -> n ∉ Cutflow.names r).
Proof.
  simpl. rewrite NoDup_cons, not_elem_of_app, NoDup_app.
  intros ((Hcl & Hcr) & Hl & Hdisjoint & Hr). auto.
Qed.

(** With unique names a path visits a node at most once. *)
Lemma path_once tr :
  NoDup (Cutflow.names tr) ->
  ∀ w vs w' n, Cutflow.path tr w = Ok (vs, w') -> (Cutflow.n_visits n vs ≤ 1)%nat.
Proof.
  induction tr as [|c l IHl r IHr]; intros Hnd w vs w' n Hp.
  - injection Hp as <- _. unfold Cutflow.n_visits. simpl. lia.
  - apply NoDup_names_inv in Hnd as (Hcl & Hcr & Hl & Hr & _).
    apply path_Node_inv in Hp as (w1 & vs' & [(k & _ & _ & Hp & ->)|(_ & Hp & ->)]).
    + destruct (n_visits_Passed n (name c) k vs') as (-> & _).
      destruct (String.eqb_spec (name c) n) as [<-|_].
      * rewrite (path_within _ _ _ _ _ Hp Hcr). lia.
      * specialize (IHr Hr _ _ _ n Hp). lia.
    + destruct (n_visits_Failed n (name c) vs') as (-> & _).
      destruct (String.eqb_spec (name c) n) as [<-|_].
      * rewrite (path_within _ _ _ _ _ Hp Hcl). lia.
      * specialize (IHl Hl _ _ _ n Hp). lia.
Qed.

Lemma path_head c l r w vs w' :
  Cutflow.path (Cutflow.Node c l r) w = Ok (vs, w') ->
  (1 ≤ Cutflow.n_visits (name c) vs)%nat.
Proof.
  intros Hp. apply path_Node_inv in Hp as (w1 & vs' & [(k & _ & _ & _ & ->)|(_ & _ & ->)]).
  - destruct (n_visits_Passed (name c) (name c) k vs') as (-> & _).
    rewrite String.eqb_refl. lia.
  - destruct (n_visits_Failed (name c) (name c) vs') as (-> & _).
    rewrite String.eqb_refl. lia.
Qed.

Lemma subtree_names s tr :
  Cutflow.subtree s tr -> ∀ n, n ∈ Cutflow.names s -> n ∈ Cutflow.names tr.
Proof.
  induction 1 as [|c l r _ IH|c l r _ IH]; intros n Hn; [exact Hn| |]; simpl;
    rewrite elem_of_cons, elem_of_app; auto.
Qed.

Lemma subtree_NoDup s tr :
  Cutflow.subtree s tr -> NoDup (Cutflow.names tr) -> NoDup (Cutflow.names s).
Proof.
  induction 1 as [|c l r _ IH|c l r _ IH]; intros Hnd; [exact Hnd| |];
    apply NoDup_names_inv in Hnd as (_ & _ & Hl & Hr & _); auto.
Qed.

Lemma names_head c l r : name c ∈ Cutflow.names (Cutflow.Node c l r).
Proof. simpl. apply elem_of_cons. auto. Qed.

Lemma counts_cons_other n v vs :
  Cutflow.visited v ≠ n ->
  Cutflow.n_visits n (v :: vs) = Cutflow.n_visits n vs
  ∧ Cutflow.n_passes n (v :: vs) = Cutflow.n_passes n vs
  ∧ Cutflow.n_fails n (v :: vs) = Cutflow.n_fails n vs.
Proof.
  intros Hne. destruct v as [m k|m]; simpl in Hne; apply String.eqb_neq in Hne.
  - destruct (n_visits_Passed n m k vs) as (-> & -> & ->). rewrite Hne. auto.
  - destruct (n_visits_Failed n m vs) as (-> & -> & ->). rewrite Hne. auto.
Qed.

(** A path through a node with unique names below it: the counts of a name
    of one subtree are those of the part of the path inside that subtree,
    which is empty when the path took the other side. *)
Lemma path_Node_counts c l r w vs w' :
  NoDup (Cutflow.names (Cutflow.Node c l r)) ->
  Cutflow.path (Cutflow.Node c l r) w = Ok (vs, w') ->
  ∃ v w1 vs',
    vs = v :: vs' ∧ Cutflow.visited v = name c
    ∧ ((Cutflow.is_pass (name c) v = true ∧ Cutflow.path r w1 = Ok (vs', w')
        ∧ ∀ n, n ∈ Cutflow.names l -> Cutflow.n_visits n vs' = 0%nat)
       ∨ (Cutflow.is_fail (name c) v = true ∧ Cutflow.path l w1 = Ok (vs', w')
          ∧ ∀ n, n ∈ Cutflow.names r -> Cutflow.n_visits n vs' = 0%nat)).
Proof.
  intros Hnd Hp. apply NoDup_names_inv in Hnd as (Hcl & Hcr & Hl & Hr & Hdisjoint).
  apply path_Node_inv in Hp as (w1 & vs' & [(k & _ & _ & Hp & ->)|(_ & Hp & ->)]).
  - exists (Cutflow.Passed (name c) k), w1, vs'. split; [reflexivity|].
    split; [reflexivity|]. left. simpl. rewrite String.eqb_refl.
    split; [reflexivity|]. split; [exact Hp|].
    intros n Hn. eapply path_within; [exact Hp|]. auto.
  - exists (Cutflow.Failed (name c)), w1, vs'. split; [reflexivity|].
    split; [reflexivity|]. right. simpl. rewrite String.eqb_refl.
    split; [reflexivity|]. split; [exact Hp|].
    intros n Hn. eapply path_within; [exact Hp|]. intros Hn'.
    exact (Hdisjoint n Hn' Hn).
Qed.

(** In a tree with unique names, a path enters the pass successor of a node
    exactly when it passes the node, and the fail successor exactly when it
    fails it. *)
Lemma branch_visits tr :
  NoDup (Cutflow.names tr) ->
  ∀ c l r, Cutflow.subtree (Cutflow.Node c l r) tr ->
  ∀ w vs w', Cutflow.path tr w = Ok (vs, w') ->
    (∀ cr rl rr, r = Cutflow.Node cr rl rr ->
       Cutflow.n_visits (name cr) vs = Cutflow.n_passes (name c) vs)
    ∧ (∀ cl ll lr, l = Cutflow.Node cl ll lr ->
         Cutflow.n_visits (name cl) vs = Cutflow.n_fails (name c) vs).
Proof.
  induction tr as [|c0 l0 IHl r0 IHr]; intros Hnd c l r Hsub w vs w' Hp;
    [inversion Hsub|].
  pose proof (path_Node_counts _ _ _ _ _ _ Hnd Hp) as (v & w1 & vs' & -> & Hv & Hside).
  pose proof (NoDup_names_inv _ _ _ Hnd) as (Hcl & Hcr & Hl & Hr & Hdisjoint).
  assert (Hzero : ∀ n tr' w1, Cutflow.path tr' w1 = Ok (vs', w') ->
            n ∉ Cutflow.names tr' ->
            Cutflow.n_passes n vs' = 0%nat ∧ Cutflow.n_fails n vs' = 0%nat).
  { intros n tr' w2 Hp' Hn. pose proof (path_without _ _ _ _ _ Hp' Hn). tauto. }
  assert (Hv0 : ∀ n, Cutflow.n_visits n vs' = 0%nat ->
            Cutflow.n_passes n vs' = 0%nat ∧ Cutflow.n_fails n vs' = 0%nat).
  { intros n H0. pose proof (n_visits_split n vs'). lia. }
  inversion Hsub as [Heq|c' l' r' Hin Heq|c' l' r' Hin Heq]; subst.
  - (* the branching node is the root of the path *)
    split.
    + intros cr rl rr ->.
      assert (Hne : Cutflow.visited v ≠ name cr).
      { rewrite Hv. intros Heq. apply Hcr. rewrite Heq. apply names_head. }
      destruct (counts_cons_other _ _ vs' Hne) as (-> & _).
      destruct Hside as [(Hpass & Hp' & _)|(Hfail & Hp' & Hout)].
      * pose proof (path_head _ _ _ _ _ _ Hp'). pose proof (path_once _ Hr _ _ _ (name cr) Hp').
        destruct v as [m k|m]; [|discriminate]. simpl in Hv. subst m.
        destruct (n_visits_Passed (name c0) (name c0) k vs') as (_ & E & _).
        rewrite E, String.eqb_refl. destruct (Hzero (name c0) _ _ Hp' Hcr) as (-> & _). lia.
      * rewrite (Hout (name cr) (names_head _ _ _)).
        destruct v as [m k|m]; [discriminate|]. simpl in Hv. subst m.
        destruct (n_visits_Failed (name c0) (name c0) vs') as (_ & E & _).
        rewrite E. destruct (Hzero (name c0) _ _ Hp' Hcl) as (-> & _). reflexivity.
    + intros cl ll lr ->.
      assert (Hne : Cutflow.visited v ≠ name cl).
      { rewrite Hv. intros Heq. apply Hcl. rewrite Heq. apply names_head. }
      destruct (counts_cons_other _ _ vs' Hne) as (-> & _).
      destruct Hside as [(Hpass & Hp' & Hout)|(Hfail & Hp' & _)].
      * rewrite (Hout (name cl) (names_head _ _ _)).
        destruct v as [m k|m]; [|discriminate]. simpl in Hv. subst m.
        destruct (n_visits_Passed (name c0) (name c0) k vs') as (_ & _ & E).
        rewrite E. destruct (Hzero (name c0) _ _ Hp' Hcr) as (_ & ->). reflexivity.
      * pose proof (path_head _ _ _ _ _ _ Hp'). pose proof (path_once _ Hl _ _ _ (name cl) Hp').
        destruct v as [m k|m]; [discriminate|]. simpl in Hv. subst m.
        destruct (n_visits_Failed (name c0) (name c0) vs') as (_ & _ & E).
        rewrite E, String.eqb_refl. destruct (Hzero (name c0) _ _ Hp' Hcl) as (_ & ->). lia.
  - (* the branching node is below the fail successor *)
    assert (Hin' : ∀ n, n ∈ Cutflow.names (Cutflow.Node c l r) -> n ∈ Cutflow.names l0)
      by (apply subtree_names; exact Hin).
    assert (Hother : ∀ n, n ∈ Cutflow.names (Cutflow.Node c l r) -> Cutflow.visited v ≠ n).
    { intros n Hn Heq. apply Hcl. rewrite <- Hv, Heq. auto. }
    assert (Hc : name c ∈ Cutflow.names (Cutflow.Node c l r)) by apply names_head.
    destruct (counts_cons_other _ _ vs' (Hother _ Hc)) as (_ & -> & ->).
    split.
    + intros cr rl rr ->.
      assert (Hcr' : name cr ∈ Cutflow.names (Cutflow.Node c l (Cutflow.Node cr rl rr))).
      { simpl. rewrite elem_of_cons, elem_of_app, elem_of_cons. auto. }
      destruct (counts_cons_other _ _ vs' (Hother _ Hcr')) as (-> & _).
      destruct Hside as [(_ & Hp' & Hout)|(_ & Hp' & _)].
      * rewrite (Hout _ (Hin' _ Hcr')). destruct (Hv0 _ (Hout _ (Hin' _ Hc))) as (-> & _).
        reflexivity.
      * destruct (IHl Hl _ _ _ Hin _ _ _ Hp') as (IH & _). eapply IH. reflexivity.
    + intros cl ll lr ->.
      assert (Hcl' : name cl ∈ Cutflow.names (Cutflow.Node c (Cutflow.Node cl ll lr) r)).
      { simpl. rewrite !elem_of_cons. auto. }
      destruct (counts_cons_other _ _ vs' (Hother _ Hcl')) as (-> & _).
      destruct Hside as [(_ & Hp' & Hout)|(_ & Hp' & _)].
      * rewrite (Hout _ (Hin' _ Hcl')). destruct (Hv0 _ (Hout _ (Hin' _ Hc))) as (_ & ->).
        reflexivity.
      * destruct (IHl Hl _ _ _ Hin _ _ _ Hp') as (_ & IH). eapply IH. reflexivity.
  - (* the branching node is below the pass successor *)
    assert (Hin' : ∀ n, n ∈ Cutflow.names (Cutflow.Node c l r) -> n ∈ Cutflow.names r0)
      by (apply subtree_names; exact Hin).
    assert (Hother : ∀ n, n ∈ Cutflow.names (Cutflow.Node c l r) -> Cutflow.visited v ≠ n).
    { intros n Hn Heq. apply Hcr. rewrite <- Hv, Heq. auto. }
    assert (Hc : name c ∈ Cutflow.names (Cutflow.Node c l r)) by apply names_head.
    destruct (counts_cons_other _ _ vs' (Hother _ Hc)) as (_ & -> & ->).
    split.
    + intros cr rl rr ->.
      assert (Hcr' : name cr ∈ Cutflow.names (Cutflow.Node c l (Cutflow.Node cr rl rr))).
      { simpl. rewrite elem_of_cons, elem_of_app, elem_of_cons. auto. }
      destruct (counts_cons_other _ _ vs' (Hother _ Hcr')) as (-> & _).
      destruct Hside as [(_ & Hp' & _)|(_ & Hp' & Hout)].
      * destruct (IHr Hr _ _ _ Hin _ _ _ Hp') as (IH & _). eapply IH. reflexivity.
      * rewrite (Hout _ (Hin' _ Hcr')). destruct (Hv0 _ (Hout _ (Hin' _ Hc))) as (-> & _).
        reflexivity.
    + intros cl ll lr ->.
      assert (Hcl' : name cl ∈ Cutflow.names (Cutflow.Node c (Cutflow.Node cl ll lr) r)).
      { simpl. rewrite !elem_of_cons. auto. }
      destruct (counts_cons_other _ _ vs' (Hother _ Hcl')) as (-> & _).
      destruct Hside as [(_ & Hp' & _)|(_ & Hp' & Hout)].
      * destruct (IHr Hr _ _ _ Hin _ _ _ Hp') as (_ & IH). eapply IH. reflexivity.
      * rewrite (Hout _ (Hin' _ Hcl')). destruct (Hv0 _ (Hout _ (Hin' _ Hc))) as (_ & ->).
        reflexivity.
Qed.

Lemma find_subtree n tr s : Cutflow.find n tr = Some s -> Cutflow.subtree s tr.
Proof.
  induction tr as [|c l IHl r IHr]; simpl; [discriminate|].
  destruct (String.eqb (name c) n); [intros [= <-]; constructor|].
  destruct (Cutflow.find n l) as [s'|].
  - intros [= <-]. apply Cutflow.subtree_left. auto.
  - intros Hr. apply Cutflow.subtree_right. auto.
Qed.

Lemma find_outside n tr : n ∉ Cutflow.names tr -> Cutflow.find n tr = None.
Proof.
  induction tr as [|c l IHl r IHr]; simpl; [reflexivity|].
  rewrite not_elem_of_cons, not_elem_of_app. intros (Hc & Hl & Hr).
  assert (Hc' : String.eqb (name c) n = false) by (apply String.eqb_neq; congruence).
  rewrite Hc', (IHl Hl). auto.
Qed.

Lemma find_inside n tr : n ∈ Cutflow.names tr -> is_Some (Cutflow.find n tr).
Proof.
  induction tr as [|c l IHl r IHr]; simpl; [intros H; apply elem_of_nil in H; contradiction|].
  rewrite elem_of_cons, elem_of_app.
  destruct (String.eqb_spec (name c) n) as [_|Hne]; [eauto|].
  intros [Heq|[Hl|Hr]]; [congruence| |].
  - destruct (IHl Hl) as [s ->]. eauto.
  - destruct (Cutflow.find n l); eauto.
Qed.

(** With unique names, a node is found in a subtree that has it as it is
    found in the whole tree. *)
Lemma find_stable n s tr :
  Cutflow.subtree s tr -> NoDup (Cutflow.names tr) -> n ∈ Cutflow.names s ->
  Cutflow.find n s = Cutflow.find n tr.
Proof.
  induction 1 as [|c l r Hsub IH|c l r Hsub IH]; intros Hnd Hn; [reflexivity| |];
    apply NoDup_names_inv in Hnd as (Hcl & Hcr & Hl & Hr & Hdisjoint);
    pose proof (subtree_names _ _ Hsub _ Hn) as Hn'; rewrite IH by assumption; simpl.
  - assert (Hc : String.eqb (name c) n = false)
      by (apply String.eqb_neq; intros Heq; apply Hcl; rewrite Heq; exact Hn').
    rewrite Hc. destruct (find_inside _ _ Hn') as [s' ->]. reflexivity.
  - assert (Hc : String.eqb (name c) n = false)
      by (apply String.eqb_neq; intros Heq; apply Hcr; rewrite Heq; exact Hn').
    rewrite Hc. rewrite (find_outside n l); [reflexivity|].
    intros Hl'. exact (Hdisjoint _ Hl' Hn').
Qed.

(** *** Counters *)

Lemma counter_insert n m (v : Cutflow.Counter) (cs : gmap string Cutflow.Counter) :
  Cutflow.counter n (<[m := v]> cs) = if String.eqb m n then v else Cutflow.counter n cs.
Proof.
  unfold Cutflow.counter. destruct (String.eqb_spec m n) as [->|Hne].
  - rewrite lookup_insert_eq. reflexivity.
  - rewrite lookup_insert_ne by exact Hne. reflexivity.
Qed.

Lemma counter_count_pass n m x cs :
  Cutflow.n_pass (Cutflow.counter n (Cutflow.count_pass m x cs))
  = ((if String.eqb m n then 1 else 0) + Cutflow.n_pass (Cutflow.counter n cs))%nat
  ∧ Cutflow.n_fail (Cutflow.counter n (Cutflow.count_pass m x cs))
    = Cutflow.n_fail (Cutflow.counter n cs).
Proof.
  unfold Cutflow.count_pass. rewrite counter_insert.
  destruct (String.eqb m n) eqn:E; [|auto].
  apply String.eqb_eq in E. subst m. auto.
Qed.

Lemma counter_count_fail n m cs :
  Cutflow.n_pass (Cutflow.counter n (Cutflow.count_fail m cs))
  = Cutflow.n_pass (Cutflow.counter n cs)
  ∧ Cutflow.n_fail (Cutflow.counter n (Cutflow.count_fail m cs))
    = ((if String.eqb m n then 1 else 0) + Cutflow.n_fail (Cutflow.counter n cs))%nat.
Proof.
  unfold Cutflow.count_fail. rewrite counter_insert.
  destruct (String.eqb m n) eqn:E; [|auto].
  apply String.eqb_eq in E. subst m. auto.
Qed.

(** The counters of a node grow by the visits the path pays to it. *)
Lemma tally_counter n vs :
  ∀ wgt cs,
    Cutflow.n_pass (Cutflow.counter n (Cutflow.tally vs wgt cs))
    = (Cutflow.n_pass (Cutflow.counter n cs) + Cutflow.n_passes n vs)%nat
    ∧ Cutflow.n_fail (Cutflow.counter n (Cutflow.tally vs wgt cs))
      = (Cutflow.n_fail (Cutflow.counter n cs) + Cutflow.n_fails n vs)%nat.
Proof.
  induction vs as [|[m k|m] vs IH]; intros wgt cs; simpl.
  - unfold Cutflow.n_passes, Cutflow.n_fails. simpl. lia.
  - destruct (IH (wgt * k)%float (Cutflow.count_pass m (wgt * k)%float cs)) as (-> & ->).
    destruct (counter_count_pass n m (wgt * k)%float cs) as (-> & ->).
    destruct (n_visits_Passed n m k vs) as (_ & -> & ->). lia.
  - destruct (IH wgt (Cutflow.count_fail m cs)) as (-> & ->).
    destruct (counter_count_fail n m cs) as (-> & ->).
    destruct (n_visits_Failed n m vs) as (_ & -> & ->). lia.
Qed.

Lemma tally_entries n vs wgt cs :
  Cutflow.entries n (Cutflow.tally vs wgt cs)
  = (Cutflow.entries n cs + Cutflow.n_visits n vs)%nat.
Proof.
  unfold Cutflow.entries. destruct (tally_counter n vs wgt cs) as (-> & ->).
  rewrite n_visits_split. lia.
Qed.

(** Records run from a start node above a branching node: the pass
    successor is entered as often as the node passes, the fail successor as
    often as it fails. *)
Lemma process_branch_counts start (tr ts : Cutflow.CutTree) c cl ll lr cr rl rr :
  NoDup (Cutflow.names ts) ->
  Cutflow.find start tr = Some ts ->
  Cutflow.subtree (Cutflow.Node c (Cutflow.Node cl ll lr) (Cutflow.Node cr rl rr)) ts ->
  ∀ ws cs cf',
    Cutflow.process start {| Cutflow.root := tr; Cutflow.counters := cs |} ws = Ok cf' ->
    Cutflow.entries (name cr) cs = Cutflow.n_pass (Cutflow.counter (name c) cs) ->
    Cutflow.entries (name cl) cs = Cutflow.n_fail (Cutflow.counter (name c) cs) ->
    Cutflow.root cf' = tr
    ∧ Cutflow.entries (name cr) (Cutflow.counters cf')
      = Cutflow.n_pass (Cutflow.counter (name c) (Cutflow.counters cf'))
    ∧ Cutflow.entries (name cl) (Cutflow.counters cf')
      = Cutflow.n_fail (Cutflow.counter (name c) (Cutflow.counters cf')).
Proof.
  intros Hnd Hfind Hsub. induction ws as [|w ws IH]; intros cs cf' Hproc Hr Hl.
  - injection Hproc as <-. auto.
  - simpl in Hproc. rewrite run_run_path in Hproc. unfold Cutflow.run_path in Hproc.
    simpl in Hproc. rewrite Hfind in Hproc.
    destruct (Cutflow.path ts w) as [[vs w']|e] eqn:Hp; simpl in Hproc; [|discriminate].
    unfold Cutflow.after in Hproc. simpl in Hproc.
    apply IH in Hproc; [exact Hproc| |].
    + rewrite tally_entries. destruct (tally_counter (name c) vs 1 cs) as (-> & _).
      destruct (branch_visits _ Hnd _ _ _ Hsub _ _ _ Hp) as (Hvr & _).
      rewrite (Hvr _ _ _ eq_refl). lia.
    + rewrite tally_entries. destruct (tally_counter (name c) vs 1 cs) as (_ & ->).
      destruct (branch_visits _ Hnd _ _ _ Hsub _ _ _ Hp) as (_ & Hvl).
      rewrite (Hvl _ _ _ eq_refl). lia.
Qed.

(** ** The VBSVVHJets cutflow *)

Section VBSVVHJets_cutflow.

Variable cuts : VBSVVHJets.CutClasses.

Lemma initCutflow_tree :
  VBSVVHJets.initCutflow cuts Cutflow.empty = Ok (vvh_cutflow cuts).
Proof. vm_compute. reflexivity. Qed.

Lemma vvh_tree_NoDup : NoDup (Cutflow.names (vvh_tree cuts)).
Proof. apply (bool_decide_unpack _). vm_compute. exact I. Qed.

Lemma vvh_tree_find_exactly3 :
  Cutflow.find "Exactly3FatJets" (vvh_tree cuts) = Some (exactly3_node cuts).
Proof. reflexivity. Qed.

(** C5 (as amended): [Exactly3FatJets] tests [n_fatjets == 3], has the
    all-merged chain as pass successor and [Exactly2FatJets], which tests
    [n_fatjets == 2], as fail successor.  A traversal reaches it at most
    once, and one that reaches it enters exactly one of the two
    successors: the all-merged chain when the test passed,
    [Exactly2FatJets] when it failed.  Over any records run from the root,
    the all-merged chain is entered as often as the test passed and
    [Exactly2FatJets] as often as it failed. *)
Theorem fatjet_channels_split :
  VBSVVHJets.initCutflow cuts Cutflow.empty = Ok (vvh_cutflow cuts)
  ∧ cut_at "Exactly3FatJets" (vvh_tree cuts)
    = Some (LambdaCut "Exactly3FatJets" VBSVVHJets.Exactly3FatJets)
  ∧ successor Cutflow.Right "Exactly3FatJets" (vvh_tree cuts)
    = Some "AllMerged_SelectVVHFatJets"
  ∧ successor Cutflow.Left "Exactly3FatJets" (vvh_tree cuts) = Some "Exactly2FatJets"
  ∧ cut_at "Exactly2FatJets" (vvh_tree cuts)
    = Some (LambdaCut "Exactly2FatJets" VBSVVHJets.Exactly2FatJets)
  ∧ (∀ start w vs w',
       Cutflow.run_path start (vvh_cutflow cuts) w = Ok (vs, w') ->
       (Cutflow.n_visits "Exactly3FatJets" vs ≤ 1)%nat
       ∧ (Cutflow.n_visits "Exactly3FatJets" vs = 1%nat ->
          Cutflow.n_visits "AllMerged_SelectVVHFatJets" vs
          = Cutflow.n_passes "Exactly3FatJets" vs
          ∧ Cutflow.n_visits "Exactly2FatJets" vs = Cutflow.n_fails "Exactly3FatJets" vs
          ∧ (Cutflow.n_visits "AllMerged_SelectVVHFatJets" vs
             + Cutflow.n_visits "Exactly2FatJets" vs = 1)%nat))
  ∧ (∀ ws cf',
       Cutflow.process "Bookkeeping" (vvh_cutflow cuts) ws = Ok cf' ->
       Cutflow.entries "AllMerged_SelectVVHFatJets" (Cutflow.counters cf')
       = Cutflow.n_pass (Cutflow.counter "Exactly3FatJets" (Cutflow.counters cf'))
       ∧ Cutflow.entries "Exactly2FatJets" (Cutflow.counters cf')
         = Cutflow.n_fail (Cutflow.counter "Exactly3FatJets" (Cutflow.counters cf'))
       ∧ (Cutflow.entries "AllMerged_SelectVVHFatJets" (Cutflow.counters cf')
          + Cutflow.entries "Exactly2FatJets" (Cutflow.counters cf')
          = Cutflow.entries "Exactly3FatJets" (Cutflow.counters cf'))%nat).
Proof.
  split; [apply initCutflow_tree|]. do 4 (split; [reflexivity|]). split.
  - intros start w vs w' Hp. unfold Cutflow.run_path in Hp.
    change (Cutflow.root (vvh_cutflow cuts)) with (vvh_tree cuts) in Hp.
    destruct (Cutflow.find start (vvh_tree cuts)) as [ts|] eqn:Hstart; [|discriminate].
    pose proof (find_subtree _ _ _ Hstart) as Hsub.
    pose proof (subtree_NoDup _ _ Hsub vvh_tree_NoDup) as Hnd.
    split; [exact (path_once _ Hnd _ _ _ _ Hp)|]. intros Hreached.
    assert (Hin : "Exactly3FatJets" ∈ Cutflow.names ts).
    { destruct (decide ("Exactly3FatJets" ∈ Cutflow.names ts)) as [Hin|Hout]; [exact Hin|].
      rewrite (path_within _ _ _ _ _ Hp Hout) in Hreached. discriminate. }
    pose proof (find_stable _ _ _ Hsub vvh_tree_NoDup Hin) as Hfind.
    rewrite vvh_tree_find_exactly3 in Hfind.
    apply find_subtree in Hfind.
    destruct (branch_visits _ Hnd _ _ _ Hfind _ _ _ Hp) as (Hpass & Hfail).
    specialize (Hpass _ _ _ eq_refl). specialize (Hfail _ _ _ eq_refl).
    simpl in Hpass, Hfail. rewrite n_visits_split in Hreached. lia.
  - intros ws cf' Hproc.
    pose proof (find_subtree _ _ _ vvh_tree_find_exactly3) as Hsub.
    destruct (process_branch_counts "Bookkeeping" (vvh_tree cuts) (vvh_tree cuts)
                _ _ _ _ _ _ _ vvh_tree_NoDup eq_refl Hsub ws ∅ cf' Hproc eq_refl eq_refl)
      as (_ & Hpass & Hfail).
    simpl in Hpass, Hfail. split; [exact Hpass|]. split; [exact Hfail|].
    rewrite Hpass, Hfail. reflexivity.
Qed.

End VBSVVHJets_cutflow.

Lemma fatjet_channels_split_witness :
  (Cutflow.n_visits "AllMerged_SelectVVHFatJets" (SampleVVH.fatjets_path 3)
   + Cutflow.n_visits "Exactly2FatJets" (SampleVVH.fatjets_path 3) = 1)%nat.
Proof.
  destruct (fatjet_channels_split SampleVVH.pass_all) as (_ & _ & _ & _ & _ & Hpath & _).
  edestruct (Hpath "Bookkeeping" (SampleVVH.fatjets 3)) as (_ & Hsplit);
    [vm_compute; reflexivity|].
  apply Hsplit. vm_compute. reflexivity.
Defined.

(** C5 (as stated) fails for an event with one fat jet: it reaches
    [Exactly3FatJets] and enters [Exactly2FatJets], its fail successor,
    although [n_fatjets == 2] does not hold for it; it enters neither the
    all-merged chain nor the chain behind [Exactly2FatJets]. *)
Lemma fatjet_channel_counts_counterexample :
  ∃ cf',
    Cutflow.process "Bookkeeping" (vvh_cutflow SampleVVH.pass_all) [SampleVVH.fatjets 1]
    = Ok cf'
    ∧ Cutflow.entries "Exactly3FatJets" (Cutflow.counters cf') = 1%nat
    ∧ Cutflow.entries "Exactly2FatJets" (Cutflow.counters cf') = 1%nat
    ∧ n_records_with VBSVVHJets.Exactly2FatJets [SampleVVH.fatjets 1] = 0%nat
    ∧ Cutflow.entries "Exactly2FatJets" (Cutflow.counters cf')
      ≠ n_records_with VBSVVHJets.Exactly2FatJets [SampleVVH.fatjets 1]
    ∧ Cutflow.entries "AllMerged_SelectVVHFatJets" (Cutflow.counters cf') = 0%nat
    ∧ Cutflow.entries "SemiMerged_SelectVVHFatJets" (Cutflow.counters cf') = 0%nat.
Proof.
  eexists. split; [vm_compute; reflexivity|].
  repeat split; vm_compute; (reflexivity || discriminate).
Qed.


(** ** Trigger cuts *)

Lemma try_optional_branch (passed : bool) (b : option bool) :
  try_catch_runtime_error (or_else passed (optional_branch b)) passed
  = Ok (passed || bit b).
Proof. destruct passed, b as [[]|]; reflexivity. Qed.

Lemma passesMuonTriggers_spec (nt : Nano) :
  VBSWH.passesMuonTriggers nt = Ok (muon_triggers_spec nt).
Proof.
  unfold VBSWH.passesMuonTriggers, muon_triggers_spec.
  unfold HLT_IsoMu24, HLT_IsoTkMu24, HLT_IsoMu27.
  repeat case_match; rewrite ?try_optional_branch; simpl;
    rewrite ?try_optional_branch; reflexivity.
Qed.

(** C4: an absent trigger branch never escapes the trigger predicates: for
    every event both return a boolean, the one obtained by reading each
    missing bit as false. *)
Theorem trigger_absence_not_fatal (nt : Nano) :
  VBSWH.passesMuonTriggers nt = Ok (muon_triggers_spec nt)
  ∧ VBSWH.passesElecTriggers nt = Ok (elec_triggers_spec nt).
Proof.
  split; [apply passesMuonTriggers_spec|].
  unfold VBSWH.passesElecTriggers, elec_triggers_spec.
  unfold HLT_Ele27_WPTight_Gsf, HLT_Ele32_WPTight_Gsf_L1DoubleEG, HLT_Ele32_WPTight_Gsf.
  repeat case_match; rewrite ?try_optional_branch; simpl;
    rewrite ?passesMuonTriggers_spec; try reflexivity.
  destruct (bit _); reflexivity.
Qed.

(** C10: on simulation a selected lepton that is neither an electron nor a
    muon passes the trigger cut whatever the trigger bits are. *)
Theorem simulated_other_flavour_passes_triggers (w : World) (lep_pdgID : Z) :
  isData (nt w) = false ->
  Arbol.getLeaf Z "lep_pdgID" (arbol w) = Ok lep_pdgID ->
  to_unsigned (abs_int lep_pdgID) ≠ 11 ->
  to_unsigned (abs_int lep_pdgID) ≠ 13 ->
  VBSWH.passesLepTriggers (to_unsigned (abs_int lep_pdgID)) w = Ok true
  ∧ (∀ n, isData n = false ->
          VBSWH.passesLepTriggers (to_unsigned (abs_int lep_pdgID)) (with_nt n w) = Ok true)
  ∧ VBSWH.Passes1LepTriggers_evaluate w = Ok (true, w).
Proof.
  intros Hmc Hleaf H11 H13.
  assert (Hany : ∀ w', isData (nt w') = false ->
            VBSWH.passesLepTriggers (to_unsigned (abs_int lep_pdgID)) w' = Ok true).
  { intros w' Hw'. unfold VBSWH.passesLepTriggers. rewrite Hw'. simpl.
    destruct (Z.eqb_spec (to_unsigned (abs_int lep_pdgID)) 11) as [E|_]; [contradiction|].
    destruct (Z.eqb_spec (to_unsigned (abs_int lep_pdgID)) 13) as [E|_]; [contradiction|].
    reflexivity. }
  split; [auto|]. split; [intros n Hn; apply Hany; exact Hn|].
  unfold VBSWH.Passes1LepTriggers_evaluate. rewrite Hleaf. simpl.
  rewrite (Hany w Hmc). reflexivity.
Qed.

Lemma simulated_other_flavour_passes_triggers_witness :
  VBSWH.passesLepTriggers (to_unsigned (abs_int (-15))) Sample.tau_event = Ok true
  ∧ (∀ n, isData n = false ->
          VBSWH.passesLepTriggers (to_unsigned (abs_int (-15))) (with_nt n Sample.tau_event)
          = Ok true)
  ∧ VBSWH.Passes1LepTriggers_evaluate Sample.tau_event = Ok (true, Sample.tau_event).
Proof.
  apply (simulated_other_flavour_passes_triggers Sample.tau_event (-15));
    [reflexivity | reflexivity | vm_compute; discriminate | vm_compute; discriminate].
Defined.

(** ** The [LambdaCut]s of VBSVVHJets *)

(** C9: the cut [initCutflow] registers as [AllMerged_XWqqGt0p7] passes
    exactly when [ld_vqqfatjet_score] exceeds 0.7 (and is fatal exactly when
    reading that leaf is); whatever is stored under [tr_vqqfatjet_score]
    does not change its result. *)
Theorem XWqqGt0p7_reads_leading_score_only (w : World) :
  (∀ cuts, cut_at "AllMerged_XWqqGt0p7" (vvh_tree cuts)
           = Some (LambdaCut "AllMerged_XWqqGt0p7" VBSVVHJets.XWqqGt0p7))
  ∧ VBSVVHJets.XWqqGt0p7 w
  = (ld_vqqfatjet_score ← Arbol.getLeaf float "ld_vqqfatjet_score" (arbol w);
     Ok (0.7 <? ld_vqqfatjet_score)%float)
  ∧ (∀ b, VBSVVHJets.XWqqGt0p7 (with_branch "tr_vqqfatjet_score" b w)
          = VBSVVHJets.XWqqGt0p7 w)
  ∧ (∀ b, evaluate (LambdaCut "AllMerged_XWqqGt0p7" VBSVVHJets.XWqqGt0p7)
            (with_branch "tr_vqqfatjet_score" b w)
          = '(passed, _) ← evaluate (LambdaCut "AllMerged_XWqqGt0p7" VBSVVHJets.XWqqGt0p7) w;
            Ok (passed, with_branch "tr_vqqfatjet_score" b w)).
Proof.
  assert (Hsame : ∀ b, VBSVVHJets.XWqqGt0p7 (with_branch "tr_vqqfatjet_score" b w)
                       = VBSVVHJets.XWqqGt0p7 w).
  { intros b. unfold VBSVVHJets.XWqqGt0p7, Arbol.getLeaf, with_branch. simpl.
    rewrite lookup_insert_ne by discriminate. reflexivity. }
  split; [reflexivity|]. split; [|split].
  - unfold VBSVVHJets.XWqqGt0p7.
    destruct (Arbol.getLeaf float "ld_vqqfatjet_score" (arbol w)) as [s|e]; simpl; [|reflexivity].
    destruct (0.7 <? s)%float; reflexivity.
  - exact Hsame.
  - intros b. simpl. rewrite Hsame.
    destruct (VBSVVHJets.XWqqGt0p7 w); reflexivity.
Qed.

(** ** The event callback of the driver *)

Section Driver.

Variable GetEntry : Z -> Nano -> Nano.

(** Unless the stop condition holds, the callback is the traversal from
    [SelectVBSJetsMaxE] on the prepared stores, followed by the commit. *)
Lemma event_unfold (entry : Z) (s : Main.State) :
  stop_condition s = false ->
  Main.event GetEntry entry s
  = (o ← Cutflow.run "SelectVBSJetsMaxE" (Main.cutflow s)
           (Main.prepare GetEntry entry (Main.world s));
     Ok (committed s o)).
Proof.
  unfold stop_condition, Main.event. intros ->. reflexivity.
Qed.

Lemma prepare_rows (entry : Z) (w : World) :
  Arbol.rows (arbol (Main.prepare GetEntry entry w)) = Arbol.rows (arbol w).
Proof. reflexivity. Qed.

(** C1: for a processed record the row is filled exactly when the
    traversal accepts: on ACCEPT the arbol is the one the traversal left,
    filled; on REJECT it is the one the traversal left, with no row added. *)
Theorem row_filled_iff_accepted (entry : Z) (s s' : Main.State) :
  stop_condition s = false ->
  Main.event GetEntry entry s = Ok s' ->
  ∃ o, Cutflow.run "SelectVBSJetsMaxE" (Main.cutflow s)
         (Main.prepare GetEntry entry (Main.world s)) = Ok o
    ∧ (Cutflow.accepted o = true ->
         arbol (Main.world s') = Arbol.fill (arbol (Cutflow.world o)))
    ∧ (Cutflow.accepted o = false ->
         arbol (Main.world s') = arbol (Cutflow.world o))
    ∧ (Arbol.rows (arbol (Main.world s'))
         = Arbol.rows (arbol (Cutflow.world o))
           ++ [Arbol.current_row (arbol (Cutflow.world o))]
       ↔ Cutflow.accepted o = true).
Proof.
  intros Hgo Hev. rewrite (event_unfold _ _ Hgo) in Hev.
  destruct (Cutflow.run _ _ _) as [o|e]; [|discriminate].
  simpl in Hev. injection Hev as <-. exists o. split; [reflexivity|].
  unfold committed; simpl. destruct (Cutflow.accepted o); simpl.
  - repeat split; auto; discriminate.
  - repeat split; auto; try discriminate.
    intros Hrows. apply (f_equal length) in Hrows.
    rewrite length_app in Hrows. simpl in Hrows. lia.
Qed.

(** C2: for a processed record the traversal runs on the prepared
    stores, in which every branch and every global holds the value its
    declaration resets it to: the prepared stores are a function of the
    declarations alone, so nothing a previous record wrote is left.  The
    declarations of [VBSWH::Analysis::initBranches] are the defaults of
    the source. *)
Theorem stores_reset_before_traversal (entry : Z) (s : Main.State) :
  stop_condition s = false ->
  Main.event GetEntry entry s
  = (o ← Cutflow.run "SelectVBSJetsMaxE" (Main.cutflow s)
           (Main.prepare GetEntry entry (Main.world s));
     Ok (committed s o))
  ∧ Arbol.branches (arbol (Main.prepare GetEntry entry (Main.world s)))
    = (fun d => Arbol.mkBranch d d) <$> declarations (arbol (Main.world s))
  ∧ globals (Main.prepare GetEntry entry (Main.world s))
    = (fun d => Variables.mkSlot d d) <$> var_declarations (globals (Main.world s))
  ∧ (∀ n b, Arbol.branches (arbol (Main.world s)) !! n = Some b ->
            Arbol.branches (arbol (Main.prepare GetEntry entry (Main.world s))) !! n
            = Some (Arbol.mkBranch (Arbol.reset_value b) (Arbol.reset_value b)))
  ∧ (∀ n v, globals (Main.world s) !! n = Some v ->
            globals (Main.prepare GetEntry entry (Main.world s)) !! n
            = Some (Variables.mkSlot (Variables.reset_value v) (Variables.reset_value v)))
  ∧ (∀ core n d, (n, d) ∈ VBSWH.declared ->
                 declarations (VBSWH.initBranches core) !! n = Some d).
Proof.
  intros Hgo. split; [apply event_unfold; exact Hgo|].
  split; [|split; [|split; [|split]]].
  - unfold Main.prepare, declarations, Arbol.resetBranches. simpl.
    rewrite <- map_fmap_compose. reflexivity.
  - unfold Main.prepare, var_declarations, Variables.resetVars. simpl.
    rewrite <- map_fmap_compose. reflexivity.
  - intros n b Hb. unfold Main.prepare, Arbol.resetBranches. simpl.
    rewrite lookup_fmap, Hb. reflexivity.
  - intros n v Hv. unfold Main.prepare, Variables.resetVars. simpl.
    rewrite lookup_fmap, Hv. reflexivity.
  - intros core n d Hin. unfold declarations, VBSWH.initBranches, Arbol.newBranch.
    simpl. rewrite lookup_fmap. unfold VBSWH.declared in Hin.
    repeat (apply elem_of_cons in Hin as [Hin|Hin];
            [injection Hin as -> ->;
             repeat (rewrite lookup_insert_ne by discriminate);
             rewrite lookup_insert_eq; reflexivity|]).
    apply elem_of_nil in Hin. contradiction.
Qed.

(** C3: when the stop condition holds the callback only stops the looper:
    no reset, no traversal and no row; the looper then hands over no
    further record.  When it does not hold the callback never stops the
    looper. *)
Theorem debug_stop_ends_the_loop (entry : Z) (s : Main.State) :
  (debug (cli (Main.world s)) = true ->
   Main.n_events_processed (Main.looper s) = 10000 ->
   Main.event GetEntry entry s = Ok (halted s)
   ∧ Main.stopped (Main.looper (halted s)) = true
   ∧ Main.cutflow (halted s) = Main.cutflow s
   ∧ Main.world (halted s) = Main.world s
   ∧ (∀ rest, Main.stopped (Main.looper s) = false ->
              ∃ s', Main.run GetEntry (entry :: rest) s = Ok s'
                    ∧ Main.stopped (Main.looper s') = true
                    ∧ Main.cutflow s' = Main.cutflow s
                    ∧ Main.world s' = Main.world s))
  ∧ (stop_condition s = false ->
     ∀ s', Main.event GetEntry entry s = Ok s' -> Main.looper s' = Main.looper s)
  ∧ (Main.stopped (Main.looper s) = true ->
     ∀ entries, Main.run GetEntry entries s = Ok s).
Proof.
  split; [|split].
  - intros Hdbg Hn.
    assert (Hev : Main.event GetEntry entry s = Ok (halted s)).
    { unfold Main.event. rewrite Hdbg, Hn. reflexivity. }
    repeat split; try assumption.
    intros rest Hrun. exists (Main.processed (halted s)).
    split; [|auto]. simpl. rewrite Hrun, Hev. simpl.
    destruct rest; reflexivity.
  - intros Hgo s' Hev. rewrite (event_unfold _ _ Hgo) in Hev.
    destruct (Cutflow.run _ _ _) as [o|e]; [|discriminate].
    simpl in Hev. injection Hev as <-. reflexivity.
  - intros Hstopped entries. destruct entries; simpl; [reflexivity|].
    rewrite Hstopped. reflexivity.
Qed.

End Driver.

Lemma row_filled_iff_accepted_witness :
  ∃ o, Cutflow.run "SelectVBSJetsMaxE" (Main.cutflow (Sample.state false 7 1000))
         (Main.prepare Sample.GetEntry 0 (Main.world (Sample.state false 7 1000))) = Ok o
    ∧ (Cutflow.accepted o = true ->
         arbol (Main.world (Sample.after_event (Sample.state false 7 1000)))
         = Arbol.fill (arbol (Cutflow.world o)))
    ∧ (Cutflow.accepted o = false ->
         arbol (Main.world (Sample.after_event (Sample.state false 7 1000)))
         = arbol (Cutflow.world o))
    ∧ (Arbol.rows (arbol (Main.world (Sample.after_event (Sample.state false 7 1000))))
         = Arbol.rows (arbol (Cutflow.world o))
           ++ [Arbol.current_row (arbol (Cutflow.world o))]
       ↔ Cutflow.accepted o = true).
Proof.
  apply (row_filled_iff_accepted Sample.GetEntry 0 (Sample.state false 7 1000));
    [reflexivity | vm_compute; reflexivity].
Defined.

Lemma stores_reset_before_traversal_witness :
  Arbol.branches
    (arbol (Main.prepare Sample.GetEntry 0 (Main.world (Sample.state false 7 1000))))
  !! "ST"
  = Some (Arbol.mkBranch (Arbol.LDouble (-999)) (Arbol.LDouble (-999))).
Proof.
  destruct (stores_reset_before_traversal Sample.GetEntry 0 (Sample.state false 7 1000))
    as (_ & _ & _ & Hbranch & _); [reflexivity|].
  apply (Hbranch "ST" (Arbol.mkBranch (Arbol.LDouble 1234) (Arbol.LDouble (-999)))).
  reflexivity.
Defined.

Lemma debug_stop_ends_the_loop_witness :
  Main.event Sample.GetEntry 0 (Sample.state true 10000 1000)
  = Ok (halted (Sample.state true 10000 1000)).
Proof.
  destruct (debug_stop_ends_the_loop Sample.GetEntry 0 (Sample.state true 10000 1000))
    as [Hstop _].
  apply Hstop; reflexivity.
Defined.

(** ** [SelectHbbFatJet] *)

Lemma bind_Ok_inv {A B} (m : Exn A) (f : A -> Exn B) (b : B) :
  m ≫= f = Ok b -> ∃ a, m = Ok a ∧ f a = Ok b.
Proof. destruct m as [a|e]; simpl; [eauto|discriminate]. Qed.

Lemma at_Ok_inv {A} (v : list A) (i : Z) (x : A) :
  at_ v i = Ok x -> 0 ≤ i < Z.of_nat (length v).
Proof.
  unfold at_. destruct (Z.ltb_spec i 0) as [|Hi]; [discriminate|].
  destruct (v !! Z.to_nat i) eqn:Hl; [|discriminate]. intros _.
  apply lookup_lt_Some in Hl. lia.
Qed.

Lemma max_element_from_bounds v :
  ∀ i largest_i largest,
    0 ≤ largest_i < i ->
    0 ≤ max_element_from v i largest_i largest < i + Z.of_nat (length v).
Proof.
  induction v as [|x v IH]; intros i largest_i largest Hi; simpl; [lia|].
  destruct (largest <? x)%float.
  - specialize (IH (i + 1) i x). lia.
  - specialize (IH (i + 1) largest_i largest). lia.
Qed.

Lemma distance_max_element_bounds (v : Doubles) :
  0 ≤ distance_max_element v
  ∧ (v ≠ [] -> distance_max_element v < Z.of_nat (length v)).
Proof.
  destruct v as [|x v]; simpl; [split; [lia|contradiction]|].
  pose proof (max_element_from_bounds v 1 0 x). lia.
Qed.

Lemma at_total {A} (v : list A) (i : Z) :
  0 ≤ i < Z.of_nat (length v) -> ∃ x, at_ v i = Ok x ∧ v !! Z.to_nat i = Some x.
Proof.
  intros Hi. unfold at_. destruct (Z.ltb_spec i 0) as [|_]; [lia|].
  destruct (lookup_lt_is_Some_2 v (Z.to_nat i)) as [x Hx]; [lia|].
  rewrite Hx. eauto.
Qed.

Lemma at_lookup {A} (v : list A) (i : Z) (x : A) :
  0 ≤ i -> v !! Z.to_nat i = Some x -> at_ v i = Ok x.
Proof.
  intros Hi Hx. unfold at_. destruct (Z.ltb_spec i 0) as [|_]; [lia|].
  rewrite Hx. reflexivity.
Qed.

(** *** Writing a declared leaf or variable *)

Lemma setLeaf_total {T} `{Arbol.LeafType T} (n : string) (v x : T) (a : Arbol.t) :
  Arbol.getLeaf T n a = Ok x -> ∃ a', Arbol.setLeaf n v a = Ok a'.
Proof.
  unfold Arbol.getLeaf, Arbol.setLeaf.
  destruct (Arbol.branches a !! n) as [b|]; [|discriminate].
  destruct (Arbol.of_leaf (Arbol.value b)); [eauto|discriminate].
Qed.

Lemma getLeaf_setLeaf_ne {T U} `{Arbol.LeafType T} `{Arbol.LeafType U}
    (n m : string) (v : T) (a a' : Arbol.t) :
  Arbol.setLeaf n v a = Ok a' -> m ≠ n -> Arbol.getLeaf U m a' = Arbol.getLeaf U m a.
Proof.
  unfold Arbol.setLeaf, Arbol.getLeaf.
  destruct (Arbol.branches a !! n) as [b|]; [|discriminate].
  destruct (Arbol.of_leaf (Arbol.value b)); [|discriminate].
  intros [= <-] Hne. simpl. rewrite lookup_insert_ne by congruence. reflexivity.
Qed.

Lemma setVal_total {T} `{Variables.VarType T} (n : string) (v x : T) (g : Variables.t) :
  Variables.getVal T n g = Ok x -> ∃ g', Variables.setVal n v g = Ok g'.
Proof.
  unfold Variables.getVal, Variables.setVal.
  destruct (g !! n) as [s|]; [|discriminate].
  destruct (Variables.of_val (Variables.value s)); [eauto|discriminate].
Qed.

Lemma getVal_setVal_ne {T U} `{Variables.VarType T} `{Variables.VarType U}
    (n m : string) (v : T) (g g' : Variables.t) :
  Variables.setVal n v g = Ok g' -> m ≠ n ->
  Variables.getVal U m g' = Variables.getVal U m g.
Proof.
  unfold Variables.setVal, Variables.getVal.
  destruct (g !! n) as [s|]; [|discriminate].
  destruct (Variables.of_val (Variables.value s)); [|discriminate].
  intros [= <-] Hne. rewrite lookup_insert_ne by congruence. reflexivity.
Qed.

(** Move what is known of the leaves across a [setLeaf] of another leaf. *)
Ltac carry_leaves H :=
  match type of H with
  | Arbol.setLeaf _ _ ?a = Ok _ =>
      repeat match goal with
             | L : Arbol.getLeaf _ ?m a = _ |- _ =>
                 rewrite <- (getLeaf_setLeaf_ne _ m _ _ _ H) in L by discriminate
             end
  end.

Section SelectHbbFatJet_facts.

Variables pt eta phi : LorentzVector -> float.
Variable DeltaR : LorentzVector -> LorentzVector -> float.

(** The loop over the generator particles ends without a throw on a
    consistent record. *)
Lemma count_genbquarks_total (nt : Nano) (best : LorentzVector) :
  gen_consistent nt ->
  ∀ n_gen gen_i n0,
    0 ≤ gen_i -> (n_gen ≠ 0%nat -> gen_i + Z.of_nat n_gen ≤ nGenPart nt) ->
    ∃ n, VBSWH.count_genbquarks DeltaR nt best n_gen gen_i n0 = Ok n.
Proof.
  intros Hgen. induction n_gen as [|n_gen IH]; intros gen_i n0 H0 Hle; simpl; [eauto|].
  specialize (Hle ltac:(discriminate)).
  assert (Hnext : ∀ n1, ∃ n,
            VBSWH.count_genbquarks DeltaR nt best n_gen (gen_i + 1) n1 = Ok n)
    by (intros n1; apply IH; lia).
  destruct (Hgen gen_i ltac:(lia)) as (pdgId & status & mother & p4 & Hp & Hs & Hm & H4 & Hb).
  rewrite (at_lookup _ _ _ H0 Hp). simpl.
  destruct (Z.eqb_spec (abs_int pdgId) 5) as [Hpdg|_]; simpl; [|apply Hnext].
  rewrite (at_lookup _ _ _ H0 Hs). simpl.
  destruct (Z.eqb_spec status 23) as [Hst|_]; simpl; [|apply Hnext].
  rewrite (at_lookup _ _ _ H0 Hm). simpl.
  destruct (at_total (GenPart_pdgId nt) mother (Hb Hpdg Hst)) as (mpdg & -> & _). simpl.
  destruct (abs_int mpdg =? 5); [apply Hnext|].
  rewrite (at_lookup _ _ _ H0 H4). simpl.
  destruct (DeltaR best p4 <? 0.8)%float; apply Hnext.
Qed.

(** On ready stores the cut passes. *)
Lemma SelectHbbFatJet_passes (use_md : bool) (w : World) :
  SelectHbbFatJet_ready use_md w ->
  ∃ w', VBSWH.SelectHbbFatJet_evaluate pt eta phi DeltaR use_md w = Ok (true, w').
Proof.
  intros (tags & p4s & masses & msoftdrops & p4 & n & score & pt0 & eta0 & phi0 & mass
          & msoftdrop & LT & ST & Htags & Hne & Hlen & Hp4s & Hmasses & Hmsd & Lp & Lm
          & Ls & Hp4 & Ln & Lscore & Lpt & Leta & Lphi & Lmass & Lmsd & LLT & LST & Hgen).
  destruct (distance_max_element_bounds tags) as (Hi0 & Hi1). specialize (Hi1 Hne).
  assert (Hwrap : wrap_int (distance_max_element tags) = distance_max_element tags).
  { unfold wrap_int. rewrite Z.mod_small by lia. lia. }
  set (i := distance_max_element tags) in *.
  destruct (at_total tags i ltac:(lia)) as (sc & Hsc & _).
  assert (Hrest : ∀ sc', sc' = sc -> ∃ w',
    (if i <? 0 then Ok (false, w) else
     good_fatjet_p4s ← Variables.getVal LorentzVectors "good_fatjet_p4s" (globals w);
     best_hbbjet_p4 ← at_ good_fatjet_p4s i;
     n_hbbjet_genbquarks ←
       (if negb (isData (nt w)) then
          VBSWH.count_genbquarks DeltaR (nt w) best_hbbjet_p4
            (Z.to_nat (nGenPart (nt w))) 0 0
        else Ok 0);
     g ← Variables.setVal "hbbjet_p4" best_hbbjet_p4 (globals w);
     a ← Arbol.setLeaf "n_hbbjet_genbquarks" n_hbbjet_genbquarks (arbol w);
     a ← Arbol.setLeaf "hbbjet_score" sc' a;
     a ← Arbol.setLeaf "hbbjet_pt" (pt best_hbbjet_p4) a;
     a ← Arbol.setLeaf "hbbjet_eta" (eta best_hbbjet_p4) a;
     a ← Arbol.setLeaf "hbbjet_phi" (phi best_hbbjet_p4) a;
     good_fatjet_masses ← Variables.getVal Doubles "good_fatjet_masses" g;
     mass ← at_ good_fatjet_masses i;
     a ← Arbol.setLeaf "hbbjet_mass" mass a;
     good_fatjet_msoftdrops ← Variables.getVal Doubles "good_fatjet_msoftdrops" g;
     msoftdrop ← at_ good_fatjet_msoftdrops i;
     a ← Arbol.setLeaf "hbbjet_msoftdrop" msoftdrop a;
     LT ← Arbol.getLeaf float "LT" a;
     a ← Arbol.setLeaf "ST" (LT + pt best_hbbjet_p4)%float a;
     Ok (true, with_arbol a (with_globals g w))) = Ok (true, w')).
  { intros sc' ->. destruct (Z.ltb_spec i 0) as [|_]; [lia|].
    rewrite Hp4s. simpl.
    destruct (at_total p4s i ltac:(lia)) as (best & -> & _). simpl.
    assert (Hcount : ∃ k,
      (if negb (isData (nt w))
       then VBSWH.count_genbquarks DeltaR (nt w) best (Z.to_nat (nGenPart (nt w))) 0 0
       else Ok 0) = Ok k).
    { destruct Hgen as [-> | Hgen]; [simpl; eauto|].
      destruct (isData (nt w)); simpl; [eauto|].
      apply count_genbquarks_total; [exact Hgen|lia|lia]. }
    destruct Hcount as (k & ->). simpl.
    destruct (setVal_total "hbbjet_p4" best p4 (globals w) Hp4) as (g & Hg).
    rewrite Hg. simpl.
    destruct (setLeaf_total "n_hbbjet_genbquarks" k n (arbol w) Ln) as (a1 & H1).
    rewrite H1. simpl. carry_leaves H1.
    destruct (setLeaf_total "hbbjet_score" sc score a1 Lscore) as (a2 & H2).
    rewrite H2. simpl. carry_leaves H2.
    destruct (setLeaf_total "hbbjet_pt" (pt best) pt0 a2 Lpt) as (a3 & H3).
    rewrite H3. simpl. carry_leaves H3.
    destruct (setLeaf_total "hbbjet_eta" (eta best) eta0 a3 Leta) as (a4 & H4).
    rewrite H4. simpl. carry_leaves H4.
    destruct (setLeaf_total "hbbjet_phi" (phi best) phi0 a4 Lphi) as (a5 & H5).
    rewrite H5. simpl. carry_leaves H5.
    rewrite (getVal_setVal_ne _ "good_fatjet_masses" _ _ _ Hg) by discriminate.
    rewrite Hmasses. simpl.
    destruct (at_total masses i ltac:(lia)) as (m & -> & _). simpl.
    destruct (setLeaf_total "hbbjet_mass" m mass a5 Lmass) as (a6 & H6).
    rewrite H6. simpl. carry_leaves H6.
    rewrite (getVal_setVal_ne _ "good_fatjet_msoftdrops" _ _ _ Hg) by discriminate.
    rewrite Hmsd. simpl.
    destruct (at_total msoftdrops i ltac:(lia)) as (msd & -> & _). simpl.
    destruct (setLeaf_total "hbbjet_msoftdrop" msd msoftdrop a6 Lmsd) as (a7 & H7).
    rewrite H7. simpl. carry_leaves H7.
    rewrite LLT. simpl.
    destruct (setLeaf_total "ST" (LT + pt best)%float ST a7 LST) as (a8 & H8).
    rewrite H8. simpl. eauto. }
  unfold VBSWH.SelectHbbFatJet_evaluate.
  destruct use_md; simpl tags_name in Htags; rewrite Htags; simpl; fold i;
    rewrite Hwrap, Hsc; simpl; apply Hrest; reflexivity.
Qed.

(** C8: [SelectHbbFatJet::evaluate] never returns false: whenever it
    returns, the score list was not empty and the result is true, and on
    ready stores (a score list that is not empty among them) it does
    return.  The index of the best score is never negative (for any list
    an [int] can index), so the guard cannot fire; on an empty list the
    [.at(0)] throws [out_of_range]. *)
Theorem SelectHbbFatJet_never_returns_false (use_md : bool) (w : World) :
  (∀ w', VBSWH.SelectHbbFatJet_evaluate pt eta phi DeltaR use_md w ≠ Ok (false, w'))
  ∧ (∀ passed w',
       VBSWH.SelectHbbFatJet_evaluate pt eta phi DeltaR use_md w = Ok (passed, w') ->
       passed = true
       ∧ ∃ tags, Variables.getVal Doubles (tags_name use_md) (globals w) = Ok tags
                 ∧ tags ≠ [])
  ∧ (SelectHbbFatJet_ready use_md w ->
     ∃ w', VBSWH.SelectHbbFatJet_evaluate pt eta phi DeltaR use_md w = Ok (true, w'))
  ∧ (∀ tags : Doubles,
       0 ≤ distance_max_element tags
       ∧ (tags ≠ [] -> distance_max_element tags < Z.of_nat (length tags))
       ∧ (Z.of_nat (length tags) ≤ 2 ^ 31 ->
          0 ≤ wrap_int (distance_max_element tags)))
  ∧ (Variables.getVal Doubles (tags_name use_md) (globals w) = Ok [] ->
     VBSWH.SelectHbbFatJet_evaluate pt eta phi DeltaR use_md w = Throw out_of_range).
Proof.
  assert (Hret : ∀ passed w',
            VBSWH.SelectHbbFatJet_evaluate pt eta phi DeltaR use_md w = Ok (passed, w') ->
            passed = true
            ∧ ∃ tags, Variables.getVal Doubles (tags_name use_md) (globals w) = Ok tags
                      ∧ tags ≠ []).
  { intros passed w' H. unfold VBSWH.SelectHbbFatJet_evaluate in H.
    apply bind_Ok_inv in H as ([i score] & Hfirst & H).
    assert (Hi : 0 ≤ i ∧ ∃ tags,
              Variables.getVal Doubles (tags_name use_md) (globals w) = Ok tags
              ∧ tags ≠ []).
    { destruct use_md; simpl tags_name;
        apply bind_Ok_inv in Hfirst as (tags & Htags & Hfirst);
        apply bind_Ok_inv in Hfirst as (sc & Hat & Hfirst);
        injection Hfirst as <- <-; apply at_Ok_inv in Hat;
        (split; [lia|]); exists tags; (split; [exact Htags|]);
        intros ->; simpl in Hat; lia. }
    destruct Hi as (Hi & Htags). split; [|exact Htags].
    destruct (Z.ltb_spec i 0) as [|_]; [lia|].
    repeat (apply bind_Ok_inv in H as (? & _ & H)).
    injection H as <- _. reflexivity. }
  split; [|split; [exact Hret|split; [apply SelectHbbFatJet_passes|split]]].
  - intros w' H. apply Hret in H as (H & _). discriminate.
  - intros tags. destruct (distance_max_element_bounds tags) as (H0 & Hlt).
    split; [exact H0|]. split; [exact Hlt|]. intros Hlen.
    destruct tags as [|x tags]; [vm_compute; discriminate|].
    assert (Hb : distance_max_element (x :: tags) < 2 ^ 31)
      by (specialize (Hlt ltac:(discriminate)); lia).
    unfold wrap_int. rewrite Z.mod_small by lia. lia.
  - intros Hempty. unfold VBSWH.SelectHbbFatJet_evaluate.
    destruct use_md; simpl tags_name in Hempty; rewrite Hempty; reflexivity.
Qed.

End SelectHbbFatJet_facts.

Lemma three_fatjets_ready : SelectHbbFatJet_ready true SampleHbb.three_fatjets.
Proof.
  unfold SelectHbbFatJet_ready. do 14 eexists.
  repeat match goal with |- _ ∧ _ => split end;
    try reflexivity; try discriminate; try (simpl; lia).
  right. intros i Hi. simpl in Hi.
  assert (Hcases : i = 0 ∨ i = 1) by lia.
  destruct Hcases as [-> | ->]; simpl; do 4 eexists;
    repeat match goal with |- _ ∧ _ => split end; try reflexivity.
  - intros _ _. lia.
  - intros Hb. vm_compute in Hb. discriminate.
Defined.

Lemma SelectHbbFatJet_never_returns_false_witness :
  (∃ w', VBSWH.SelectHbbFatJet_evaluate SampleHbb.pt SampleHbb.eta SampleHbb.phi
           SampleHbb.DeltaR true SampleHbb.three_fatjets = Ok (true, w'))
  ∧ VBSWH.SelectHbbFatJet_evaluate SampleHbb.pt SampleHbb.eta SampleHbb.phi
      SampleHbb.DeltaR true SampleHbb.no_fatjets = Throw out_of_range.
Proof.
  split.
  - destruct (SelectHbbFatJet_never_returns_false SampleHbb.pt SampleHbb.eta SampleHbb.phi
                SampleHbb.DeltaR true SampleHbb.three_fatjets) as (_ & _ & Hready & _).
    apply Hready. exact three_fatjets_ready.
  - destruct (SelectHbbFatJet_never_returns_false SampleHbb.pt SampleHbb.eta SampleHbb.phi
                SampleHbb.DeltaR true SampleHbb.no_fatjets) as (_ & _ & _ & _ & Hempty).
    apply Hempty. reflexivity.
Defined.

(** ** The order of binary64 values *)

Ltac order_cases :=
  repeat match goal with
         | |- context [Z.compare ?x ?y] => destruct (Z.compare_spec x y)
         | |- context [Pos.compare_cont Eq ?x ?y] =>
             change (Pos.compare_cont Eq x y) with (Pos.compare x y);
             destruct (Pos.compare_spec x y)
         end.

(** Below or equal twice is below or equal, and equal only if both are. *)
Lemma SFcompare_not_Gt_trans (a b c : spec_float) (o1 o2 : comparison) :
  SFcompare a b = Some o1 -> SFcompare b c = Some o2 -> o1 ≠ Gt -> o2 ≠ Gt ->
  SFcompare a c = Some match o1, o2 with Eq, Eq => Eq | _, _ => Lt end.
Proof.
  destruct a as [sa|sa| |sa ma ea], b as [sb|sb| |sb mb eb], c as [sc|sc| |sc mc ec];
    try destruct sa; try destruct sb; try destruct sc; simpl;
    intros H1 H2 N1 N2; try discriminate;
    try (injection H1 as <-); try (injection H2 as <-); try congruence; try reflexivity.
  all: revert N1 N2; order_cases; simpl; intros N1 N2; subst;
    try congruence; try reflexivity; try lia.
Qed.

Lemma SFcompare_refl (a : spec_float) : SFcompare a a = Some Eq ∨ SFcompare a a = None.
Proof.
  destruct a as [[]|[]| |[] m e]; simpl; auto;
    rewrite Z.compare_refl; change (Pos.compare_cont Eq m m) with (Pos.compare m m);
    rewrite Pos.compare_refl; auto.
Qed.

Lemma float_ltb_irrefl (x : float) : (x <? x)%float = false.
Proof.
  rewrite ltb_spec. unfold SFltb.
  destruct (SFcompare_refl (Prim2SF x)) as [-> | ->]; reflexivity.
Qed.

Lemma float_ltb_trans (x y z : float) :
  (x <? y)%float = true -> (y <? z)%float = true -> (x <? z)%float = true.
Proof.
  rewrite !ltb_spec. unfold SFltb.
  destruct (SFcompare (Prim2SF x) (Prim2SF y)) as [[]|] eqn:H1; try discriminate.
  destruct (SFcompare (Prim2SF y) (Prim2SF z)) as [[]|] eqn:H2; try discriminate.
  rewrite (SFcompare_not_Gt_trans _ _ _ _ _ H1 H2) by discriminate. reflexivity.
Qed.

Lemma float_leb_trans (x y z : float) :
  (x <=? y)%float = true -> (y <=? z)%float = true -> (x <=? z)%float = true.
Proof.
  rewrite !leb_spec. unfold SFleb.
  destruct (SFcompare (Prim2SF x) (Prim2SF y)) as [[]|] eqn:H1; try discriminate;
    destruct (SFcompare (Prim2SF y) (Prim2SF z)) as [[]|] eqn:H2; try discriminate;
    rewrite (SFcompare_not_Gt_trans _ _ _ _ _ H1 H2) by discriminate; reflexivity.
Qed.

Lemma float_ltb_leb_trans (x y z : float) :
  (x <? y)%float = true -> (y <=? z)%float = true -> (x <? z)%float = true.
Proof.
  rewrite !ltb_spec, leb_spec. unfold SFltb, SFleb.
  destruct (SFcompare (Prim2SF x) (Prim2SF y)) as [[]|] eqn:H1; try discriminate;
    destruct (SFcompare (Prim2SF y) (Prim2SF z)) as [[]|] eqn:H2; try discriminate;
    rewrite (SFcompare_not_Gt_trans _ _ _ _ _ H1 H2) by discriminate; reflexivity.
Qed.

Lemma float_leb_ltb_trans (x y z : float) :
  (x <=? y)%float = true -> (y <? z)%float = true -> (x <? z)%float = true.
Proof.
  rewrite !ltb_spec, leb_spec. unfold SFltb, SFleb.
  destruct (SFcompare (Prim2SF x) (Prim2SF y)) as [[]|] eqn:H1; try discriminate;
    destruct (SFcompare (Prim2SF y) (Prim2SF z)) as [[]|] eqn:H2; try discriminate;
    rewrite (SFcompare_not_Gt_trans _ _ _ _ _ H1 H2) by discriminate; reflexivity.
Qed.

(** ** Reading back what a cut wrote *)

Lemma setLeaf_inv {T} `{Arbol.LeafType T} (n : string) (v : T) (a a' : Arbol.t) :
  Arbol.setLeaf n v a = Ok a' ->
  ∃ b, Arbol.branches a !! n = Some b
       ∧ a' = {| Arbol.branches :=
                   <[n := Arbol.mkBranch (Arbol.to_leaf v) (Arbol.reset_value b)]>
                     (Arbol.branches a);
                 Arbol.rows := Arbol.rows a |}.
Proof.
  unfold Arbol.setLeaf. destruct (Arbol.branches a !! n) as [b|]; [|discriminate].
  destruct (Arbol.of_leaf (Arbol.value b)); [|discriminate].
  intros [= <-]. eauto.
Qed.

Lemma setLeaf_rows {T} `{Arbol.LeafType T} (n : string) (v : T) (a a' : Arbol.t) :
  Arbol.setLeaf n v a = Ok a' -> Arbol.rows a' = Arbol.rows a.
Proof. intros Hset. apply setLeaf_inv in Hset as (b & _ & ->). reflexivity. Qed.

Lemma setLeaf_other {T} `{Arbol.LeafType T} (n m : string) (v : T) (a a' : Arbol.t) :
  Arbol.setLeaf n v a = Ok a' -> m ≠ n -> Arbol.branches a' !! m = Arbol.branches a !! m.
Proof.
  intros Hset Hne. apply setLeaf_inv in Hset as (b & _ & ->). simpl.
  apply lookup_insert_ne. congruence.
Qed.

(** A leaf written with [setLeaf<T>] reads back with [getLeaf<T>], for the
    three leaf types of these sources. *)
Lemma getLeaf_setLeaf_int (n : string) (v : Z) (a a' : Arbol.t) :
  Arbol.setLeaf n v a = Ok a' -> Arbol.getLeaf Z n a' = Ok v.
Proof.
  intros Hset. apply setLeaf_inv in Hset as (b & _ & ->).
  unfold Arbol.getLeaf. simpl. rewrite lookup_insert_eq. reflexivity.
Qed.

Lemma getLeaf_setLeaf_double (n : string) (v : float) (a a' : Arbol.t) :
  Arbol.setLeaf n v a = Ok a' -> Arbol.getLeaf float n a' = Ok v.
Proof.
  intros Hset. apply setLeaf_inv in Hset as (b & _ & ->).
  unfold Arbol.getLeaf. simpl. rewrite lookup_insert_eq. reflexivity.
Qed.

Lemma getLeaf_setLeaf_bool (n : string) (v : bool) (a a' : Arbol.t) :
  Arbol.setLeaf n v a = Ok a' -> Arbol.getLeaf bool n a' = Ok v.
Proof.
  intros Hset. apply setLeaf_inv in Hset as (b & _ & ->).
  unfold Arbol.getLeaf. simpl. rewrite lookup_insert_eq. reflexivity.
Qed.

Lemma setVal_inv {T} `{Variables.VarType T} (n : string) (v : T) (g g' : Variables.t) :
  Variables.setVal n v g = Ok g' ->
  ∃ s, g !! n = Some s
       ∧ g' = <[n := Variables.mkSlot (Variables.to_val v) (Variables.reset_value s)]> g.
Proof.
  unfold Variables.setVal. destruct (g !! n) as [s|]; [|discriminate].
  destruct (Variables.of_val (Variables.value s)); [|discriminate].
  intros [= <-]. eauto.
Qed.

Lemma setVal_other {T} `{Variables.VarType T} (n m : string) (v : T) (g g' : Variables.t) :
  Variables.setVal n v g = Ok g' -> m ≠ n -> g' !! m = g !! m.
Proof.
  intros Hset Hne. apply setVal_inv in Hset as (s & _ & ->).
  apply lookup_insert_ne. congruence.
Qed.

Lemma getVal_setVal_p4 (n : string) (v : LorentzVector) (g g' : Variables.t) :
  Variables.setVal n v g = Ok g' -> Variables.getVal LorentzVector n g' = Ok v.
Proof.
  intros Hset. apply setVal_inv in Hset as (s & _ & ->).
  unfold Variables.getVal. rewrite lookup_insert_eq. reflexivity.
Qed.

(** Read a leaf of the arbol a chain of [setLeaf]s produced: skip the
    writes of other leaves, stop at the write of the leaf itself. *)
Ltac read_leaf :=
  repeat match goal with
         | H : Arbol.setLeaf ?n _ ?a = Ok ?a' |- Arbol.getLeaf _ ?m ?a' = _ =>
             first [ exact (getLeaf_setLeaf_int _ _ _ _ H)
                   | exact (getLeaf_setLeaf_double _ _ _ _ H)
                   | exact (getLeaf_setLeaf_bool _ _ _ _ H)
                   | rewrite (getLeaf_setLeaf_ne n m _ a a' H) by discriminate ]
         end.

(** ** The lepton identification of [Has1LepPKU] *)

Lemma wrap_int_small (z : Z) : - 2 ^ 31 ≤ z < 2 ^ 31 -> wrap_int z = z.
Proof. intros Hz. unfold wrap_int. rewrite Z.mod_small by lia. lia. Qed.

Lemma to_unsigned_small (z : Z) : 0 ≤ z < 2 ^ 32 -> to_unsigned z = z.
Proof. intros Hz. unfold to_unsigned. apply Z.mod_small. exact Hz. Qed.

Lemma float_leb_false_below (x c d : float) :
  (c <=? d)%float = true -> (x <=? d)%float = false -> (x <=? c)%float = false.
Proof.
  intros Hcd Hxd. destruct (x <=? c)%float eqn:Hxc; [|reflexivity].
  rewrite (float_leb_trans _ _ _ Hxc Hcd) in Hxd. discriminate.
Qed.

Lemma float_leb_false_above (x c d : float) :
  (c <=? d)%float = true -> (c <=? x)%float = false -> (d <=? x)%float = false.
Proof.
  intros Hcd Hcx. destruct (d <=? x)%float eqn:Hdx; [|reflexivity].
  rewrite (float_leb_trans _ _ _ Hcd Hdx) in Hcx. discriminate.
Qed.

Section PKU_facts.

Variable leptons : Nano -> Leptons.Branches.
Variable add_branches : float -> float -> float.

Lemma PKU_tight_veto : tight_is_veto (Leptons.PKU leptons add_branches).
Proof.
  intros nt i. split; simpl.
  - unfold Leptons.PKU_passesTightElecID, Leptons.PKU_passesVetoElecID.
    destruct (at_ (Leptons.Electron_pt (leptons nt)) i) as [pt|e]; simpl; [|discriminate].
    destruct (pt <=? 35)%float eqn:Hpt; [discriminate|].
    rewrite (float_leb_false_below pt 10 35 eq_refl Hpt).
    destruct (at_ (Leptons.Electron_cutBased (leptons nt)) i) as [cb|e]; simpl; [|discriminate].
    destruct (Z.ltb_spec cb 3); [discriminate|].
    destruct (Z.ltb_spec cb 1); [lia|]. reflexivity.
  - unfold Leptons.PKU_passesTightMuonID, Leptons.PKU_passesVetoMuonID.
    destruct (at_ (Leptons.Muon_tightId (leptons nt)) i) as [[]|e]; simpl; try discriminate.
    destruct (at_ (Leptons.Muon_pfRelIso04_all (leptons nt)) i) as [iso|e]; simpl;
      [|discriminate].
    destruct (0.15 <=? iso)%float eqn:Hiso; [discriminate|].
    rewrite (float_leb_false_above iso 0.15 0.4 eq_refl Hiso).
    destruct (at_ (Leptons.Muon_pt (leptons nt)) i) as [pt|e]; simpl; [|discriminate].
    destruct (pt <=? 26)%float eqn:Hpt; [discriminate|].
    rewrite (float_leb_false_below pt 10 26 eq_refl Hpt). reflexivity.
Qed.

(** X1: an electron or a muon that passes the tight identification of
    [Has1LepPKU] passes its veto identification, whatever its branches hold
    (not-a-number included): the tight thresholds on transverse momentum,
    identification and isolation are the stricter ones. *)
Theorem PKU_tight_is_veto (nt : Nano) (lep_i : Z) :
  (Leptons.PKU_passesTightElecID leptons add_branches nt lep_i = Ok true ->
   Leptons.PKU_passesVetoElecID leptons nt lep_i = Ok true)
  ∧ (Leptons.PKU_passesTightMuonID leptons nt lep_i = Ok true ->
     Leptons.PKU_passesVetoMuonID leptons nt lep_i = Ok true).
Proof. exact (PKU_tight_veto nt lep_i). Qed.

End PKU_facts.

Lemma PKU_tight_is_veto_witness :
  Leptons.PKU_passesTightElecID SampleLeptons.branches PrimFloat.add Sample.nano 0 = Ok true
  ∧ Leptons.PKU_passesVetoElecID SampleLeptons.branches Sample.nano 0 = Ok true.
Proof.
  split; [reflexivity|].
  apply (PKU_tight_is_veto SampleLeptons.branches PrimFloat.add Sample.nano 0). reflexivity.
Defined.

(** ** [Has1Lep::evaluate] *)

Section Has1Lep_facts.

Variable id : Leptons.ID.
Variables pt eta phi : LorentzVector -> float.

(** One turn of the loop adds the flags of its lepton to the counts. *)
Lemma count_lepton_spec nt pdgIDs idxs (k nv ntl ti nv' ntl' ti' : Z) :
  0 ≤ k < 2 ^ 31 -> 0 ≤ nv -> nv + 1 < 2 ^ 31 -> 0 ≤ ntl -> ntl + 1 < 2 ^ 31 ->
  Leptons.count_lepton id nt pdgIDs idxs k (nv, ntl, ti) = Ok (nv', ntl', ti') ->
  nv' = nv + b2z (veto_flag id nt pdgIDs idxs k)
  ∧ ntl' = ntl + b2z (tight_flag id nt pdgIDs idxs k)
  ∧ ti' = (if tight_flag id nt pdgIDs idxs k then k else ti).
Proof.
  intros Hk Hnv Hnv' Hntl Hntl'. unfold Leptons.count_lepton, veto_flag, tight_flag.
  destruct (at_ idxs k) as [lep_i|e]; simpl; [|discriminate].
  destruct (at_ pdgIDs k) as [pdg|e]; simpl; [|discriminate].
  rewrite !(wrap_int_small (nv + 1)), !(wrap_int_small (ntl + 1)), !(wrap_int_small k) by lia.
  destruct (abs_int pdg =? 11).
  - destruct (Leptons.passesVetoElecID id nt _) as [veto|e]; simpl; [|discriminate].
    destruct (Leptons.passesTightElecID id nt _) as [tight|e]; simpl; [|discriminate].
    destruct veto, tight; intros [= <- <- <-]; simpl; repeat split; lia.
  - destruct (abs_int pdg =? 13).
    + destruct (Leptons.passesVetoMuonID id nt _) as [veto|e]; simpl; [|discriminate].
      destruct (Leptons.passesTightMuonID id nt _) as [tight|e]; simpl; [|discriminate].
      destruct veto, tight; intros [= <- <- <-]; simpl; repeat split; lia.
    + intros [= <- <- <-]. simpl. repeat split; lia.
Qed.

Lemma filter_length_le {A} (f : A -> bool) (l : list A) :
  (length (List.filter f l) ≤ length l)%nat.
Proof. induction l as [|x l IH]; simpl; [lia|]. destruct (f x); simpl; lia. Qed.

Lemma indices_length k n : length (indices k n) = n.
Proof. revert k. induction n as [|n IH]; intros k; simpl; [reflexivity|]. rewrite IH. reflexivity. Qed.

Lemma indices_elem k n i : i ∈ indices k n ↔ k ≤ i < k + Z.of_nat n.
Proof.
  revert k. induction n as [|n IH]; intros k; simpl.
  - rewrite elem_of_nil. lia.
  - rewrite elem_of_cons, IH. lia.
Qed.

(** The loop returns the number of veto leptons, the number of tight leptons
    and the index of the last tight lepton. *)
Lemma count_leptons_spec nt pdgIDs idxs (n : nat) :
  ∀ (k nv ntl ti nv' ntl' ti' : Z),
    0 ≤ k -> k + Z.of_nat n < 2 ^ 31 ->
    0 ≤ nv -> nv + Z.of_nat n < 2 ^ 31 -> 0 ≤ ntl -> ntl + Z.of_nat n < 2 ^ 31 ->
    Leptons.count_leptons id nt pdgIDs idxs n k (nv, ntl, ti) = Ok (nv', ntl', ti') ->
    nv' = nv + Z.of_nat (length (List.filter (veto_flag id nt pdgIDs idxs) (indices k n)))
    ∧ ntl' = ntl + Z.of_nat (length (List.filter (tight_flag id nt pdgIDs idxs) (indices k n)))
    ∧ ti' = last_with (tight_flag id nt pdgIDs idxs) (indices k n) ti.
Proof.
  induction n as [|n IH]; intros k nv ntl ti nv' ntl' ti' Hk Hkn Hnv Hnvn Hntl Hntln Hloop.
  - injection Hloop as <- <- <-. simpl. repeat split; lia.
  - cbn [Leptons.count_leptons] in Hloop.
    destruct (Leptons.count_lepton id nt pdgIDs idxs k (nv, ntl, ti)) as [[[nv1 ntl1] ti1]|e]
      eqn:Hstep; simpl in Hloop; [|discriminate].
    apply count_lepton_spec in Hstep as (E1 & E2 & E3); try lia.
    assert (Hb : ∀ b, 0 ≤ b2z b ≤ 1) by (intros []; simpl; lia).
    pose proof (Hb (veto_flag id nt pdgIDs idxs k)).
    pose proof (Hb (tight_flag id nt pdgIDs idxs k)).
    apply IH in Hloop as (-> & -> & ->); try lia.
    subst nv1 ntl1 ti1. cbn [indices List.filter]. unfold last_with. cbn [fold_left].
    destruct (veto_flag id nt pdgIDs idxs k), (tight_flag id nt pdgIDs idxs k);
      cbn [length b2z]; repeat split; lia.
Qed.

(** What a passing [Has1Lep::evaluate] did. *)
Lemma Has1Lep_pass_inv (w w' : World) :
  Leptons.Has1Lep_evaluate id pt eta phi w = Ok (true, w') ->
  ∃ p4s pdgIDs idxs nv ntl ti lep_p4 lep_pdgID MET g a1 a2 a3 a4 a5,
    Variables.getVal LorentzVectors "good_lep_p4s" (globals w) = Ok p4s
    ∧ Variables.getVal Integers "good_lep_pdgIDs" (globals w) = Ok pdgIDs
    ∧ Variables.getVal Integers "good_lep_idxs" (globals w) = Ok idxs
    ∧ Leptons.count_leptons id (nt w) pdgIDs idxs (length p4s) 0 (0, 0, -999)
      = Ok (nv, ntl, ti)
    ∧ ntl = 1 ∧ nv = 1
    ∧ at_ p4s ti = Ok lep_p4 ∧ at_ pdgIDs ti = Ok lep_pdgID
    ∧ Variables.setVal "lep_p4" lep_p4 (globals w) = Ok g
    ∧ Arbol.setLeaf "lep_pdgID" lep_pdgID (arbol w) = Ok a1
    ∧ Arbol.setLeaf "lep_pt" (pt lep_p4) a1 = Ok a2
    ∧ Arbol.setLeaf "lep_eta" (eta lep_p4) a2 = Ok a3
    ∧ Arbol.setLeaf "lep_phi" (phi lep_p4) a3 = Ok a4
    ∧ Arbol.getLeaf float "MET" a4 = Ok MET
    ∧ Arbol.setLeaf "LT" (pt lep_p4 + MET)%float a4 = Ok a5
    ∧ w' = with_arbol a5 (with_globals g w).
Proof.
  intros H. unfold Leptons.Has1Lep_evaluate in H.
  apply bind_Ok_inv in H as (p4s & Hp4s & H).
  apply bind_Ok_inv in H as (pdgIDs & HpdgIDs & H).
  apply bind_Ok_inv in H as (idxs & Hidxs & H).
  apply bind_Ok_inv in H as ([[nv ntl] ti] & Hloop & H).
  destruct (Z.eqb_spec ntl 1) as [Hntl|_]; simpl in H; [|discriminate].
  destruct (Z.eqb_spec nv 1) as [Hnv|_]; simpl in H; [|discriminate].
  apply bind_Ok_inv in H as (lep_p4 & Hlep_p4 & H).
  apply bind_Ok_inv in H as (g & Hg & H).
  apply bind_Ok_inv in H as (lep_pdgID & Hpdg & H).
  apply bind_Ok_inv in H as (a1 & H1 & H).
  apply bind_Ok_inv in H as (a2 & H2 & H).
  apply bind_Ok_inv in H as (a3 & H3 & H).
  apply bind_Ok_inv in H as (a4 & H4 & H).
  apply bind_Ok_inv in H as (MET & HMET & H).
  apply bind_Ok_inv in H as (a5 & H5 & H).
  injection H as <-.
  exists p4s, pdgIDs, idxs, nv, ntl, ti, lep_p4, lep_pdgID, MET, g, a1, a2, a3, a4, a5.
  repeat split; assumption.
Qed.

(** A flagged lepton is an electron or a muon. *)
Lemma tight_flag_flavour nt pdgIDs idxs (i lep_pdgID : Z) :
  tight_flag id nt pdgIDs idxs i = true -> at_ pdgIDs i = Ok lep_pdgID ->
  abs_int lep_pdgID = 11 ∨ abs_int lep_pdgID = 13.
Proof.
  unfold tight_flag. intros Hflag Hat. rewrite Hat in Hflag.
  destruct (at_ idxs i); [|discriminate].
  destruct (Z.eqb_spec (abs_int lep_pdgID) 11); [auto|].
  destruct (Z.eqb_spec (abs_int lep_pdgID) 13); [auto|discriminate].
Qed.

Lemma last_with_flag (f : Z -> bool) (l : list Z) :
  ∀ d, List.filter f l ≠ [] ->
       f (last_with f l d) = true ∧ last_with f l d ∈ l.
Proof.
  unfold last_with. induction l as [|x l IH]; intros d Hne; [contradiction|].
  cbn [fold_left]. destruct (List.filter f l) as [|y ys] eqn:Hrest.
  - assert (Hnone : ∀ d', fold_left (fun acc i => if f i then i else acc) l d' = d').
    { clear IH Hne. induction l as [|z l IHl]; intros d'; [reflexivity|].
      simpl in Hrest. cbn [fold_left]. destruct (f z); [discriminate|]. auto. }
    rewrite Hnone. simpl in Hne. rewrite Hrest in Hne.
    destruct (f x) eqn:Hx; [|contradiction]. split; [exact Hx|apply elem_of_cons; auto].
  - destruct (IH (if f x then x else d)) as (Hf & Hin); [discriminate|].
    split; [exact Hf|apply elem_of_cons; auto].
Qed.

Lemma filter_single (f : Z -> bool) (l : list Z) (x y : Z) :
  NoDup l -> length (List.filter f l) = 1%nat ->
  x ∈ l -> f x = true -> y ∈ l -> f y = true -> x = y.
Proof.
  intros Hnd Hlen Hx Hfx Hy Hfy.
  assert (Hxin : x ∈ List.filter f l)
    by (apply list_elem_of_In, filter_In; rewrite <- list_elem_of_In; auto).
  assert (Hyin : y ∈ List.filter f l)
    by (apply list_elem_of_In, filter_In; rewrite <- list_elem_of_In; auto).
  destruct (List.filter f l) as [|z [|z' zs]]; simpl in Hlen; try discriminate.
  apply list_elem_of_singleton in Hxin, Hyin. congruence.
Qed.

Lemma indices_NoDup k n : NoDup (indices k n).
Proof.
  revert k. induction n as [|n IH]; intros k; simpl; [constructor|].
  constructor; [|apply IH]. rewrite indices_elem. lia.
Qed.

(** X2: when [Has1Lep::evaluate] passes, what it wrote describes one good
    lepton: an electron or a muon that its flavour's tight identification
    accepts.  [lep_p4], [lep_pdgID], [lep_pt], [lep_eta] and [lep_phi] are
    those of that lepton, and [LT] is its transverse momentum plus [MET]. *)
Theorem Has1Lep_writes_the_tight_lepton (w w' : World) (p4s : LorentzVectors) :
  Variables.getVal LorentzVectors "good_lep_p4s" (globals w) = Ok p4s ->
  Z.of_nat (length p4s) < 2 ^ 31 ->
  Leptons.Has1Lep_evaluate id pt eta phi w = Ok (true, w') ->
  ∃ pdgIDs idxs tight_lep_idx lep_p4 lep_pdgID MET,
    Variables.getVal Integers "good_lep_pdgIDs" (globals w) = Ok pdgIDs
    ∧ Variables.getVal Integers "good_lep_idxs" (globals w) = Ok idxs
    ∧ tight_flag id (nt w) pdgIDs idxs tight_lep_idx = true
    ∧ at_ p4s tight_lep_idx = Ok lep_p4
    ∧ at_ pdgIDs tight_lep_idx = Ok lep_pdgID
    ∧ (abs_int lep_pdgID = 11 ∨ abs_int lep_pdgID = 13)
    ∧ Variables.getVal LorentzVector "lep_p4" (globals w') = Ok lep_p4
    ∧ Arbol.getLeaf Z "lep_pdgID" (arbol w') = Ok lep_pdgID
    ∧ Arbol.getLeaf float "lep_pt" (arbol w') = Ok (pt lep_p4)
    ∧ Arbol.getLeaf float "lep_eta" (arbol w') = Ok (eta lep_p4)
    ∧ Arbol.getLeaf float "lep_phi" (arbol w') = Ok (phi lep_p4)
    ∧ Arbol.getLeaf float "MET" (arbol w) = Ok MET
    ∧ Arbol.getLeaf float "LT" (arbol w') = Ok (pt lep_p4 + MET)%float.
Proof.
  intros Hp4s Hlen Hpass.
  apply Has1Lep_pass_inv in Hpass
    as (p4s' & pdgIDs & idxs & nv & ntl & ti & lep_p4 & lep_pdgID & MET & g & a1 & a2 & a3
        & a4 & a5 & Hp4s' & HpdgIDs & Hidxs & Hloop & -> & -> & Hlep & Hpdg & Hg & H1 & H2
        & H3 & H4 & HMET & H5 & ->).
  rewrite Hp4s in Hp4s'. injection Hp4s' as <-.
  apply count_leptons_spec in Hloop as (_ & Hntl & Hti); try lia.
  assert (Hflag : tight_flag id (nt w) pdgIDs idxs ti = true).
  { rewrite Hti. apply last_with_flag.
    destruct (List.filter _ _); [simpl in Hntl; lia|discriminate]. }
  exists pdgIDs, idxs, ti, lep_p4, lep_pdgID, MET.
  split; [exact HpdgIDs|]. split; [exact Hidxs|]. split; [exact Hflag|].
  split; [exact Hlep|]. split; [exact Hpdg|].
  split; [exact (tight_flag_flavour _ _ _ _ _ Hflag Hpdg)|].
  split; [exact (getVal_setVal_p4 _ _ _ _ Hg)|]. simpl.
  split; [read_leaf|]. split; [read_leaf|]. split; [read_leaf|]. split; [read_leaf|].
  split; [|read_leaf].
  rewrite <- HMET. symmetry. read_leaf. reflexivity.
Qed.

(** With an identification whose tight leptons are veto leptons, a passing
    [Has1Lep::evaluate] saw exactly one veto lepton among the good leptons:
    the tight lepton it wrote out. *)
Lemma Has1Lep_single_veto (w w' : World) (p4s : LorentzVectors) (pdgIDs idxs : Integers) :
  tight_is_veto id ->
  Variables.getVal LorentzVectors "good_lep_p4s" (globals w) = Ok p4s ->
  Variables.getVal Integers "good_lep_pdgIDs" (globals w) = Ok pdgIDs ->
  Variables.getVal Integers "good_lep_idxs" (globals w) = Ok idxs ->
  Z.of_nat (length p4s) < 2 ^ 31 ->
  Leptons.Has1Lep_evaluate id pt eta phi w = Ok (true, w') ->
  ∃ tight_lep_idx lep_pdgID,
    at_ pdgIDs tight_lep_idx = Ok lep_pdgID
    ∧ Arbol.getLeaf Z "lep_pdgID" (arbol w') = Ok lep_pdgID
    ∧ tight_flag id (nt w) pdgIDs idxs tight_lep_idx = true
    ∧ veto_flag id (nt w) pdgIDs idxs tight_lep_idx = true
    ∧ ∀ i, 0 ≤ i < Z.of_nat (length p4s) ->
           veto_flag id (nt w) pdgIDs idxs i = true -> i = tight_lep_idx.
Proof.
  intros Hid Hp4s HpdgIDs Hidxs Hlen Hpass.
  apply Has1Lep_pass_inv in Hpass
    as (p4s' & pdgIDs' & idxs' & nv & ntl & ti & lep_p4 & lep_pdgID & MET & g & a1 & a2 & a3
        & a4 & a5 & Hp4s' & HpdgIDs' & Hidxs' & Hloop & -> & -> & Hlep & Hpdg & Hg & H1 & H2
        & H3 & H4 & HMET & H5 & ->).
  rewrite Hp4s in Hp4s'. injection Hp4s' as <-.
  rewrite HpdgIDs in HpdgIDs'. injection HpdgIDs' as <-.
  rewrite Hidxs in Hidxs'. injection Hidxs' as <-.
  apply count_leptons_spec in Hloop as (Hnv & Hntl & Hti); try lia.
  assert (Hne : List.filter (tight_flag id (nt w) pdgIDs idxs) (indices 0 (length p4s)) ≠ []).
  { intros E. rewrite E in Hntl. simpl in Hntl. lia. }
  destruct (last_with_flag _ _ (-999) Hne) as (Hflag & Hin). rewrite <- Hti in Hflag, Hin.
  assert (Hveto : veto_flag id (nt w) pdgIDs idxs ti = true).
  { revert Hflag. unfold tight_flag, veto_flag.
    destruct (at_ idxs ti) as [lep_i|]; [|discriminate].
    destruct (at_ pdgIDs ti) as [pdg|]; [|discriminate].
    destruct (Hid (nt w) (wrap_int (to_unsigned lep_i))) as (He & Hm).
    destruct (abs_int pdg =? 11).
    - destruct (Leptons.passesTightElecID id (nt w) _) as [[]|]; try discriminate.
      rewrite (He eq_refl). reflexivity.
    - destruct (abs_int pdg =? 13); [|discriminate].
      destruct (Leptons.passesTightMuonID id (nt w) _) as [[]|]; try discriminate.
      rewrite (Hm eq_refl). reflexivity. }
  exists ti, lep_pdgID. split; [exact Hpdg|]. split; [simpl; read_leaf|].
  split; [exact Hflag|]. split; [exact Hveto|].
  intros i Hi Hvi.
  apply (filter_single (veto_flag id (nt w) pdgIDs idxs) (indices 0 (length p4s)));
    try assumption.
  - apply indices_NoDup.
  - lia.
  - apply indices_elem. lia.
Qed.

(** X3: whatever [Has1Lep::evaluate] returns, the event, the options and the
    rows filled so far are as before; a rejection leaves both stores as
    they were, and a pass changes no variable but [lep_p4] and no branch but
    [lep_pdgID], [lep_pt], [lep_eta], [lep_phi] and [LT]. *)
Theorem Has1Lep_frame (w w' : World) (passed : bool) :
  Leptons.Has1Lep_evaluate id pt eta phi w = Ok (passed, w') ->
  nt w' = nt w ∧ cli w' = cli w ∧ Arbol.rows (arbol w') = Arbol.rows (arbol w)
  ∧ (passed = false -> w' = w)
  ∧ (∀ n, n ≠ "lep_p4" -> globals w' !! n = globals w !! n)
  ∧ (∀ n, n ∉ ["lep_pdgID"; "lep_pt"; "lep_eta"; "lep_phi"; "LT"] ->
          Arbol.branches (arbol w') !! n = Arbol.branches (arbol w) !! n).
Proof.
  destruct passed.
  - intros Hpass.
    apply Has1Lep_pass_inv in Hpass
      as (p4s' & pdgIDs & idxs & nv & ntl & ti & lep_p4 & lep_pdgID & MET & g & a1 & a2 & a3
          & a4 & a5 & Hp4s' & HpdgIDs & Hidxs & Hloop & -> & -> & Hlep & Hpdg & Hg & H1 & H2
          & H3 & H4 & HMET & H5 & ->).
    simpl. split; [reflexivity|]. split; [reflexivity|]. split.
    { rewrite (setLeaf_rows _ _ _ _ H5), (setLeaf_rows _ _ _ _ H4), (setLeaf_rows _ _ _ _ H3),
        (setLeaf_rows _ _ _ _ H2), (setLeaf_rows _ _ _ _ H1). reflexivity. }
    split; [discriminate|]. split.
    + intros n Hn. exact (setVal_other _ _ _ _ _ Hg Hn).
    + intros n Hn. rewrite !not_elem_of_cons in Hn. destruct Hn as (N1 & N2 & N3 & N4 & N5 & _).
      rewrite (setLeaf_other _ _ _ _ _ H5 N5), (setLeaf_other _ _ _ _ _ H4 N4),
        (setLeaf_other _ _ _ _ _ H3 N3), (setLeaf_other _ _ _ _ _ H2 N2),
        (setLeaf_other _ _ _ _ _ H1 N1). reflexivity.
  - intros H. unfold Leptons.Has1Lep_evaluate in H.
    apply bind_Ok_inv in H as (p4s & Hp4s & H).
    apply bind_Ok_inv in H as (pdgIDs & HpdgIDs & H).
    apply bind_Ok_inv in H as (idxs & Hidxs & H).
    apply bind_Ok_inv in H as ([[nv ntl] ti] & Hloop & H).
    destruct (negb (ntl =? 1) || negb (nv =? 1)).
    + injection H as <-. repeat split; reflexivity.
    + repeat (apply bind_Ok_inv in H as (? & _ & H)). discriminate.
Qed.

(** X4: [Has1Lep::evaluate] rejects only events that do not have exactly one
    tight and exactly one veto lepton among the good leptons, and a
    rejection writes nothing. *)
Theorem Has1Lep_rejects_unless_one_lepton
    (w w' : World) (p4s : LorentzVectors) (pdgIDs idxs : Integers) :
  Variables.getVal LorentzVectors "good_lep_p4s" (globals w) = Ok p4s ->
  Variables.getVal Integers "good_lep_pdgIDs" (globals w) = Ok pdgIDs ->
  Variables.getVal Integers "good_lep_idxs" (globals w) = Ok idxs ->
  Z.of_nat (length p4s) < 2 ^ 31 ->
  Leptons.Has1Lep_evaluate id pt eta phi w = Ok (false, w') ->
  w' = w
  ∧ (length (List.filter (tight_flag id (nt w) pdgIDs idxs) (indices 0 (length p4s))) ≠ 1%nat
     ∨ length (List.filter (veto_flag id (nt w) pdgIDs idxs) (indices 0 (length p4s)))
       ≠ 1%nat).
Proof.
  intros Hp4s HpdgIDs Hidxs Hlen H. unfold Leptons.Has1Lep_evaluate in H.
  rewrite Hp4s, HpdgIDs, Hidxs in H. simpl in H.
  apply bind_Ok_inv in H as ([[nv ntl] ti] & Hloop & H).
  apply count_leptons_spec in Hloop as (Hnv & Hntl & _); try lia.
  destruct (Z.eqb_spec ntl 1) as [E1|N1]; simpl in H.
  - destruct (Z.eqb_spec nv 1) as [E2|N2]; simpl in H.
    + repeat (apply bind_Ok_inv in H as (? & _ & H)). discriminate.
    + injection H as <-. split; [reflexivity|]. right. lia.
  - injection H as <-. split; [reflexivity|]. left. lia.
Qed.

End Has1Lep_facts.

Lemma Has1Lep_writes_the_tight_lepton_witness :
  ∃ pdgIDs idxs tight_lep_idx lep_p4 lep_pdgID MET,
    Variables.getVal Integers "good_lep_pdgIDs" (globals SampleLeptons.event) = Ok pdgIDs
    ∧ Variables.getVal Integers "good_lep_idxs" (globals SampleLeptons.event) = Ok idxs
    ∧ tight_flag SampleLeptons.PKU (nt SampleLeptons.event) pdgIDs idxs tight_lep_idx = true
    ∧ at_ [mkP4 50 0.5 1 50; mkP4 5 1 2 5]%float tight_lep_idx = Ok lep_p4
    ∧ at_ pdgIDs tight_lep_idx = Ok lep_pdgID
    ∧ (abs_int lep_pdgID = 11 ∨ abs_int lep_pdgID = 13)
    ∧ Variables.getVal LorentzVector "lep_p4" (globals SampleLeptons.after_Has1Lep) = Ok lep_p4
    ∧ Arbol.getLeaf Z "lep_pdgID" (arbol SampleLeptons.after_Has1Lep) = Ok lep_pdgID
    ∧ Arbol.getLeaf float "lep_pt" (arbol SampleLeptons.after_Has1Lep)
      = Ok (SampleHbb.pt lep_p4)
    ∧ Arbol.getLeaf float "lep_eta" (arbol SampleLeptons.after_Has1Lep)
      = Ok (SampleHbb.eta lep_p4)
    ∧ Arbol.getLeaf float "lep_phi" (arbol SampleLeptons.after_Has1Lep)
      = Ok (SampleHbb.phi lep_p4)
    ∧ Arbol.getLeaf float "MET" (arbol SampleLeptons.event) = Ok MET
    ∧ Arbol.getLeaf float "LT" (arbol SampleLeptons.after_Has1Lep)
      = Ok (SampleHbb.pt lep_p4 + MET)%float.
Proof.
  apply (Has1Lep_writes_the_tight_lepton SampleLeptons.PKU SampleHbb.pt SampleHbb.eta
           SampleHbb.phi SampleLeptons.event SampleLeptons.after_Has1Lep).
  - reflexivity.
  - simpl. lia.
  - vm_compute. reflexivity.
Defined.

Lemma Has1Lep_frame_witness :
  nt SampleLeptons.after_Has1Lep = nt SampleLeptons.event
  ∧ cli SampleLeptons.after_Has1Lep = cli SampleLeptons.event
  ∧ Arbol.rows (arbol SampleLeptons.after_Has1Lep) = Arbol.rows (arbol SampleLeptons.event)
  ∧ (true = false -> SampleLeptons.after_Has1Lep = SampleLeptons.event)
  ∧ (∀ n, n ≠ "lep_p4" ->
          globals SampleLeptons.after_Has1Lep !! n = globals SampleLeptons.event !! n)
  ∧ (∀ n, n ∉ ["lep_pdgID"; "lep_pt"; "lep_eta"; "lep_phi"; "LT"] ->
          Arbol.branches (arbol SampleLeptons.after_Has1Lep) !! n
          = Arbol.branches (arbol SampleLeptons.event) !! n).
Proof.
  apply (Has1Lep_frame SampleLeptons.PKU SampleHbb.pt SampleHbb.eta SampleHbb.phi
           SampleLeptons.event SampleLeptons.after_Has1Lep true).
  vm_compute. reflexivity.
Defined.

Lemma Has1Lep_rejects_unless_one_lepton_witness :
  SampleLeptons.two_electrons = SampleLeptons.two_electrons
  ∧ (length (List.filter
               (tight_flag SampleLeptons.PKU (nt SampleLeptons.two_electrons) [11; -11] [0; 0])
               (indices 0 (length [mkP4 50 0.5 1 50; mkP4 5 1 2 5]%float))) ≠ 1%nat
     ∨ length (List.filter
                 (veto_flag SampleLeptons.PKU (nt SampleLeptons.two_electrons) [11; -11]
                    [0; 0])
                 (indices 0 (length [mkP4 50 0.5 1 50; mkP4 5 1 2 5]%float))) ≠ 1%nat).
Proof.
  apply (Has1Lep_rejects_unless_one_lepton SampleLeptons.PKU SampleHbb.pt SampleHbb.eta
           SampleHbb.phi SampleLeptons.two_electrons SampleLeptons.two_electrons).
  - reflexivity.
  - reflexivity.
  - reflexivity.
  - simpl. lia.
  - vm_compute. reflexivity.
Defined.

(** ** [Has1LepPKU] and the trigger cut after it *)

Section Has1LepPKU_facts.

Variable leptons : Nano -> Leptons.Branches.
Variable add_branches : float -> float -> float.
Variables pt eta phi : LorentzVector -> float.

(** X5: an event that passes [Has1LepPKU] has exactly one veto lepton among its
    good leptons, and that lepton is the tight one whose [lep_pdgID] the cut
    wrote: no second lepton passes even the veto identification. *)
Theorem Has1LepPKU_exactly_one_veto_lepton
    (w w' : World) (p4s : LorentzVectors) (pdgIDs idxs : Integers) :
  Variables.getVal LorentzVectors "good_lep_p4s" (globals w) = Ok p4s ->
  Variables.getVal Integers "good_lep_pdgIDs" (globals w) = Ok pdgIDs ->
  Variables.getVal Integers "good_lep_idxs" (globals w) = Ok idxs ->
  Z.of_nat (length p4s) < 2 ^ 31 ->
  Leptons.Has1Lep_evaluate (Leptons.PKU leptons add_branches) pt eta phi w = Ok (true, w') ->
  ∃ tight_lep_idx lep_pdgID,
    at_ pdgIDs tight_lep_idx = Ok lep_pdgID
    ∧ Arbol.getLeaf Z "lep_pdgID" (arbol w') = Ok lep_pdgID
    ∧ tight_flag (Leptons.PKU leptons add_branches) (nt w) pdgIDs idxs tight_lep_idx = true
    ∧ veto_flag (Leptons.PKU leptons add_branches) (nt w) pdgIDs idxs tight_lep_idx = true
    ∧ ∀ i, 0 ≤ i < Z.of_nat (length p4s) ->
           veto_flag (Leptons.PKU leptons add_branches) (nt w) pdgIDs idxs i = true ->
           i = tight_lep_idx.
Proof.
  intros Hp4s HpdgIDs Hidxs Hlen Hpass.
  exact (Has1Lep_single_veto _ pt eta phi w w' p4s pdgIDs idxs
           (PKU_tight_veto leptons add_branches) Hp4s HpdgIDs Hidxs Hlen Hpass).
Qed.

End Has1LepPKU_facts.

Lemma Has1LepPKU_exactly_one_veto_lepton_witness :
  ∃ tight_lep_idx lep_pdgID,
    at_ [11; -13] tight_lep_idx = Ok lep_pdgID
    ∧ Arbol.getLeaf Z "lep_pdgID" (arbol SampleLeptons.after_Has1Lep) = Ok lep_pdgID
    ∧ tight_flag SampleLeptons.PKU (nt SampleLeptons.event) [11; -13] [0; 0] tight_lep_idx
      = true
    ∧ veto_flag SampleLeptons.PKU (nt SampleLeptons.event) [11; -13] [0; 0] tight_lep_idx
      = true
    ∧ ∀ i, 0 ≤ i < Z.of_nat (length [mkP4 50 0.5 1 50; mkP4 5 1 2 5]%float) ->
           veto_flag SampleLeptons.PKU (nt SampleLeptons.event) [11; -13] [0; 0] i = true ->
           i = tight_lep_idx.
Proof.
  apply (Has1LepPKU_exactly_one_veto_lepton SampleLeptons.branches PrimFloat.add
           SampleHbb.pt SampleHbb.eta SampleHbb.phi SampleLeptons.event
           SampleLeptons.after_Has1Lep).
  - reflexivity.
  - reflexivity.
  - reflexivity.
  - simpl. lia.
  - vm_compute. reflexivity.
Defined.

Lemma passesElecTriggers_spec (nt : Nano) :
  VBSWH.passesElecTriggers nt = Ok (elec_triggers_spec nt).
Proof.
  unfold VBSWH.passesElecTriggers, elec_triggers_spec.
  unfold HLT_Ele27_WPTight_Gsf, HLT_Ele32_WPTight_Gsf_L1DoubleEG, HLT_Ele32_WPTight_Gsf.
  repeat case_match; rewrite ?try_optional_branch; simpl;
    rewrite ?passesMuonTriggers_spec; try reflexivity.
  simpl. destruct (bit (b_HLT_Ele27_WPTight_Gsf nt)); reflexivity.
Qed.

Section Passes1LepTriggers_facts.

Variable id : Leptons.ID.
Variables pt eta phi : LorentzVector -> float.

(** X6: on a simulated event that passed [Has1Lep], [Passes1LepTriggers] never
    takes its unconditional branch and never throws: it returns the electron
    triggers of the event's year when the selected lepton is an electron and
    the muon triggers otherwise, and leaves the event as it was. *)
Theorem Passes1LepTriggers_after_Has1Lep (w w' : World) (p4s : LorentzVectors) :
  isData (nt w) = false ->
  Variables.getVal LorentzVectors "good_lep_p4s" (globals w) = Ok p4s ->
  Z.of_nat (length p4s) < 2 ^ 31 ->
  Leptons.Has1Lep_evaluate id pt eta phi w = Ok (true, w') ->
  ∃ lep_pdgID,
    Arbol.getLeaf Z "lep_pdgID" (arbol w') = Ok lep_pdgID
    ∧ (abs_int lep_pdgID = 11 ∨ abs_int lep_pdgID = 13)
    ∧ VBSWH.Passes1LepTriggers_evaluate w'
      = Ok (lepton_triggers_spec lep_pdgID (nt w), w').
Proof.
  intros Hmc Hp4s Hlen Hpass.
  apply Has1Lep_pass_inv in Hpass
    as (p4s' & pdgIDs & idxs & nv & ntl & ti & lep_p4 & lep_pdgID & MET & g & a1 & a2 & a3
        & a4 & a5 & Hp4s' & HpdgIDs & Hidxs & Hloop & -> & -> & Hlep & Hpdg & Hg & H1 & H2
        & H3 & H4 & HMET & H5 & ->).
  rewrite Hp4s in Hp4s'. injection Hp4s' as <-.
  apply count_leptons_spec in Hloop as (_ & Hntl & Hti); try lia.
  assert (Hflag : tight_flag id (nt w) pdgIDs idxs ti = true).
  { rewrite Hti. apply last_with_flag.
    intros E. rewrite E in Hntl. simpl in Hntl. lia. }
  pose proof (tight_flag_flavour _ _ _ _ _ _ Hflag Hpdg) as Hflavour.
  assert (Hleaf : Arbol.getLeaf Z "lep_pdgID" a5 = Ok lep_pdgID) by read_leaf.
  exists lep_pdgID. split; [exact Hleaf|]. split; [exact Hflavour|].
  unfold VBSWH.Passes1LepTriggers_evaluate. simpl. rewrite Hleaf. simpl.
  unfold VBSWH.passesLepTriggers, lepton_triggers_spec. simpl. rewrite Hmc. simpl.
  destruct Hflavour as [-> | ->]; simpl.
  - rewrite passesElecTriggers_spec. reflexivity.
  - rewrite passesMuonTriggers_spec. reflexivity.
Qed.

End Passes1LepTriggers_facts.

Lemma Passes1LepTriggers_after_Has1Lep_witness :
  ∃ lep_pdgID,
    Arbol.getLeaf Z "lep_pdgID" (arbol SampleLeptons.after_Has1Lep) = Ok lep_pdgID
    ∧ (abs_int lep_pdgID = 11 ∨ abs_int lep_pdgID = 13)
    ∧ VBSWH.Passes1LepTriggers_evaluate SampleLeptons.after_Has1Lep
      = Ok (lepton_triggers_spec lep_pdgID (nt SampleLeptons.event),
            SampleLeptons.after_Has1Lep).
Proof.
  apply (Passes1LepTriggers_after_Has1Lep SampleLeptons.PKU SampleHbb.pt SampleHbb.eta
           SampleHbb.phi SampleLeptons.event SampleLeptons.after_Has1Lep
           [mkP4 50 0.5 1 50; mkP4 5 1 2 5]%float).
  - reflexivity.
  - reflexivity.
  - simpl. lia.
  - vm_compute. reflexivity.
Defined.

(** X7: in 2016 the electron triggers include the muon triggers: an event that
    fired a muon trigger passes [passesLepTriggers] whether the selected
    lepton is an electron or a muon, and on data whatever the file is
    named. *)
Theorem muon_triggers_2016_pass_every_lepton (w : World) (abs_lep_pdg_id : Z) :
  year (nt w) = 2016 ->
  VBSWH.passesMuonTriggers (nt w) = Ok true ->
  VBSWH.passesElecTriggers (nt w) = Ok true
  ∧ VBSWH.passesLepTriggers abs_lep_pdg_id w = Ok true.
Proof.
  intros Hyear Hmu.
  assert (Hel : VBSWH.passesElecTriggers (nt w) = Ok true).
  { rewrite passesElecTriggers_spec. rewrite passesMuonTriggers_spec in Hmu.
    injection Hmu as Hmu. unfold elec_triggers_spec. rewrite Hyear, Hmu. simpl.
    rewrite orb_true_r. reflexivity. }
  split; [exact Hel|]. unfold VBSWH.passesLepTriggers.
  destruct (isData (nt w)); simpl.
  - destruct (Contains _ "SingleMuon"); [exact Hmu|].
    destruct (Contains _ "SingleElectron" || Contains _ "EGamma"); [exact Hel|].
    rewrite Hmu. reflexivity.
  - destruct (abs_lep_pdg_id =? 11); [exact Hel|].
    destruct (abs_lep_pdg_id =? 13); [exact Hmu|reflexivity].
Qed.

Lemma muon_triggers_2016_pass_every_lepton_witness :
  VBSWH.passesElecTriggers (nt SampleLeptons.muon_2016) = Ok true
  ∧ VBSWH.passesLepTriggers 11 SampleLeptons.muon_2016 = Ok true.
Proof.
  apply (muon_triggers_2016_pass_every_lepton SampleLeptons.muon_2016 11).
  - reflexivity.
  - reflexivity.
Defined.

(** ** What [SelectHbbFatJet] selects and writes *)

(** [std::max_element] returns a position no element is larger than. *)
Lemma max_element_from_largest (v : Doubles) :
  ∀ (pre : Doubles) (i largest_i : Z) (largest : float),
    i = Z.of_nat (length pre) -> 0 ≤ largest_i ->
    (pre ++ v) !! Z.to_nat largest_i = Some largest ->
    (∀ x, x ∈ pre -> (largest <? x)%float = false) ->
    ∃ m, (pre ++ v) !! Z.to_nat (max_element_from v i largest_i largest) = Some m
         ∧ ∀ x, x ∈ pre ++ v -> (m <? x)%float = false.
Proof.
  induction v as [|x v IH]; intros pre i largest_i largest Hi H0 Hl Hpre.
  - simpl. exists largest. split; [exact Hl|]. rewrite app_nil_r. exact Hpre.
  - cbn [max_element_from].
    replace (pre ++ x :: v) with ((pre ++ [x]) ++ v) in * by (rewrite <- app_assoc; reflexivity).
    destruct (largest <? x)%float eqn:Hlt.
    + apply IH.
      * rewrite length_app. simpl. lia.
      * lia.
      * subst i. rewrite Nat2Z.id. rewrite lookup_app_l by (rewrite length_app; simpl; lia).
        rewrite lookup_app_r by lia. rewrite Nat.sub_diag. reflexivity.
      * intros y Hy. apply elem_of_app in Hy as [Hy|Hy].
        -- destruct (x <? y)%float eqn:Hxy; [|reflexivity].
           rewrite <- (Hpre y Hy). symmetry. exact (float_ltb_trans _ _ _ Hlt Hxy).
        -- apply list_elem_of_singleton in Hy as ->. apply float_ltb_irrefl.
    + apply IH.
      * rewrite length_app. simpl. lia.
      * exact H0.
      * exact Hl.
      * intros y Hy. apply elem_of_app in Hy as [Hy|Hy]; [exact (Hpre y Hy)|].
        apply list_elem_of_singleton in Hy as ->. exact Hlt.
Qed.

Lemma distance_max_element_largest (v : Doubles) (m : float) :
  at_ v (distance_max_element v) = Ok m -> ∀ x, x ∈ v -> (m <? x)%float = false.
Proof.
  destruct v as [|x v]; [discriminate|]. intros Hm.
  destruct (max_element_from_largest v [x] 1 0 x) as (m' & Hm' & Hmax).
  - reflexivity.
  - lia.
  - reflexivity.
  - intros y Hy. apply list_elem_of_singleton in Hy as ->. apply float_ltb_irrefl.
  - pose proof (distance_max_element_bounds (x :: v)) as (Hi & _).
    simpl in Hm', Hmax. unfold distance_max_element in Hm, Hi.
    rewrite (at_lookup _ _ _ Hi Hm') in Hm. injection Hm as <-. exact Hmax.
Qed.

Section SelectHbbFatJet_outputs.

Variables pt eta phi : LorentzVector -> float.
Variable DeltaR : LorentzVector -> LorentzVector -> float.

(** The loop over the generator particles only adds to its count, one at
    most for each particle. *)
Lemma count_genbquarks_bounds (nt : Nano) (best : LorentzVector) :
  ∀ n_gen gen_i n0 k,
    0 ≤ n0 -> n0 + Z.of_nat n_gen < 2 ^ 31 ->
    VBSWH.count_genbquarks DeltaR nt best n_gen gen_i n0 = Ok k ->
    n0 ≤ k ≤ n0 + Z.of_nat n_gen.
Proof.
  induction n_gen as [|n_gen IH]; intros gen_i n0 k H0 Hn Hk.
  - injection Hk as <-. lia.
  - cbn [VBSWH.count_genbquarks] in Hk.
    assert (Hnext : VBSWH.count_genbquarks DeltaR nt best n_gen (gen_i + 1) n0 = Ok k ->
                    n0 ≤ k ≤ n0 + Z.of_nat (S n_gen)).
    { intros Hc. apply IH in Hc; lia. }
    apply bind_Ok_inv in Hk as (pdgId & _ & Hk).
    destruct (negb (abs_int pdgId =? 5)); [exact (Hnext Hk)|].
    apply bind_Ok_inv in Hk as (status & _ & Hk).
    destruct (negb (status =? 23)); [exact (Hnext Hk)|].
    apply bind_Ok_inv in Hk as (mother & _ & Hk).
    apply bind_Ok_inv in Hk as (mother_pdgId & _ & Hk).
    destruct (abs_int mother_pdgId =? 5); [exact (Hnext Hk)|].
    apply bind_Ok_inv in Hk as (genpart_p4 & _ & Hk).
    destruct (DeltaR best genpart_p4 <? 0.8)%float; [|exact (Hnext Hk)].
    rewrite wrap_int_small in Hk by lia. apply IH in Hk; lia.
Qed.

Lemma SelectHbbFatJet_inv (use_md passed : bool) (w w' : World) :
  VBSWH.SelectHbbFatJet_evaluate pt eta phi DeltaR use_md w = Ok (passed, w') ->
  ∃ tags best_hbbjet_score p4s best_hbbjet_p4 n_hbbjet_genbquarks g a1 a2 a3 a4 a5
    masses mass a6 msoftdrops msoftdrop a7 LT a8,
    let best_hbbjet_i := wrap_int (distance_max_element tags) in
    passed = true
    ∧ Variables.getVal Doubles (tags_name use_md) (globals w) = Ok tags
    ∧ at_ tags best_hbbjet_i = Ok best_hbbjet_score
    ∧ Variables.getVal LorentzVectors "good_fatjet_p4s" (globals w) = Ok p4s
    ∧ at_ p4s best_hbbjet_i = Ok best_hbbjet_p4
    ∧ (if negb (isData (nt w)) then
         VBSWH.count_genbquarks DeltaR (nt w) best_hbbjet_p4 (Z.to_nat (nGenPart (nt w))) 0 0
       else Ok 0) = Ok n_hbbjet_genbquarks
    ∧ Variables.setVal "hbbjet_p4" best_hbbjet_p4 (globals w) = Ok g
    ∧ Arbol.setLeaf "n_hbbjet_genbquarks" n_hbbjet_genbquarks (arbol w) = Ok a1
    ∧ Arbol.setLeaf "hbbjet_score" best_hbbjet_score a1 = Ok a2
    ∧ Arbol.setLeaf "hbbjet_pt" (pt best_hbbjet_p4) a2 = Ok a3
    ∧ Arbol.setLeaf "hbbjet_eta" (eta best_hbbjet_p4) a3 = Ok a4
    ∧ Arbol.setLeaf "hbbjet_phi" (phi best_hbbjet_p4) a4 = Ok a5
    ∧ Variables.getVal Doubles "good_fatjet_masses" g = Ok masses
    ∧ at_ masses best_hbbjet_i = Ok mass
    ∧ Arbol.setLeaf "hbbjet_mass" mass a5 = Ok a6
    ∧ Variables.getVal Doubles "good_fatjet_msoftdrops" g = Ok msoftdrops
    ∧ at_ msoftdrops best_hbbjet_i = Ok msoftdrop
    ∧ Arbol.setLeaf "hbbjet_msoftdrop" msoftdrop a6 = Ok a7
    ∧ Arbol.getLeaf float "LT" a7 = Ok LT
    ∧ Arbol.setLeaf "ST" (LT + pt best_hbbjet_p4)%float a7 = Ok a8
    ∧ w' = with_arbol a8 (with_globals g w).
Proof.
  intros H. unfold VBSWH.SelectHbbFatJet_evaluate in H.
  apply bind_Ok_inv in H as ([i score] & Hsel & H).
  assert (Htags : ∃ tags,
            Variables.getVal Doubles (tags_name use_md) (globals w) = Ok tags
            ∧ i = wrap_int (distance_max_element tags) ∧ at_ tags i = Ok score).
  { destruct use_md; simpl in Hsel |- *;
      apply bind_Ok_inv in Hsel as (tags & Htags & Hsel);
      apply bind_Ok_inv in Hsel as (sc & Hsc & Hsel);
      injection Hsel as <- <-; eauto. }
  destruct Htags as (tags & Htags & Hi & Hscore).
  pose proof (at_Ok_inv _ _ _ Hscore) as Hrange.
  destruct (Z.ltb_spec i 0) as [|_]; [lia|].
  apply bind_Ok_inv in H as (p4s & Hp4s & H).
  apply bind_Ok_inv in H as (p4 & Hp4 & H).
  apply bind_Ok_inv in H as (k & Hk & H).
  apply bind_Ok_inv in H as (g & Hg & H).
  apply bind_Ok_inv in H as (a1 & H1 & H).
  apply bind_Ok_inv in H as (a2 & H2 & H).
  apply bind_Ok_inv in H as (a3 & H3 & H).
  apply bind_Ok_inv in H as (a4 & H4 & H).
  apply bind_Ok_inv in H as (a5 & H5 & H).
  apply bind_Ok_inv in H as (masses & Hmasses & H).
  apply bind_Ok_inv in H as (mass & Hmass & H).
  apply bind_Ok_inv in H as (a6 & H6 & H).
  apply bind_Ok_inv in H as (msds & Hmsds & H).
  apply bind_Ok_inv in H as (msd & Hmsd & H).
  apply bind_Ok_inv in H as (a7 & H7 & H).
  apply bind_Ok_inv in H as (LT & HLT & H).
  apply bind_Ok_inv in H as (a8 & H8 & H).
  injection H as <- <-. subst i.
  exists tags, score, p4s, p4, k, g, a1, a2, a3, a4, a5, masses, mass, a6, msds, msd, a7, LT, a8.
  cbv zeta. repeat split; assumption.
Qed.

(** X8: the fat jet [SelectHbbFatJet] picks has the largest score: the score it
    writes to [hbbjet_score] is one of the event's scores, and none of them
    is larger (not-a-number scores included, which compare as not larger). *)
Theorem SelectHbbFatJet_selects_largest_score
    (use_md : bool) (w w' : World) (tags : Doubles) :
  Variables.getVal Doubles (tags_name use_md) (globals w) = Ok tags ->
  Z.of_nat (length tags) ≤ 2 ^ 31 ->
  VBSWH.SelectHbbFatJet_evaluate pt eta phi DeltaR use_md w = Ok (true, w') ->
  ∃ best_hbbjet_score,
    at_ tags (distance_max_element tags) = Ok best_hbbjet_score
    ∧ Arbol.getLeaf float "hbbjet_score" (arbol w') = Ok best_hbbjet_score
    ∧ ∀ score, score ∈ tags -> (best_hbbjet_score <? score)%float = false.
Proof.
  intros Htags Hlen Hpass.
  apply SelectHbbFatJet_inv in Hpass
    as (tags' & score & p4s & p4 & k & g & a1 & a2 & a3 & a4 & a5 & masses & mass & a6
        & msds & msd & a7 & LT & a8 & _ & Htags' & Hscore & Hp4s & Hp4 & Hk & Hg & H1 & H2
        & H3 & H4 & H5 & Hmasses & Hmass & H6 & Hmsds & Hmsd & H7 & HLT & H8 & ->).
  rewrite Htags in Htags'. injection Htags' as <-.
  assert (Hwrap : wrap_int (distance_max_element tags) = distance_max_element tags).
  { destruct (distance_max_element_bounds tags) as (Hi0 & Hi1).
    destruct tags as [|x tags]; [reflexivity|].
    specialize (Hi1 ltac:(discriminate)). apply wrap_int_small. lia. }
  rewrite Hwrap in Hscore.
  exists score. split; [exact Hscore|]. split; [simpl; read_leaf|].
  exact (distance_max_element_largest tags score Hscore).
Qed.

(** X9: all that a passing [SelectHbbFatJet] writes belongs to one fat jet: the
    score, the four-momentum in [hbbjet_p4] and its [hbbjet_pt],
    [hbbjet_eta], [hbbjet_phi], the mass and the soft-drop mass are read at
    the same index of the good fat jets, and [ST] is [LT] as it was before
    the cut plus that jet's transverse momentum. *)
Theorem SelectHbbFatJet_writes_one_fatjet (use_md : bool) (w w' : World) :
  VBSWH.SelectHbbFatJet_evaluate pt eta phi DeltaR use_md w = Ok (true, w') ->
  ∃ tags p4s masses msoftdrops best_hbbjet_i score p4 mass msoftdrop LT,
    Variables.getVal Doubles (tags_name use_md) (globals w) = Ok tags
    ∧ Variables.getVal LorentzVectors "good_fatjet_p4s" (globals w) = Ok p4s
    ∧ Variables.getVal Doubles "good_fatjet_masses" (globals w) = Ok masses
    ∧ Variables.getVal Doubles "good_fatjet_msoftdrops" (globals w) = Ok msoftdrops
    ∧ at_ tags best_hbbjet_i = Ok score
    ∧ at_ p4s best_hbbjet_i = Ok p4
    ∧ at_ masses best_hbbjet_i = Ok mass
    ∧ at_ msoftdrops best_hbbjet_i = Ok msoftdrop
    ∧ Arbol.getLeaf float "LT" (arbol w) = Ok LT
    ∧ Variables.getVal LorentzVector "hbbjet_p4" (globals w') = Ok p4
    ∧ Arbol.getLeaf float "hbbjet_score" (arbol w') = Ok score
    ∧ Arbol.getLeaf float "hbbjet_pt" (arbol w') = Ok (pt p4)
    ∧ Arbol.getLeaf float "hbbjet_eta" (arbol w') = Ok (eta p4)
    ∧ Arbol.getLeaf float "hbbjet_phi" (arbol w') = Ok (phi p4)
    ∧ Arbol.getLeaf float "hbbjet_mass" (arbol w') = Ok mass
    ∧ Arbol.getLeaf float "hbbjet_msoftdrop" (arbol w') = Ok msoftdrop
    ∧ Arbol.getLeaf float "ST" (arbol w') = Ok (LT + pt p4)%float.
Proof.
  intros Hpass.
  apply SelectHbbFatJet_inv in Hpass
    as (tags & score & p4s & p4 & k & g & a1 & a2 & a3 & a4 & a5 & masses & mass & a6
        & msds & msd & a7 & LT & a8 & _ & Htags & Hscore & Hp4s & Hp4 & Hk & Hg & H1 & H2
        & H3 & H4 & H5 & Hmasses & Hmass & H6 & Hmsds & Hmsd & H7 & HLT & H8 & ->).
  exists tags, p4s, masses, msds, (wrap_int (distance_max_element tags)), score, p4, mass,
    msd, LT.
  rewrite (getVal_setVal_ne _ "good_fatjet_masses" _ _ _ Hg) in Hmasses by discriminate.
  rewrite (getVal_setVal_ne _ "good_fatjet_msoftdrops" _ _ _ Hg) in Hmsds by discriminate.
  split; [exact Htags|]. split; [exact Hp4s|]. split; [exact Hmasses|].
  split; [exact Hmsds|]. split; [exact Hscore|]. split; [exact Hp4|].
  split; [exact Hmass|]. split; [exact Hmsd|].
  split. { rewrite <- HLT. symmetry. read_leaf. reflexivity. }
  split; [exact (getVal_setVal_p4 _ _ _ _ Hg)|]. simpl.
  split; [read_leaf|]. split; [read_leaf|]. split; [read_leaf|]. split; [read_leaf|].
  split; [read_leaf|]. split; [read_leaf|]. read_leaf.
Qed.

(** X10: the count of generator b quarks that a passing [SelectHbbFatJet] writes
    to [n_hbbjet_genbquarks] lies between zero and the number of generator
    particles, and is zero on data, where the generator record is not
    read. *)
Theorem SelectHbbFatJet_genbquarks_count (use_md : bool) (w w' : World) :
  nGenPart (nt w) < 2 ^ 31 ->
  VBSWH.SelectHbbFatJet_evaluate pt eta phi DeltaR use_md w = Ok (true, w') ->
  ∃ n_hbbjet_genbquarks,
    Arbol.getLeaf Z "n_hbbjet_genbquarks" (arbol w') = Ok n_hbbjet_genbquarks
    ∧ 0 ≤ n_hbbjet_genbquarks ≤ Z.max 0 (nGenPart (nt w))
    ∧ (isData (nt w) = true -> n_hbbjet_genbquarks = 0).
Proof.
  intros Hn Hpass.
  apply SelectHbbFatJet_inv in Hpass
    as (tags & score & p4s & p4 & k & g & a1 & a2 & a3 & a4 & a5 & masses & mass & a6
        & msds & msd & a7 & LT & a8 & _ & Htags & Hscore & Hp4s & Hp4 & Hk & Hg & H1 & H2
        & H3 & H4 & H5 & Hmasses & Hmass & H6 & Hmsds & Hmsd & H7 & HLT & H8 & ->).
  exists k. split; [simpl; read_leaf|].
  destruct (isData (nt w)); simpl in Hk.
  - injection Hk as <-. split; [lia|reflexivity].
  - apply count_genbquarks_bounds in Hk; [|lia|lia]. split; [lia|discriminate].
Qed.

(** X11: [SelectHbbFatJet] leaves the event, the options and the rows filled so
    far as they were, changes no variable but [hbbjet_p4] and no branch but
    the eight it writes. *)
Theorem SelectHbbFatJet_frame (use_md passed : bool) (w w' : World) :
  VBSWH.SelectHbbFatJet_evaluate pt eta phi DeltaR use_md w = Ok (passed, w') ->
  nt w' = nt w ∧ cli w' = cli w ∧ Arbol.rows (arbol w') = Arbol.rows (arbol w)
  ∧ (∀ n, n ≠ "hbbjet_p4" -> globals w' !! n = globals w !! n)
  ∧ (∀ n, n ∉ ["n_hbbjet_genbquarks"; "hbbjet_score"; "hbbjet_pt"; "hbbjet_eta";
               "hbbjet_phi"; "hbbjet_mass"; "hbbjet_msoftdrop"; "ST"] ->
          Arbol.branches (arbol w') !! n = Arbol.branches (arbol w) !! n).
Proof.
  intros Hpass.
  apply SelectHbbFatJet_inv in Hpass
    as (tags & score & p4s & p4 & k & g & a1 & a2 & a3 & a4 & a5 & masses & mass & a6
        & msds & msd & a7 & LT & a8 & _ & Htags & Hscore & Hp4s & Hp4 & Hk & Hg & H1 & H2
        & H3 & H4 & H5 & Hmasses & Hmass & H6 & Hmsds & Hmsd & H7 & HLT & H8 & ->).
  simpl. split; [reflexivity|]. split; [reflexivity|]. split.
  { rewrite (setLeaf_rows _ _ _ _ H8), (setLeaf_rows _ _ _ _ H7), (setLeaf_rows _ _ _ _ H6),
      (setLeaf_rows _ _ _ _ H5), (setLeaf_rows _ _ _ _ H4), (setLeaf_rows _ _ _ _ H3),
      (setLeaf_rows _ _ _ _ H2), (setLeaf_rows _ _ _ _ H1). reflexivity. }
  split.
  - intros n Hne. exact (setVal_other _ _ _ _ _ Hg Hne).
  - intros n Hn. rewrite !not_elem_of_cons in Hn.
    destruct Hn as (N1 & N2 & N3 & N4 & N5 & N6 & N7 & N8 & _).
    rewrite (setLeaf_other _ _ _ _ _ H8 N8), (setLeaf_other _ _ _ _ _ H7 N7),
      (setLeaf_other _ _ _ _ _ H6 N6), (setLeaf_other _ _ _ _ _ H5 N5),
      (setLeaf_other _ _ _ _ _ H4 N4), (setLeaf_other _ _ _ _ _ H3 N3),
      (setLeaf_other _ _ _ _ _ H2 N2), (setLeaf_other _ _ _ _ _ H1 N1). reflexivity.
Qed.

End SelectHbbFatJet_outputs.

Lemma SelectHbbFatJet_selects_largest_score_witness :
  ∃ best_hbbjet_score,
    at_ [0.25; 0.75; 0.5]%float (distance_max_element [0.25; 0.75; 0.5]%float)
    = Ok best_hbbjet_score
    ∧ Arbol.getLeaf float "hbbjet_score" (arbol SampleSelected.hbb) = Ok best_hbbjet_score
    ∧ ∀ score, score ∈ [0.25; 0.75; 0.5]%float -> (best_hbbjet_score <? score)%float = false.
Proof.
  apply (SelectHbbFatJet_selects_largest_score SampleHbb.pt SampleHbb.eta SampleHbb.phi
           SampleHbb.DeltaR true SampleHbb.three_fatjets SampleSelected.hbb).
  - reflexivity.
  - simpl. lia.
  - vm_compute. reflexivity.
Defined.

Lemma SelectHbbFatJet_writes_one_fatjet_witness :
  ∃ tags p4s masses msoftdrops best_hbbjet_i score p4 mass msoftdrop LT,
    Variables.getVal Doubles (tags_name true) (globals SampleHbb.three_fatjets) = Ok tags
    ∧ Variables.getVal LorentzVectors "good_fatjet_p4s" (globals SampleHbb.three_fatjets)
      = Ok p4s
    ∧ Variables.getVal Doubles "good_fatjet_masses" (globals SampleHbb.three_fatjets)
      = Ok masses
    ∧ Variables.getVal Doubles "good_fatjet_msoftdrops" (globals SampleHbb.three_fatjets)
      = Ok msoftdrops
    ∧ at_ tags best_hbbjet_i = Ok score
    ∧ at_ p4s best_hbbjet_i = Ok p4
    ∧ at_ masses best_hbbjet_i = Ok mass
    ∧ at_ msoftdrops best_hbbjet_i = Ok msoftdrop
    ∧ Arbol.getLeaf float "LT" (arbol SampleHbb.three_fatjets) = Ok LT
    ∧ Variables.getVal LorentzVector "hbbjet_p4" (globals SampleSelected.hbb) = Ok p4
    ∧ Arbol.getLeaf float "hbbjet_score" (arbol SampleSelected.hbb) = Ok score
    ∧ Arbol.getLeaf float "hbbjet_pt" (arbol SampleSelected.hbb) = Ok (SampleHbb.pt p4)
    ∧ Arbol.getLeaf float "hbbjet_eta" (arbol SampleSelected.hbb) = Ok (SampleHbb.eta p4)
    ∧ Arbol.getLeaf float "hbbjet_phi" (arbol SampleSelected.hbb) = Ok (SampleHbb.phi p4)
    ∧ Arbol.getLeaf float "hbbjet_mass" (arbol SampleSelected.hbb) = Ok mass
    ∧ Arbol.getLeaf float "hbbjet_msoftdrop" (arbol SampleSelected.hbb) = Ok msoftdrop
    ∧ Arbol.getLeaf float "ST" (arbol SampleSelected.hbb) = Ok (LT + SampleHbb.pt p4)%float.
Proof.
  apply (SelectHbbFatJet_writes_one_fatjet SampleHbb.pt SampleHbb.eta SampleHbb.phi
           SampleHbb.DeltaR true SampleHbb.three_fatjets SampleSelected.hbb).
  vm_compute. reflexivity.
Defined.

Lemma SelectHbbFatJet_genbquarks_count_witness :
  ∃ n_hbbjet_genbquarks,
    Arbol.getLeaf Z "n_hbbjet_genbquarks" (arbol SampleSelected.hbb) = Ok n_hbbjet_genbquarks
    ∧ 0 ≤ n_hbbjet_genbquarks ≤ Z.max 0 (nGenPart (nt SampleHbb.three_fatjets))
    ∧ (isData (nt SampleHbb.three_fatjets) = true -> n_hbbjet_genbquarks = 0).
Proof.
  apply (SelectHbbFatJet_genbquarks_count SampleHbb.pt SampleHbb.eta SampleHbb.phi
           SampleHbb.DeltaR true SampleHbb.three_fatjets SampleSelected.hbb).
  - simpl. lia.
  - vm_compute. reflexivity.
Defined.

Lemma SelectHbbFatJet_frame_witness :
  nt SampleSelected.hbb = nt SampleHbb.three_fatjets
  ∧ cli SampleSelected.hbb = cli SampleHbb.three_fatjets
  ∧ Arbol.rows (arbol SampleSelected.hbb) = Arbol.rows (arbol SampleHbb.three_fatjets)
  ∧ (∀ n, n ≠ "hbbjet_p4" ->
          globals SampleSelected.hbb !! n = globals SampleHbb.three_fatjets !! n)
  ∧ (∀ n, n ∉ ["n_hbbjet_genbquarks"; "hbbjet_score"; "hbbjet_pt"; "hbbjet_eta";
               "hbbjet_phi"; "hbbjet_mass"; "hbbjet_msoftdrop"; "ST"] ->
          Arbol.branches (arbol SampleSelected.hbb) !! n
          = Arbol.branches (arbol SampleHbb.three_fatjets) !! n).
Proof.
  apply (SelectHbbFatJet_frame SampleHbb.pt SampleHbb.eta SampleHbb.phi
           SampleHbb.DeltaR true true SampleHbb.three_fatjets SampleSelected.hbb).
  vm_compute. reflexivity.
Defined.

(** ** [SaveBJetVeto], [SelectJetsNoHbbOverlap] and [FixEWKSamples] *)

Lemma bveto_loop_spec (WP : float) (btags : Doubles) :
  VBSWH.bveto_loop WP btags true = true ↔ ∀ btag, btag ∈ btags -> (WP <? btag)%float = false.
Proof.
  induction btags as [|b btags IH]; simpl.
  - split; [|reflexivity]. intros _ btag Hin. apply elem_of_nil in Hin. contradiction.
  - destruct (WP <? b)%float eqn:Hb.
    + split; [discriminate|]. intros Hall. rewrite <- Hb. symmetry. apply Hall. left.
    + rewrite IH. split.
      * intros Hall btag Hin. apply elem_of_cons in Hin as [-> | Hin]; auto.
      * intros Hall btag Hin. apply Hall. right. exact Hin.
Qed.

(** X12: [SaveBJetVeto] only records: it never rejects an event, and the flag it
    writes, which [ApplyAk4GlobalBVeto] returns later in the chain, is true
    exactly when no good jet has a b-tag score above the working point. *)
Theorem SaveBJetVeto_records_the_veto
    (WP_DeepFlav_medium : float) (w w' : World) (passed : bool) :
  VBSWH.SaveBJetVeto_evaluate WP_DeepFlav_medium w = Ok (passed, w') ->
  passed = true
  ∧ ∃ btags passes_bveto,
      Variables.getVal Doubles "good_jet_btags" (globals w) = Ok btags
      ∧ VBSWHCutflow.ApplyAk4GlobalBVeto w' = Ok passes_bveto
      ∧ (passes_bveto = true
         ↔ ∀ btag, btag ∈ btags -> (WP_DeepFlav_medium <? btag)%float = false)
      ∧ globals w' = globals w
      ∧ ∀ n, n ≠ "passes_bveto" ->
             Arbol.branches (arbol w') !! n = Arbol.branches (arbol w) !! n.
Proof.
  intros H. unfold VBSWH.SaveBJetVeto_evaluate in H.
  apply bind_Ok_inv in H as (btags & Hbtags & H).
  apply bind_Ok_inv in H as (a & Ha & H).
  injection H as <- <-. split; [reflexivity|].
  exists btags, (VBSWH.bveto_loop WP_DeepFlav_medium btags true).
  split; [exact Hbtags|]. split.
  { unfold VBSWHCutflow.ApplyAk4GlobalBVeto. simpl. read_leaf. }
  split; [apply bveto_loop_spec|]. split; [reflexivity|].
  intros n Hn. simpl. exact (setLeaf_other _ _ _ _ _ Ha Hn).
Qed.

Lemma SaveBJetVeto_records_the_veto_witness :
  true = true
  ∧ ∃ btags passes_bveto,
      Variables.getVal Doubles "good_jet_btags" (globals (SampleWH.jets [0.1; 0.2]%float))
      = Ok btags
      ∧ VBSWHCutflow.ApplyAk4GlobalBVeto (SampleWH.after_SaveBJetVeto [0.1; 0.2]%float)
        = Ok passes_bveto
      ∧ (passes_bveto = true ↔ ∀ btag, btag ∈ btags -> (0.3 <? btag)%float = false)
      ∧ globals (SampleWH.after_SaveBJetVeto [0.1; 0.2]%float)
        = globals (SampleWH.jets [0.1; 0.2]%float)
      ∧ ∀ n, n ≠ "passes_bveto" ->
             Arbol.branches (arbol (SampleWH.after_SaveBJetVeto [0.1; 0.2]%float)) !! n
             = Arbol.branches (arbol (SampleWH.jets [0.1; 0.2]%float)) !! n.
Proof.
  apply (SaveBJetVeto_records_the_veto 0.3%float (SampleWH.jets [0.1; 0.2]%float)
           (SampleWH.after_SaveBJetVeto [0.1; 0.2]%float) true).
  vm_compute. reflexivity.
Defined.

Section Overlap_facts.

Variables pt eta phi : LorentzVector -> float.
Variable DeltaR : LorentzVector -> LorentzVector -> float.
Variable overlapsLepton : SelectJetsNoHbbOverlap.Members -> Z -> LorentzVector -> Exn bool.

(** X13: after [SelectHbbFatJet] passed, the overlap variables that
    [SelectJetsNoHbbOverlap] loads hold the four-momentum of the selected
    fat jet and the lepton variables as they were before that cut, and a
    jet is an overlap when it overlaps a lepton or lies within 0.8 of the
    selected fat jet; the distance is not looked at for a jet that overlaps
    a lepton. *)
Theorem isOverlap_after_SelectHbbFatJet
    (use_md : bool) (w w' : World) (m : SelectJetsNoHbbOverlap.Members) :
  VBSWH.SelectHbbFatJet_evaluate pt eta phi DeltaR use_md w = Ok (true, w') ->
  SelectJetsNoHbbOverlap.loadOverlapVars (globals w') = Ok m ->
  Variables.getVal LorentzVector "hbbjet_p4" (globals w')
  = Ok (SelectJetsNoHbbOverlap.hbbjet_p4 m)
  ∧ Variables.getVal LorentzVectors "good_lep_p4s" (globals w)
    = Ok (SelectJetsNoHbbOverlap.good_lep_p4s m)
  ∧ Variables.getVal Integers "good_lep_jet_idxs" (globals w)
    = Ok (SelectJetsNoHbbOverlap.good_lep_jet_idxs m)
  ∧ Arbol.getLeaf float "hbbjet_pt" (arbol w') = Ok (pt (SelectJetsNoHbbOverlap.hbbjet_p4 m))
  ∧ ∀ jet_i jet_p4,
      (overlapsLepton m jet_i jet_p4 = Ok true ->
       SelectJetsNoHbbOverlap.isOverlap DeltaR overlapsLepton m jet_i jet_p4 = Ok true)
      ∧ (overlapsLepton m jet_i jet_p4 = Ok false ->
         SelectJetsNoHbbOverlap.isOverlap DeltaR overlapsLepton m jet_i jet_p4
         = Ok (DeltaR (SelectJetsNoHbbOverlap.hbbjet_p4 m) jet_p4 <? 0.8)%float).
Proof.
  intros Hpass Hload.
  apply SelectHbbFatJet_inv in Hpass
    as (tags & score & p4s & p4 & k & g & a1 & a2 & a3 & a4 & a5 & masses & mass & a6
        & msds & msd & a7 & LT & a8 & _ & Htags & Hscore & Hp4s & Hp4 & Hk & Hg & H1 & H2
        & H3 & H4 & H5 & Hmasses & Hmass & H6 & Hmsds & Hmsd & H7 & HLT & H8 & ->).
  unfold SelectJetsNoHbbOverlap.loadOverlapVars in Hload. simpl in Hload.
  apply bind_Ok_inv in Hload as (lep_p4s & Hlep & Hload).
  apply bind_Ok_inv in Hload as (lep_idxs & Hidx & Hload).
  apply bind_Ok_inv in Hload as (hbb & Hhbb & Hload).
  injection Hload as <-. simpl.
  rewrite (getVal_setVal_ne _ "good_lep_p4s" _ _ _ Hg) in Hlep by discriminate.
  rewrite (getVal_setVal_ne _ "good_lep_jet_idxs" _ _ _ Hg) in Hidx by discriminate.
  pose proof (getVal_setVal_p4 _ _ _ _ Hg) as Hsel.
  rewrite Hsel in Hhbb. injection Hhbb as <-.
  split; [exact Hsel|]. split; [exact Hlep|]. split; [exact Hidx|].
  split; [read_leaf|].
  intros jet_i jet_p4. unfold SelectJetsNoHbbOverlap.isOverlap.
  split; intros ->; reflexivity.
Qed.

End Overlap_facts.

Lemma isOverlap_after_SelectHbbFatJet_witness :
  Variables.getVal LorentzVector "hbbjet_p4" (globals SampleSelected.hbb_with_leptons)
  = Ok (SelectJetsNoHbbOverlap.hbbjet_p4 SampleSelected.members)
  ∧ Variables.getVal LorentzVectors "good_lep_p4s" (globals SampleSelected.with_leptons)
    = Ok (SelectJetsNoHbbOverlap.good_lep_p4s SampleSelected.members)
  ∧ Variables.getVal Integers "good_lep_jet_idxs" (globals SampleSelected.with_leptons)
    = Ok (SelectJetsNoHbbOverlap.good_lep_jet_idxs SampleSelected.members)
  ∧ Arbol.getLeaf float "hbbjet_pt" (arbol SampleSelected.hbb_with_leptons)
    = Ok (SampleHbb.pt (SelectJetsNoHbbOverlap.hbbjet_p4 SampleSelected.members))
  ∧ ∀ jet_i jet_p4,
      (SampleSelected.overlapsLepton SampleSelected.members jet_i jet_p4 = Ok true ->
       SelectJetsNoHbbOverlap.isOverlap SampleHbb.DeltaR SampleSelected.overlapsLepton
         SampleSelected.members jet_i jet_p4 = Ok true)
      ∧ (SampleSelected.overlapsLepton SampleSelected.members jet_i jet_p4 = Ok false ->
         SelectJetsNoHbbOverlap.isOverlap SampleHbb.DeltaR SampleSelected.overlapsLepton
           SampleSelected.members jet_i jet_p4
         = Ok (SampleHbb.DeltaR (SelectJetsNoHbbOverlap.hbbjet_p4 SampleSelected.members)
                 jet_p4 <? 0.8)%float).
Proof.
  apply (isOverlap_after_SelectHbbFatJet SampleHbb.pt SampleHbb.eta SampleHbb.phi
           SampleHbb.DeltaR SampleSelected.overlapsLepton true SampleSelected.with_leptons
           SampleSelected.hbb_with_leptons SampleSelected.members).
  - vm_compute. reflexivity.
  - vm_compute. reflexivity.
Defined.

Section FixEWKSamples_facts.

Variable LHEPart_pdgId : Nano -> Integers.

(** X14: [FixEWKSamples] reads the partons of the hard process only for files
    whose name contains EWKW or EWKZ.  Every other file passes, whatever
    the event holds.  For such a file the event is rejected exactly when
    one of the first two partons is a b quark, and an event with fewer than
    two partons is not rejected: the cut throws. *)
Theorem FixEWKSamples_only_touches_EWK_files (w : World) :
  let ewk := Contains (file_name (cli w)) "EWKW" || Contains (file_name (cli w)) "EWKZ" in
  (ewk = false -> MainSetup.FixEWKSamples LHEPart_pdgId w = Ok true)
  ∧ (ewk = true ->
     (∀ passed, MainSetup.FixEWKSamples LHEPart_pdgId w = Ok passed ->
        ∃ parton1_pdgID parton2_pdgID rest,
          LHEPart_pdgId (nt w) = parton1_pdgID :: parton2_pdgID :: rest
          ∧ (passed = false ↔ abs_int parton1_pdgID = 5 ∨ abs_int parton2_pdgID = 5))
     ∧ ((length (LHEPart_pdgId (nt w)) < 2)%nat ->
        MainSetup.FixEWKSamples LHEPart_pdgId w = Throw out_of_range)).
Proof.
  cbv zeta. unfold MainSetup.FixEWKSamples.
  destruct (Contains (file_name (cli w)) "EWKW" || Contains (file_name (cli w)) "EWKZ").
  - split; [discriminate|]. intros _. split.
    + intros passed H. destruct (LHEPart_pdgId (nt w)) as [|p1 [|p2 rest]]; try discriminate.
      exists p1, p2, rest. split; [reflexivity|].
      change (at_ (p1 :: p2 :: rest) 0) with (Ok (A := Z) p1) in H.
      change (at_ (p1 :: p2 :: rest) 1) with (Ok (A := Z) p2) in H. simpl in H.
      destruct (Z.eqb_spec (abs_int p1) 5) as [E1|N1];
        destruct (Z.eqb_spec (abs_int p2) 5) as [E2|N2]; simpl in H;
        injection H as <-; split; auto; try discriminate.
      intros [?|?]; contradiction.
    + intros Hlen. destruct (LHEPart_pdgId (nt w)) as [|p1 [|p2 rest]]; try reflexivity.
      simpl in Hlen. lia.
  - split; [reflexivity|discriminate].
Qed.

End FixEWKSamples_facts.

Lemma FixEWKSamples_only_touches_EWK_files_witness :
  MainSetup.FixEWKSamples (SampleWH.LHEPart_pdgId true) SampleWH.ewk_file = Ok false
  ∧ ∃ parton1_pdgID parton2_pdgID rest,
      SampleWH.LHEPart_pdgId true (nt SampleWH.ewk_file)
      = parton1_pdgID :: parton2_pdgID :: rest
      ∧ (false = false ↔ abs_int parton1_pdgID = 5 ∨ abs_int parton2_pdgID = 5).
Proof.
  split; [reflexivity|].
  destruct (FixEWKSamples_only_touches_EWK_files (SampleWH.LHEPart_pdgId true)
              SampleWH.ewk_file) as (_ & Hewk).
  destruct (Hewk eq_refl) as (Hpassed & _).
  apply (Hpassed false). reflexivity.
Defined.

(** ** The VBSWH cutflow *)

Lemma chain_of_app (cs1 cs2 : list Cut) (tr : Cutflow.CutTree) :
  chain_of (cs1 ++ cs2) tr = chain_of cs1 (chain_of cs2 tr).
Proof. unfold chain_of. apply foldr_app. Qed.

Lemma passes_all_app (cs1 cs2 : list Cut) :
  ∀ w w', passes_all (cs1 ++ cs2) w w'
          ↔ ∃ w1, passes_all cs1 w w1 ∧ passes_all cs2 w1 w'.
Proof.
  induction cs1 as [|c cs1 IH]; intros w w'; simpl.
  - split; [eauto|]. intros (w1 & -> & H). exact H.
  - split.
    + intros (w1 & Hc & H). apply IH in H as (w2 & H1 & H2). eauto.
    + intros (w2 & (w1 & Hc & H1) & H2). exists w1. split; [exact Hc|].
      apply IH. eauto.
Qed.

(** A chain accepts only what every one of its cuts passed, and ends at
    its last cut. *)
Lemma walk_chain_accepted (cs : list Cut) :
  ∀ w wgt cnt o,
    Cutflow.walk (chain_of cs Cutflow.Null) w wgt cnt = Ok o ->
    Cutflow.accepted o = true ->
    passes_all cs w (Cutflow.world o) ∧ name <$> last cs = Some (Cutflow.terminal o).
Proof.
  induction cs as [|c cs IH]; intros w wgt cnt o Hwalk Hacc; [discriminate|].
  cbn [chain_of foldr Cutflow.walk] in Hwalk. fold (chain_of cs Cutflow.Null) in Hwalk.
  apply bind_Ok_inv in Hwalk as ([passed w1] & Hc & Hwalk).
  destruct passed.
  - apply bind_Ok_inv in Hwalk as (k & _ & Hwalk).
    destruct cs as [|c' cs].
    + simpl in Hwalk. injection Hwalk as <-. simpl. split; [eauto|reflexivity].
    + cbn [chain_of foldr] in Hwalk. fold (chain_of cs Cutflow.Null) in Hwalk.
      change (Cutflow.Node c' Cutflow.Null (chain_of cs Cutflow.Null))
        with (chain_of (c' :: cs) Cutflow.Null) in Hwalk.
      apply IH in Hwalk as (Hall & Hlast); [|exact Hacc].
      split; [exists w1; split; [exact Hc|exact Hall]|exact Hlast].
  - injection Hwalk as <-. discriminate.
Qed.

(** A chain rejects at the first cut that returns false. *)
Lemma walk_chain_rejected (cs : list Cut) :
  ∀ w wgt cnt o,
    Cutflow.walk (chain_of cs Cutflow.Null) w wgt cnt = Ok o ->
    Cutflow.accepted o = false ->
    ∃ pre c post w1,
      cs = pre ++ c :: post ∧ passes_all pre w w1
      ∧ evaluate c w1 = Ok (false, Cutflow.world o) ∧ Cutflow.terminal o = name c.
Proof.
  induction cs as [|c cs IH]; intros w wgt cnt o Hwalk Hrej; [discriminate|].
  cbn [chain_of foldr Cutflow.walk] in Hwalk. fold (chain_of cs Cutflow.Null) in Hwalk.
  apply bind_Ok_inv in Hwalk as ([passed w1] & Hc & Hwalk).
  destruct passed.
  - apply bind_Ok_inv in Hwalk as (k & _ & Hwalk).
    destruct cs as [|c' cs].
    + simpl in Hwalk. injection Hwalk as <-. discriminate.
    + cbn [chain_of foldr] in Hwalk. fold (chain_of cs Cutflow.Null) in Hwalk.
      change (Cutflow.Node c' Cutflow.Null (chain_of cs Cutflow.Null))
        with (chain_of (c' :: cs) Cutflow.Null) in Hwalk.
      apply IH in Hwalk as (pre & c0 & post & w2 & -> & Hpre & Hc0 & Hterm); [|exact Hrej].
      exists (c :: pre), c0, post, w2. split; [reflexivity|].
      split; [exists w1; split; [exact Hc|exact Hpre]|]. split; [exact Hc0|exact Hterm].
  - injection Hwalk as <-. exists [], c, cs, w. simpl. repeat split; auto.
Qed.

Lemma LambdaCut_passed (n : string) (f : World -> Exn bool) (w w' : World) :
  evaluate (LambdaCut n f) w = Ok (true, w') -> f w = Ok true ∧ w' = w.
Proof.
  simpl. intros H. apply bind_Ok_inv in H as (b & Hf & H). injection H as -> <-. auto.
Qed.

Lemma getLeaf_double_row (n : string) (a : Arbol.t) (v : float) :
  Arbol.getLeaf float n a = Ok v -> Arbol.current_row a !! n = Some (Arbol.LDouble v).
Proof.
  unfold Arbol.getLeaf, Arbol.current_row. rewrite lookup_fmap.
  destruct (Arbol.branches a !! n) as [b|]; [|discriminate]. simpl.
  destruct (Arbol.value b); try discriminate. intros H. injection H as ->. reflexivity.
Qed.

Lemma getLeaf_bool_row (n : string) (a : Arbol.t) (v : bool) :
  Arbol.getLeaf bool n a = Ok v -> Arbol.current_row a !! n = Some (Arbol.LBool v).
Proof.
  unfold Arbol.getLeaf, Arbol.current_row. rewrite lookup_fmap.
  destruct (Arbol.branches a !! n) as [b|]; [|discriminate]. simpl.
  destruct (Arbol.value b); try discriminate. intros H. injection H as ->. reflexivity.
Qed.

Section VBSWH_cutflow.

Variable cuts : VBSWHCutflow.CutClasses.
Variable leptons : Nano -> Leptons.Branches.
Variable add_branches : float -> float -> float.
Variables pt eta phi : LorentzVector -> float.
Variable DeltaR : LorentzVector -> LorentzVector -> float.
Variable WP_DeepFlav_medium : float.

Lemma wh_initCutflow_tree :
  VBSWHCutflow.initCutflow cuts leptons add_branches pt eta phi DeltaR WP_DeepFlav_medium
    Cutflow.empty
  = Ok (wh_cutflow cuts leptons add_branches pt eta phi DeltaR WP_DeepFlav_medium).
Proof. reflexivity. Qed.

(** The events that pass the seven predicates from [MjjGt500_detajjGt3] to
    [STGt1500] lie in the second signal region, and the predicates leave
    the stores alone. *)
Lemma wh_signal_region_passed (w w' : World) :
  passes_all wh_signal_region w w' ->
  w' = w ∧ in_signal_region (fun n => Arbol.current_row (arbol w) !! n).
Proof.
  unfold wh_signal_region, passes_all.
  intros (w1 & H1 & w2 & H2 & w3 & H3 & w4 & H4 & w5 & H5 & w6 & H6 & w7 & H7 & ->).
  apply LambdaCut_passed in H1 as (_ & ->). apply LambdaCut_passed in H2 as (_ & ->).
  apply LambdaCut_passed in H3 as (Hbveto & ->). apply LambdaCut_passed in H4 as (Hvbs & ->).
  apply LambdaCut_passed in H5 as (_ & ->). apply LambdaCut_passed in H6 as (Hhbb & ->).
  apply LambdaCut_passed in H7 as (HST & ->). split; [reflexivity|].
  unfold VBSWHCutflow.MjjGt600_detajjGt4 in Hvbs.
  apply bind_Ok_inv in Hvbs as (M_jj & HM & Hvbs).
  destruct (600 <? M_jj)%float eqn:HMgt; simpl in Hvbs; [|discriminate].
  apply bind_Ok_inv in Hvbs as (deta_jj & Hd & Hvbs). injection Hvbs as Hdgt.
  unfold VBSWHCutflow.XbbGt0p9_MSDLt150 in Hhbb.
  apply bind_Ok_inv in Hhbb as (score & Hs & Hhbb).
  destruct (0.9 <? score)%float eqn:Hsgt; simpl in Hhbb; [|discriminate].
  apply bind_Ok_inv in Hhbb as (msd & Hm & Hhbb). injection Hhbb as Hmlt.
  unfold VBSWHCutflow.STGt1500 in HST.
  apply bind_Ok_inv in HST as (ST & HS & HST). injection HST as HSgt.
  exists M_jj, deta_jj, score, msd, ST.
  split; [exact (getLeaf_double_row _ _ _ HM)|].
  split; [exact (getLeaf_double_row _ _ _ Hd)|].
  split; [exact (getLeaf_double_row _ _ _ Hs)|].
  split; [exact (getLeaf_double_row _ _ _ Hm)|].
  split; [exact (getLeaf_double_row _ _ _ HS)|].
  split; [exact (getLeaf_bool_row _ _ _ Hbveto)|].
  repeat split; assumption.
Qed.

(** X15: [VBSWH::Analysis::initCutflow] succeeds on an empty cutflow and builds
    one chain of nineteen cuts with distinct names, none with a successor
    on fail.  So a traversal from [Bookkeeping] accepts an event only when
    every cut passed in turn, ending at [STGt1500], and rejects it at the
    first cut that returns false, without evaluating any later cut. *)
Theorem VBSWH_initCutflow_is_one_chain :
  let all_cuts := wh_selection cuts leptons add_branches pt eta phi DeltaR WP_DeepFlav_medium
                  ++ wh_vbsjets cuts :: wh_signal_region in
  ∃ cutflow,
    VBSWHCutflow.initCutflow cuts leptons add_branches pt eta phi DeltaR WP_DeepFlav_medium
      Cutflow.empty = Ok cutflow
    ∧ Cutflow.root cutflow = chain_of all_cuts Cutflow.Null
    ∧ length all_cuts = 19%nat
    ∧ NoDup (Cutflow.names (Cutflow.root cutflow))
    ∧ ∀ w o,
        Cutflow.run "Bookkeeping" cutflow w = Ok o ->
        (Cutflow.accepted o = true ->
           passes_all all_cuts w (Cutflow.world o) ∧ Cutflow.terminal o = "STGt1500")
        ∧ (Cutflow.accepted o = false ->
             ∃ pre c post w1,
               all_cuts = pre ++ c :: post ∧ passes_all pre w w1
               ∧ evaluate c w1 = Ok (false, Cutflow.world o)
               ∧ Cutflow.terminal o = name c).
Proof.
  cbv zeta. eexists. split; [exact wh_initCutflow_tree|].
  split; [reflexivity|]. split; [reflexivity|].
  split; [apply (bool_decide_unpack _); vm_compute; exact I|].
  intros w o Hrun.
  change (Cutflow.run "Bookkeeping"
            (wh_cutflow cuts leptons add_branches pt eta phi DeltaR WP_DeepFlav_medium) w)
    with (Cutflow.walk
            (chain_of (wh_selection cuts leptons add_branches pt eta phi DeltaR
                         WP_DeepFlav_medium ++ wh_vbsjets cuts :: wh_signal_region)
               Cutflow.Null) w 1%float ∅) in Hrun.
  split; intros Hacc.
  - apply walk_chain_accepted in Hrun as (Hall & Hlast); [|exact Hacc].
    split; [exact Hall|]. simpl in Hlast. injection Hlast as <-. reflexivity.
  - exact (walk_chain_rejected _ _ _ _ _ Hrun Hacc).
Qed.

(** X16: whatever the cuts of core.h do, a traversal that starts at
    [SelectVBSJetsMaxE], as the driver's does, and accepts, ends at
    [STGt1500] and leaves branches inside the second signal region:
    [M_jj] above 600, the absolute [deta_jj] above 4, [hbbjet_score] above
    0.9, [hbbjet_msoftdrop] below 150, [ST] above 1500 and [passes_bveto]
    true. *)
Theorem VBSWH_accepted_in_signal_region (cutflow : Cutflow.t) (w : World)
    (o : Cutflow.Outcome) :
  Cutflow.find "SelectVBSJetsMaxE" (Cutflow.root cutflow) = Some (wh_tail cuts) ->
  Cutflow.run "SelectVBSJetsMaxE" cutflow w = Ok o ->
  Cutflow.accepted o = true ->
  Cutflow.terminal o = "STGt1500"
  ∧ VBSVVHJets.body_evaluate (VBSWHCutflow.SelectVBSJetsMaxE cuts) w
    = Ok (true, Cutflow.world o)
  ∧ in_signal_region (fun n => Arbol.current_row (arbol (Cutflow.world o)) !! n).
Proof.
  intros Hfind Hrun Hacc. unfold Cutflow.run in Hrun. rewrite Hfind in Hrun.
  apply walk_chain_accepted in Hrun as (Hall & Hlast); [|exact Hacc].
  simpl in Hlast. injection Hlast as <-. split; [reflexivity|].
  destruct Hall as (w1 & Hvbs & Hall).
  apply wh_signal_region_passed in Hall as (Hw & Hsr). rewrite Hw.
  split; [exact Hvbs|exact Hsr].
Qed.

Variable GetEntry : Z -> Nano -> Nano.

(** X17: with this cutflow the driver only commits rows of the second signal
    region: for a processed event the callback adds a row exactly when the
    traversal accepted, and every row it adds holds [M_jj] above 600, the
    absolute [deta_jj] above 4, [hbbjet_score] above 0.9,
    [hbbjet_msoftdrop] below 150, [ST] above 1500 and a true
    [passes_bveto]. *)
Theorem VBSWH_rows_are_signal_region (entry : Z) (s s' : Main.State) :
  stop_condition s = false ->
  Cutflow.find "SelectVBSJetsMaxE" (Cutflow.root (Main.cutflow s)) = Some (wh_tail cuts) ->
  Main.event GetEntry entry s = Ok s' ->
  ∃ o, Cutflow.run "SelectVBSJetsMaxE" (Main.cutflow s)
         (Main.prepare GetEntry entry (Main.world s)) = Ok o
    ∧ (Cutflow.accepted o = false ->
       Arbol.rows (arbol (Main.world s')) = Arbol.rows (arbol (Cutflow.world o)))
    ∧ (Cutflow.accepted o = true ->
       ∃ row, Arbol.rows (arbol (Main.world s'))
              = Arbol.rows (arbol (Cutflow.world o)) ++ [row]
              ∧ in_signal_region (fun n => row !! n)).
Proof.
  intros Hgo Hfind Hev. rewrite (event_unfold _ _ _ Hgo) in Hev.
  destruct (Cutflow.run _ _ _) as [o|e] eqn:Hrun; [|discriminate].
  simpl in Hev. injection Hev as <-. exists o. split; [reflexivity|].
  unfold committed; simpl. split; intros Hacc; rewrite Hacc; [reflexivity|].
  exists (Arbol.current_row (arbol (Cutflow.world o))). split; [reflexivity|].
  unfold Cutflow.run in Hrun. rewrite Hfind in Hrun.
  apply walk_chain_accepted in Hrun as (Hall & _); [|exact Hacc].
  destruct Hall as (w1 & Hvbs & Hall).
  apply wh_signal_region_passed in Hall as (Hw & Hsr). rewrite Hw. exact Hsr.
Qed.

End VBSWH_cutflow.

Lemma VBSWH_accepted_in_signal_region_witness :
  Cutflow.terminal SampleWH.outcome = "STGt1500"
  ∧ VBSVVHJets.body_evaluate (VBSWHCutflow.SelectVBSJetsMaxE SampleWH.pass_all)
      SampleWH.signal = Ok (true, Cutflow.world SampleWH.outcome)
  ∧ in_signal_region
      (fun n => Arbol.current_row (arbol (Cutflow.world SampleWH.outcome)) !! n).
Proof.
  apply (VBSWH_accepted_in_signal_region SampleWH.pass_all SampleWH.cutflow SampleWH.signal
           SampleWH.outcome).
  - reflexivity.
  - vm_compute. reflexivity.
  - vm_compute. reflexivity.
Defined.

Lemma VBSWH_rows_are_signal_region_witness :
  ∃ o, Cutflow.run "SelectVBSJetsMaxE" (Main.cutflow SampleWH.state)
         (Main.prepare Sample.GetEntry 0 (Main.world SampleWH.state)) = Ok o
    ∧ (Cutflow.accepted o = false ->
       Arbol.rows (arbol (Main.world (Sample.after_event SampleWH.state)))
       = Arbol.rows (arbol (Cutflow.world o)))
    ∧ (Cutflow.accepted o = true ->
       ∃ row, Arbol.rows (arbol (Main.world (Sample.after_event SampleWH.state)))
              = Arbol.rows (arbol (Cutflow.world o)) ++ [row]
              ∧ in_signal_region (fun n => row !! n)).
Proof.
  apply (VBSWH_rows_are_signal_region SampleWH.pass_all Sample.GetEntry 0 SampleWH.state
           (Sample.after_event SampleWH.state)).
  - reflexivity.
  - reflexivity.
  - reflexivity.
Defined.

(** ** The set-up of [main] and the channels of VBSVVHJets *)

Section MainSetup_facts.

Variable cuts : VBSWHCutflow.CutClasses.
Variable leptons : Nano -> Leptons.Branches.
Variable add_branches : float -> float -> float.
Variables pt eta phi : LorentzVector -> float.
Variable DeltaR : LorentzVector -> LorentzVector -> float.
Variable WP_DeepFlav_medium : float.
Variable LHEPart_pdgId : Nano -> Integers.

(** X18: [main] inserts [FixEWKSamples] on the pass side of [Bookkeeping] after
    [initCutflow] has put [PassesEventFilters] there.  With an insertion
    that refuses an occupied slot, which is how the cutflow is modelled
    here, the set-up of [main] stops with SlotOccupied before any event is
    read. *)
Theorem main_inserts_FixEWKSamples_at_an_occupied_slot :
  ∃ cutflow,
    VBSWHCutflow.initCutflow cuts leptons add_branches pt eta phi DeltaR WP_DeepFlav_medium
      Cutflow.empty = Ok cutflow
    ∧ successor Cutflow.Right "Bookkeeping" (Cutflow.root cutflow) = Some "PassesEventFilters"
    ∧ ("FixEWKSamples" ∉ Cutflow.names (Cutflow.root cutflow))
    ∧ MainSetup.cutflow LHEPart_pdgId
        (VBSWHCutflow.initCutflow cuts leptons add_branches pt eta phi DeltaR
           WP_DeepFlav_medium)
      = Throw SlotOccupied.
Proof.
  eexists. split; [apply wh_initCutflow_tree|]. split; [reflexivity|].
  split.
  - apply (bool_decide_unpack _). vm_compute. exact I.
  - unfold MainSetup.cutflow. rewrite wh_initCutflow_tree. reflexivity.
Qed.

End MainSetup_facts.

(** A chain before a node hands to it what passed all its cuts. *)
Lemma walk_chain_prefix (cs : list Cut) (c : Cut) (l r : Cutflow.CutTree) :
  ∀ w wgt cnt o,
    Cutflow.walk (chain_of cs (Cutflow.Node c l r)) w wgt cnt = Ok o ->
    Cutflow.accepted o = true ->
    ∃ w1 wgt1 cnt1,
      passes_all cs w w1 ∧ Cutflow.walk (Cutflow.Node c l r) w1 wgt1 cnt1 = Ok o.
Proof.
  induction cs as [|c0 cs IH]; intros w wgt cnt o Hwalk Hacc.
  - exists w, wgt, cnt. split; [reflexivity|exact Hwalk].
  - cbn [chain_of foldr Cutflow.walk] in Hwalk.
    fold (chain_of cs (Cutflow.Node c l r)) in Hwalk.
    apply bind_Ok_inv in Hwalk as ([passed w1] & Hc & Hwalk).
    destruct passed.
    + apply bind_Ok_inv in Hwalk as (k & _ & Hwalk).
      assert (Hnext : Cutflow.walk (chain_of cs (Cutflow.Node c l r)) w1 (wgt * k)%float
                        (Cutflow.count_pass (name c0) (wgt * k)%float cnt) = Ok o).
      { destruct cs as [|c1 cs]; exact Hwalk. }
      apply IH in Hnext as (w2 & wgt2 & cnt2 & Hall & Hnode); [|exact Hacc].
      exists w2, wgt2, cnt2. split; [exists w1; split; [exact Hc|exact Hall]|exact Hnode].
    + injection Hwalk as <-. discriminate.
Qed.

Section VBSVVHJets_channels.

Variable cuts : VBSVVHJets.CutClasses.

(** The events that pass the eight predicates at the end of the all-merged
    chain lie in its signal region. *)
Lemma allmerged_region_passed (w w' : World) :
  passes_all
    [LambdaCut "AllMerged_ApplyAk4GlobalBVeto" VBSVVHJets.ApplyAk4GlobalBVeto;
     LambdaCut "AllMerged_STGt1200" (VBSVVHJets.STGt 1200);
     LambdaCut "AllMerged_MjjGt500" VBSVVHJets.MjjGt500;
     LambdaCut "AllMerged_detajjGt3" VBSVVHJets.detajjGt3;
     LambdaCut "AllMerged_MjjGt600_detajjGt4" VBSVVHJets.MjjGt600_detajjGt4;
     LambdaCut "AllMerged_XbbGt0p9" VBSVVHJets.XbbGt0p9;
     LambdaCut "AllMerged_XWqqGt0p7" VBSVVHJets.XWqqGt0p7;
     LambdaCut "AllMerged_STGt1500" (VBSVVHJets.STGt 1500)] w w' ->
  w' = w ∧ in_allmerged_region (fun n => Arbol.current_row (arbol w) !! n).
Proof.
  unfold passes_all.
  intros (w1 & H1 & w2 & H2 & w3 & H3 & w4 & H4 & w5 & H5 & w6 & H6 & w7 & H7 & w8 & H8 & ->).
  apply LambdaCut_passed in H1 as (Hbveto & ->). apply LambdaCut_passed in H2 as (_ & ->).
  apply LambdaCut_passed in H3 as (_ & ->). apply LambdaCut_passed in H4 as (_ & ->).
  apply LambdaCut_passed in H5 as (Hvbs & ->). apply LambdaCut_passed in H6 as (Hxbb & ->).
  apply LambdaCut_passed in H7 as (Hxwqq & ->). apply LambdaCut_passed in H8 as (HST & ->).
  split; [reflexivity|].
  unfold VBSVVHJets.MjjGt600_detajjGt4 in Hvbs.
  apply bind_Ok_inv in Hvbs as (M_jj & HM & Hvbs).
  destruct (600 <? M_jj)%float eqn:HMgt; simpl in Hvbs; [|discriminate].
  apply bind_Ok_inv in Hvbs as (deta_jj & Hd & Hvbs). injection Hvbs as Hdgt.
  unfold VBSVVHJets.XbbGt0p9 in Hxbb.
  apply bind_Ok_inv in Hxbb as (xbb & Hx & Hxbb). injection Hxbb as Hxgt.
  unfold VBSVVHJets.XWqqGt0p7 in Hxwqq.
  apply bind_Ok_inv in Hxwqq as (xwqq & Hq & Hxwqq).
  destruct (0.7 <? xwqq)%float eqn:Hqgt; simpl in Hxwqq; [|discriminate].
  unfold VBSVVHJets.STGt in HST.
  apply bind_Ok_inv in HST as (ST & HS & HST). injection HST as HSgt.
  exists M_jj, deta_jj, xbb, xwqq, ST.
  split; [exact (getLeaf_double_row _ _ _ HM)|].
  split; [exact (getLeaf_double_row _ _ _ Hd)|].
  split; [exact (getLeaf_double_row _ _ _ Hx)|].
  split; [exact (getLeaf_double_row _ _ _ Hq)|].
  split; [exact (getLeaf_double_row _ _ _ HS)|].
  split; [exact (getLeaf_bool_row _ _ _ Hbveto)|].
  repeat split; assumption.
Qed.

(** X19: an event the VBSVVHJets cutflow accepts had three fat jets at the
    split and ended at [AllMerged_STGt1500] inside the all-merged signal
    region, or had two and ended at [SemiMerged_MjjGt500] with [M_jj] above
    500: no event with another number of fat jets is accepted, in either
    channel. *)
Theorem VBSVVHJets_accepted_channel (w : World) (o : Cutflow.Outcome) :
  Cutflow.run "Bookkeeping" (vvh_cutflow cuts) w = Ok o ->
  Cutflow.accepted o = true ->
  ∃ w1 n_fatjets,
    passes_all (vvh_preselection cuts) w w1
    ∧ Arbol.getLeaf Z "n_fatjets" (arbol w1) = Ok n_fatjets
    ∧ ((n_fatjets = 3 ∧ Cutflow.terminal o = "AllMerged_STGt1500"
        ∧ in_allmerged_region (fun n => Arbol.current_row (arbol (Cutflow.world o)) !! n))
       ∨ (n_fatjets = 2 ∧ Cutflow.terminal o = "SemiMerged_MjjGt500"
          ∧ in_semimerged_region
              (fun n => Arbol.current_row (arbol (Cutflow.world o)) !! n))).
Proof.
  intros Hrun Hacc.
  change (Cutflow.run "Bookkeeping" (vvh_cutflow cuts) w)
    with (Cutflow.walk (chain_of (vvh_preselection cuts) (exactly3_node cuts)) w 1%float ∅)
    in Hrun.
  unfold exactly3_node in Hrun.
  apply walk_chain_prefix in Hrun as (w1 & wgt1 & cnt1 & Hpre & Hnode); [|exact Hacc].
  exists w1. cbn [Cutflow.walk] in Hnode.
  apply bind_Ok_inv in Hnode as ([passed w1'] & H3 & Hnode).
  simpl in H3. apply bind_Ok_inv in H3 as (b & H3 & Hb). injection Hb as -> <-.
  unfold VBSVVHJets.Exactly3FatJets in H3.
  apply bind_Ok_inv in H3 as (n_fatjets & Hn & H3). injection H3 as Hn3.
  exists n_fatjets. split; [exact Hpre|]. split; [exact Hn|].
  destruct passed.
  - left. apply Z.eqb_eq in Hn3. split; [exact Hn3|].
    apply bind_Ok_inv in Hnode as (k & _ & Hnode).
    change (Cutflow.walk (allmerged_chain cuts) w1 (wgt1 * k)%float
              (Cutflow.count_pass "Exactly3FatJets" (wgt1 * k)%float cnt1) = Ok o) in Hnode.
    unfold allmerged_chain in Hnode.
    apply walk_chain_accepted in Hnode as (Hall & Hlast); [|exact Hacc].
    simpl in Hlast. injection Hlast as <-. split; [reflexivity|].
    destruct Hall as (v1 & _ & v2 & _ & v3 & _ & v4 & _ & Hall).
    apply allmerged_region_passed in Hall as (-> & Hregion). exact Hregion.
  - right.
    change (Cutflow.walk (semimerged_chain cuts) w1 wgt1
              (Cutflow.count_fail "Exactly3FatJets" cnt1) = Ok o) in Hnode.
    unfold semimerged_chain in Hnode.
    apply walk_chain_accepted in Hnode as (Hall & Hlast); [|exact Hacc].
    simpl in Hlast. injection Hlast as <-.
    destruct Hall as (v0 & H2 & v1 & _ & v2 & _ & v3 & _ & v4 & _ & v5 & _ & v6 & _
                      & v7 & HM & ->).
    apply LambdaCut_passed in H2 as (H2 & _).
    unfold VBSVVHJets.Exactly2FatJets in H2. rewrite Hn in H2. simpl in H2.
    injection H2 as H2. apply Z.eqb_eq in H2. split; [exact H2|]. split; [reflexivity|].
    apply LambdaCut_passed in HM as (HM & ->).
    unfold VBSVVHJets.MjjGt500 in HM.
    apply bind_Ok_inv in HM as (M_jj & HM & Hgt). injection Hgt as Hgt.
    exists M_jj. split; [exact (getLeaf_double_row _ _ _ HM)|exact Hgt].
Qed.

End VBSVVHJets_channels.

Lemma VBSVVHJets_accepted_channel_witness :
  ∃ w1 n_fatjets,
    passes_all (vvh_preselection SampleVVH.pass_all) (SampleVVH.fatjets 3) w1
    ∧ Arbol.getLeaf Z "n_fatjets" (arbol w1) = Ok n_fatjets
    ∧ ((n_fatjets = 3 ∧ Cutflow.terminal (vvh_outcome 3) = "AllMerged_STGt1500"
        ∧ in_allmerged_region
            (fun n => Arbol.current_row (arbol (Cutflow.world (vvh_outcome 3))) !! n))
       ∨ (n_fatjets = 2 ∧ Cutflow.terminal (vvh_outcome 3) = "SemiMerged_MjjGt500"
          ∧ in_semimerged_region
              (fun n => Arbol.current_row (arbol (Cutflow.world (vvh_outcome 3))) !! n))).
Proof.
  apply (VBSVVHJets_accepted_channel SampleVVH.pass_all (SampleVVH.fatjets 3) (vvh_outcome 3)).
  - vm_compute. reflexivity.
  - vm_compute. reflexivity.
Defined.

(** ** The corrections of [VBSVVHJets::Analysis] *)

Section Corrections_facts.

Variables JetEnergyScales LeptonSFsPKU HLT1LepSFs BTagSFs PileUpSFs : Type.
Variable new_JetEnergyScales : string -> JetEnergyScales.
Variable new_PileUpSFs : PileUpSFs.
Variable JetEnergyScales_init : JetEnergyScales -> JetEnergyScales.
Variable PileUpSFs_init : string -> PileUpSFs -> PileUpSFs.

(** X20: whatever the order in which the constructor's object goes through
    [initCorrections] and [init], [init] never dereferences a null pointer:
    [all_corrections] is only true once [jes] and [pu_sfs] are set.  The
    lepton, trigger and b-tag corrections stay null throughout, so
    [initCutflow] hands a null [btag_sfs] to the jet selections. *)
Theorem init_never_dereferences_null
    (m : @VVHCorrections.Members JetEnergyScales LeptonSFsPKU HLT1LepSFs BTagSFs PileUpSFs)
    (file_name : string) :
  VVHCorrections.reachable new_JetEnergyScales new_PileUpSFs JetEnergyScales_init
    PileUpSFs_init m ->
  (∃ m', VVHCorrections.init JetEnergyScales_init PileUpSFs_init file_name m = Some m')
  ∧ (VVHCorrections.all_corrections m = true ->
     is_Some (VVHCorrections.jes m) ∧ is_Some (VVHCorrections.pu_sfs m))
  ∧ VVHCorrections.lep_sfs m = None
  ∧ VVHCorrections.hlt_sfs m = None
  ∧ VVHCorrections.btag_sfs m = None.
Proof.
  intros Hreach.
  assert (Hinv : (VVHCorrections.all_corrections m = true ->
                  is_Some (VVHCorrections.jes m) ∧ is_Some (VVHCorrections.pu_sfs m))
                 ∧ VVHCorrections.lep_sfs m = None
                 ∧ VVHCorrections.hlt_sfs m = None
                 ∧ VVHCorrections.btag_sfs m = None).
  { induction Hreach as [|variation m Hreach IH|fn m m' Hreach IH Hinit].
    - simpl. repeat split; try reflexivity; discriminate.
    - destruct IH as (_ & Hl & Hh & Hb). simpl. repeat split; eauto.
    - destruct IH as (Hset & Hl & Hh & Hb). unfold VVHCorrections.init in Hinit.
      destruct (VVHCorrections.all_corrections m) eqn:Hall.
      + destruct (VVHCorrections.jes m) as [j|]; [|discriminate].
        destruct (VVHCorrections.pu_sfs m) as [p|]; [|discriminate].
        simpl in Hinit. injection Hinit as <-. simpl. repeat split; eauto.
      + injection Hinit as <-. rewrite Hall. repeat split; auto; discriminate. }
  split; [|exact Hinv]. destruct Hinv as (Hset & _).
  unfold VVHCorrections.init. destruct (VVHCorrections.all_corrections m); [|eauto].
  destruct (Hset eq_refl) as ([j ->] & [p ->]). simpl. eauto.
Qed.

End Corrections_facts.

Lemma init_never_dereferences_null_witness :
  (∃ m', VVHCorrections.init (fun n : nat => S n) (fun (_ : string) (n : nat) => S n)
           "VBSWH_MC.root"
           (VVHCorrections.initCorrections (fun _ : string => 0%nat) 0%nat "nominal"
              (@VVHCorrections.Analysis nat unit unit unit nat)) = Some m')
  ∧ (VVHCorrections.all_corrections
       (VVHCorrections.initCorrections (fun _ : string => 0%nat) 0%nat "nominal"
          (@VVHCorrections.Analysis nat unit unit unit nat)) = true ->
     is_Some (VVHCorrections.jes
                (VVHCorrections.initCorrections (fun _ : string => 0%nat) 0%nat "nominal"
                   (@VVHCorrections.Analysis nat unit unit unit nat)))
     ∧ is_Some (VVHCorrections.pu_sfs
                  (VVHCorrections.initCorrections (fun _ : string => 0%nat) 0%nat "nominal"
                     (@VVHCorrections.Analysis nat unit unit unit nat))))
  ∧ VVHCorrections.lep_sfs
      (VVHCorrections.initCorrections (fun _ : string => 0%nat) 0%nat "nominal"
         (@VVHCorrections.Analysis nat unit unit unit nat)) = None
  ∧ VVHCorrections.hlt_sfs
      (VVHCorrections.initCorrections (fun _ : string => 0%nat) 0%nat "nominal"
         (@VVHCorrections.Analysis nat unit unit unit nat)) = None
  ∧ VVHCorrections.btag_sfs
      (VVHCorrections.initCorrections (fun _ : string => 0%nat) 0%nat "nominal"
         (@VVHCorrections.Analysis nat unit unit unit nat)) = None.
Proof.
  apply (init_never_dereferences_null nat unit unit unit nat (fun _ : string => 0%nat) 0%nat
           (fun n : nat => S n) (fun (_ : string) (n : nat) => S n)).
  apply VVHCorrections.reach_initCorrections. apply VVHCorrections.reach_Analysis.
Defined.

(** ** The scale factors of [VBSWH::Analysis] *)

Section VBSWH_corrections_facts.

Variables JetEnergySFs LeptonSFsPKU : Type.
Variable new_JetEnergySFs : string -> JetEnergySFs.
Variable new_LeptonSFsPKU : LeptonSFsPKU.
Variable JetEnergySFs_init : string -> JetEnergySFs -> JetEnergySFs.
Variable LeptonSFsPKU_init : string -> LeptonSFsPKU -> LeptonSFsPKU.

(** X21: [VBSWH::Analysis::init] relies on [initCutflow]: the constructor
    assigns neither scale-factor pointer, so [init] on the constructor's
    object dereferences a pointer to no object, while after [initCutflow],
    which is the order of [main], every [init] finds both objects, one call
    after the other (once for each input file). *)
Theorem VBSWH_init_needs_initCutflow
    (m : @VBSWHCorrections.Members JetEnergySFs LeptonSFsPKU)
    (variation file_name : string) (file_names : list string) :
  VBSWHCorrections.init JetEnergySFs_init LeptonSFsPKU_init file_name
    VBSWHCorrections.Analysis
  = None
  ∧ ∃ m',
      foldl (fun r file_name =>
               r ≫= VBSWHCorrections.init JetEnergySFs_init LeptonSFsPKU_init file_name)
        (Some (VBSWHCorrections.initCutflow new_JetEnergySFs new_LeptonSFsPKU variation m))
        file_names
      = Some m'
      ∧ is_Some (VBSWHCorrections.jet_sfs m') ∧ is_Some (VBSWHCorrections.lep_sfs m').
Proof.
  split; [reflexivity|].
  assert (Hall : ∀ m0 : @VBSWHCorrections.Members JetEnergySFs LeptonSFsPKU,
            is_Some (VBSWHCorrections.jet_sfs m0) ->
            is_Some (VBSWHCorrections.lep_sfs m0) ->
            ∃ m',
              foldl (fun r file_name =>
                       r ≫= VBSWHCorrections.init JetEnergySFs_init LeptonSFsPKU_init
                              file_name)
                (Some m0) file_names
              = Some m'
              ∧ is_Some (VBSWHCorrections.jet_sfs m')
              ∧ is_Some (VBSWHCorrections.lep_sfs m')).
  { induction file_names as [|f fs IH]; intros m0 Hj Hl.
    - exists m0. repeat split; assumption.
    - destruct m0 as [[j|] [l|]]; try (destruct Hj as [? Hj]; discriminate);
        try (destruct Hl as [? Hl]; discriminate).
      cbn [foldl]. apply IH; simpl; eauto. }
  apply Hall; simpl; eauto.
Qed.

End VBSWH_corrections_facts.
